(** * repo-wiki: the agent loop, the source verifier and the tool registry

    A shallow embedding of the TypeScript core of repo-wiki
    (packages/core/src) and the properties of its specification.

    Conventions of the embedding.
    - A JavaScript string is a [string]; a character is one code unit in the
      range 0..255, so [\s], [trim] and [toLowerCase] are the restrictions of
      the ECMAScript ones to that range.
    - A JavaScript number that holds a line number, a step count or a length
      is a [Z]; decimal printing and [parseInt] are exact.  A relevance
      score and a JSON number are rationals ([Q]).
    - A function that may throw returns [Result A = JsExn + A]; [try/catch]
      is a match on that sum.
    - The file system is read only: a finite map from resolved absolute paths
      to nodes.  Symbolic links are not modelled (the code never calls
      [realpath]).
    - Wall-clock readings ([elapsedMs], [totalMs]) and console output are
      left out. *)

From Stdlib Require Import ZArith QArith Qround Qabs List String Ascii Bool Lia.
From Stdlib Require Import DecimalString DecimalZ DecimalPos.
From Stdlib Require DecimalFacts.
Import ListNotations.

Set Warnings "-register-all".

Open Scope string_scope.
Open Scope Z_scope.

(* ------------------------------------------------------------------ *)
(** * The JavaScript primitives the code relies on *)
(* ------------------------------------------------------------------ *)

Module Js.

(** A thrown value: an [Error] object with its [message], or any other value
    with its [String(...)] form. *)
Inductive JsExn : Type :=
| JsError (message : string)
| JsThrown (asString : string).

Definition Result (A : Type) : Type := (JsExn + A)%type.

(** [error instanceof Error ? error.message : String(error)] *)
Definition errorText (e : JsExn) : string :=
  match e with
  | JsError m => m
  | JsThrown s => s
  end.

Definition chr (n : nat) : ascii := ascii_of_nat n.
Definition str1 (n : nat) : string := String (chr n) EmptyString.

Definition LF : ascii := chr 10.
Definition nl : string := str1 10.
Definition dquote : string := str1 34.
Definition backtick : ascii := chr 96.
Definition bt : string := str1 96.

(** [\s] restricted to code units 0..255: TAB, LF, VT, FF, CR, SP, NBSP. *)
Definition isSpace (c : ascii) : bool :=
  let n := nat_of_ascii c in
  ((9 <=? n) && (n <=? 13) || (n =? 32) || (n =? 160))%nat.

(** [\d] *)
Definition isDigit (c : ascii) : bool :=
  let n := nat_of_ascii c in ((48 <=? n) && (n <=? 57))%nat.

(** [String.prototype.toLowerCase] on code units 0..255. *)
Definition lowerChar (c : ascii) : ascii :=
  let n := nat_of_ascii c in
  if ((65 <=? n) && (n <=? 90))%nat then chr (n + 32)
  else if ((192 <=? n) && (n <=? 222) && negb (n =? 215))%nat then chr (n + 32)
  else c.

Fixpoint toLowerCase (s : string) : string :=
  match s with
  | EmptyString => EmptyString
  | String c r => String (lowerChar c) (toLowerCase r)
  end.

Definition strlen (s : string) : Z := Z.of_nat (String.length s).

(** [s.startsWith(p)] *)
Definition startsWith (s p : string) : bool := String.prefix p s.

(** [s.includes(p)] *)
Fixpoint includes (s p : string) : bool :=
  if String.prefix p s then true
  else match s with
       | EmptyString => false
       | String _ r => includes r p
       end.

Definition endsWithChar (s : string) (c : ascii) : bool :=
  match rev (list_ascii_of_string s) with
  | x :: _ => Ascii.eqb x c
  | [] => false
  end.

(** The relative-index rule shared by [Array.prototype.slice] and
    [String.prototype.slice]. *)
Definition relIndex (len i : Z) : Z :=
  if i <? 0 then Z.max (len + i) 0 else Z.min i len.

(** [arr.slice(b, e)] *)
Definition slice {A : Type} (l : list A) (b e : Z) : list A :=
  let len := Z.of_nat (List.length l) in
  let k := relIndex len b in
  let f := relIndex len e in
  firstn (Z.to_nat (f - k)) (skipn (Z.to_nat k) l).

(** [str.slice(b, e)] *)
Definition sliceStr (s : string) (b e : Z) : string :=
  let len := strlen s in
  let k := relIndex len b in
  let f := relIndex len e in
  substring (Z.to_nat k) (Z.to_nat (f - k)) s.

(** [str.slice(b)] *)
Definition sliceFrom (s : string) (b : Z) : string := sliceStr s b (strlen s).

(** [str.split(c)] for a one-character separator: never empty. *)
Fixpoint splitChar (c : ascii) (s : string) : list string :=
  match s with
  | EmptyString => [EmptyString]
  | String a r =>
      if Ascii.eqb a c then EmptyString :: splitChar c r
      else match splitChar c r with
           | h :: t => String a h :: t
           | [] => [String a EmptyString]
           end
  end.

(** [arr.join(sep)] *)
Definition join (sep : string) (l : list string) : string := String.concat sep l.

Fixpoint dropSpaces (s : string) : string :=
  match s with
  | String c r => if isSpace c then dropSpaces r else s
  | EmptyString => EmptyString
  end.

(** [str.split(/\s+/)]: cut at every maximal run of white space. *)
Fixpoint splitSpaces (s : string) : list string :=
  match s with
  | EmptyString => [EmptyString]
  | String a r =>
      if isSpace a then
        match r with
        | String b _ => if isSpace b then splitSpaces r
                        else EmptyString :: splitSpaces r
        | EmptyString => EmptyString :: splitSpaces r
        end
      else match splitSpaces r with
           | h :: t => String a h :: t
           | [] => [String a EmptyString]
           end
  end.

Definition revStr (s : string) : string :=
  string_of_list_ascii (rev (list_ascii_of_string s)).

(** [str.trim()] *)
Definition trim (s : string) : string :=
  revStr (dropSpaces (revStr (dropSpaces s))).

(** [String(n)] for an integer. *)
Definition numToString (z : Z) : string := NilZero.string_of_int (Z.to_int z).

Definition digitVal (c : ascii) : Z := Z.of_nat (nat_of_ascii c) - 48.

Fixpoint digitsAcc (acc : Z) (seen : bool) (s : string) : option Z :=
  match s with
  | String c r =>
      if isDigit c then digitsAcc (10 * acc + digitVal c) true r
      else if seen then Some acc else None
  | EmptyString => if seen then Some acc else None
  end.

(** [parseInt(s, 10)]; [None] is [NaN]. *)
Definition parseInt (s : string) : option Z :=
  match dropSpaces s with
  | String "-" r => option_map Z.opp (digitsAcc 0 false r)
  | String "+" r => digitsAcc 0 false r
  | t => digitsAcc 0 false t
  end.

(** Removal of every character satisfying [p]: [str.replace(/[..]/g, '')]. *)
Fixpoint removeChars (p : ascii -> bool) (s : string) : string :=
  match s with
  | EmptyString => EmptyString
  | String c r => if p c then removeChars p r else String c (removeChars p r)
  end.

(** Whether every character of [s] satisfies [p]. *)
Fixpoint everyChar (p : ascii -> bool) (s : string) : bool :=
  match s with
  | EmptyString => true
  | String c r => p c && everyChar p r
  end.

End Js.

(* ------------------------------------------------------------------ *)
(** * node:path (POSIX) and node:fs, as far as the code uses them *)
(* ------------------------------------------------------------------ *)

Module NodePath.
Import Js.

Definition isAbsolute (p : string) : bool :=
  match p with
  | String "/" _ => true
  | _ => false
  end.

(** The segment walk of [normalizeString]: [acc] holds the kept segments,
    last one first. *)
Fixpoint normSegs (allowAboveRoot : bool) (acc segs : list string) : list string :=
  match segs with
  | [] => rev acc
  | s :: rest =>
      if (s =? "")%string || (s =? ".")%string then normSegs allowAboveRoot acc rest
      else if (s =? "..")%string then
        match acc with
        | top :: acc' =>
            if (top =? "..")%string
            then normSegs allowAboveRoot
                   (if allowAboveRoot then ".." :: acc else acc) rest
            else normSegs allowAboveRoot acc' rest
        | [] => normSegs allowAboveRoot
                  (if allowAboveRoot then [".."] else []) rest
        end
      else normSegs allowAboveRoot (s :: acc) rest
  end.

Definition normalizeString (p : string) (allowAboveRoot : bool) : string :=
  join "/" (normSegs allowAboveRoot [] (splitChar "/" p)).

(** [path.normalize] *)
Definition normalize (p : string) : string :=
  if (p =? "")%string then "."
  else
    let abs := isAbsolute p in
    let trailing := endsWithChar p "/" in
    let q := normalizeString p (negb abs) in
    if (q =? "")%string then
      (if abs then "/" else if trailing then "./" else ".")
    else
      let q' := if trailing then q ++ "/" else q in
      if abs then "/" ++ q' else q'.

(** [path.join(...args)] *)
Definition join (args : list string) : string :=
  let parts := filter (fun a => negb (a =? "")%string) args in
  match parts with
  | [] => "."
  | _ => normalize (Js.join "/" parts)
  end.

(** The right-to-left scan of [path.resolve]: stops at the first absolute
    argument. *)
Fixpoint resolveScan (revArgs : list string) (acc : string) : string * bool :=
  match revArgs with
  | [] => (acc, false)
  | p :: rest =>
      if (p =? "")%string then resolveScan rest acc
      else if isAbsolute p then (p ++ "/" ++ acc, true)
      else resolveScan rest (p ++ "/" ++ acc)
  end.

(** [path.resolve(...args)] with [process.cwd() = cwd]. *)
Definition resolve (cwd : string) (args : list string) : string :=
  let '(raw, abs) := resolveScan (rev args ++ [cwd]) "" in
  let q := normalizeString raw (negb abs) in
  if abs then "/" ++ q
  else if (q =? "")%string then "." else q.

End NodePath.

Module Fs.
Import Js.

Inductive Node : Type :=
| File (content : string)
| Directory.

(** The tree, keyed by resolved absolute path. *)
Definition FileSystem : Type := string -> option Node.

Record Os : Type := mkOs { cwd : string; tree : FileSystem }.

(** What the operating system finds at [p]; a trailing slash only names a
    directory. *)
Definition stat (os : Os) (p : string) : option Node :=
  match tree os (NodePath.resolve (cwd os) [p]) with
  | Some (File c) => if endsWithChar p "/" then None else Some (File c)
  | r => r
  end.

(** [fs.existsSync(p)] *)
Definition existsSync (os : Os) (p : string) : bool :=
  match stat os p with
  | Some _ => true
  | None => false
  end.

(** [fs.readFileSync(p, 'utf-8')] *)
Definition readFileSync (os : Os) (p : string) : Result string :=
  match stat os p with
  | Some (File c) => inr c
  | Some Directory => inl (JsError "EISDIR: illegal operation on a directory, read")
  | None => inl (JsError ("ENOENT: no such file or directory, open '" ++ p ++ "'"))
  end.

End Fs.

(* ------------------------------------------------------------------ *)
(** * The two regular expressions of the citation parsers

    Both parsers (agent/verifier.ts and agent/loop.ts) use the same pair of
    expressions.  Each is written out as the deterministic scan that the
    backtracking matcher performs on it. *)
(* ------------------------------------------------------------------ *)

Module Regex.
Import Js.

(** Case-insensitive match of a lower-case ASCII literal at the head of [s];
    returns what follows. *)
Fixpoint eatCI (lit s : string) : option string :=
  match lit with
  | EmptyString => Some s
  | String l lit' =>
      match s with
      | String c r => if Ascii.eqb (lowerChar c) l then eatCI lit' r else None
      | EmptyString => None
      end
  end.

(** Exact match of a literal at the head of [s]. *)
Fixpoint eat (lit s : string) : option string :=
  match lit with
  | EmptyString => Some s
  | String l lit' =>
      match s with
      | String c r => if Ascii.eqb c l then eat lit' r else None
      | EmptyString => None
      end
  end.

(** [\s*\n] at the head of [s]: the greedy run of white space gives back
    characters until its last line feed; [best] is what follows the last
    line feed seen so far. *)
Fixpoint spacesThenLF (s : string) (best : option string) : option string :=
  match s with
  | String c r =>
      if isSpace c
      then spacesThenLF r (if Ascii.eqb c LF then Some r else best)
      else best
  | EmptyString => best
  end.

(** [([\s\S]*?)(?:\n##|$)]: the shortest text up to a line that starts a
    header, or up to the end. *)
Fixpoint lazyBody (s : string) : string :=
  if String.prefix (nl ++ "##") s then EmptyString
  else match s with
       | EmptyString => EmptyString
       | String c r => String c (lazyBody r)
       end.

(** One attempt of [/##\s*Sources\s*\n([\s\S]*?)(?:\n##|$)/i] at the head of
    [s]; the result is capture group 1. *)
Definition sectionAt (s : string) : option string :=
  match eat "##" s with
  | None => None
  | Some r1 =>
      match eatCI "sources" (dropSpaces r1) with
      | None => None
      | Some r2 =>
          match spacesThenLF r2 None with
          | None => None
          | Some body => Some (lazyBody body)
          end
      end
  end.

(** [str.match(/##\s*Sources\s*\n([\s\S]*?)(?:\n##|$)/i)]: the leftmost
    match. *)
Fixpoint sourcesSection (s : string) : option string :=
  match sectionAt s with
  | Some body => Some body
  | None =>
      match s with
      | EmptyString => None
      | String _ r => sourcesSection r
      end
  end.

(** The longest prefix of characters satisfying [p], and the rest. *)
Fixpoint span (p : ascii -> bool) (s : string) : string * string :=
  match s with
  | String c r =>
      if p c then let '(a, b) := span p r in (String c a, b)
      else (EmptyString, s)
  | EmptyString => (EmptyString, EmptyString)
  end.

Definition notBacktick (c : ascii) : bool := negb (Ascii.eqb c backtick).

(** A match of the citation pattern: the three capture groups. *)
Record Citation : Type := mkCitation
  { capPath : string; capStart : string; capEnd : string }.

(** One attempt of [/[-*]\s*`([^`]+)`\s*:\s*(\d+)\s*-\s*(\d+)/] at the head
    of [s]; returns the captures and the unmatched rest. *)
Definition citationAt (s : string) : option (Citation * string) :=
  match s with
  | String c r0 =>
      if Ascii.eqb c "-" || Ascii.eqb c "*" then
        match eat bt (dropSpaces r0) with
        | None => None
        | Some r1 =>
            let '(p, r2) := span notBacktick r1 in
            if (p =? "")%string then None else
            match eat bt r2 with
            | None => None
            | Some r3 =>
                match eat ":" (dropSpaces r3) with
                | None => None
                | Some r4 =>
                    let '(d1, r5) := span isDigit (dropSpaces r4) in
                    if (d1 =? "")%string then None else
                    match eat "-" (dropSpaces r5) with
                    | None => None
                    | Some r6 =>
                        let '(d2, r7) := span isDigit (dropSpaces r6) in
                        if (d2 =? "")%string then None
                        else Some (mkCitation p d1 d2, r7)
                    end
                end
            end
        end
      else None
  | EmptyString => None
  end.

(** The [while ((match = pattern.exec(text)) !== null)] loop of a global
    pattern: leftmost match from [lastIndex], which then moves to the end of
    the match.  [skip] counts the characters of the last match still to be
    passed over. *)
Fixpoint execAll (skip : nat) (s : string) : list Citation :=
  match s with
  | EmptyString => []
  | String _ r =>
      match skip with
      | S k => execAll k r
      | O =>
          match citationAt s with
          | Some (m, rest) =>
              m :: execAll (String.length r - String.length rest) r
          | None => execAll 0 r
          end
      end
  end.

Definition citations (s : string) : list Citation := execAll 0 s.

End Regex.

(* ------------------------------------------------------------------ *)
(** * agent/verifier.ts *)
(* ------------------------------------------------------------------ *)

Module Verifier.
Import Js.

(** [Source] of types.ts. *)
Record Source : Type := mkSource
  { path : string; startLine : Z; endLine : Z }.

(** [AgentConfig] of types.ts. *)
Record AgentConfig : Type := mkAgentConfig
  { maxSteps : Z; maxExcerptLines : Z; topK : Z; model : string;
    repoPath : string }.

Record VerificationResult : Type := mkVerification
  { valid : bool; errors : list string }.

(** The body of the [for (const source of sources)] loop: the error
    messages one source adds.  The [typeof ... !== 'number'] guard cannot
    fire on a typed [Source]. *)
Definition checkSource (os : Fs.Os) (config : AgentConfig) (source : Source)
  : list string :=
  if (path source =? "")%string then ["Source missing path"]
  else if startLine source <? 1 then
    ["Source " ++ path source ++ ": startLine must be >= 1"]
  else if endLine source <? startLine source then
    ["Source " ++ path source ++ ": endLine must be >= startLine"]
  else
    let fullPath := NodePath.join [repoPath config; path source] in
    let resolvedPath := NodePath.resolve (Fs.cwd os) [fullPath] in
    if negb (startsWith resolvedPath (NodePath.resolve (Fs.cwd os) [repoPath config]))
    then ["Source " ++ path source ++ ": path outside repository"]
    else if negb (Fs.existsSync os fullPath) then
      ["Source " ++ path source ++ ": file does not exist"]
    else
      match Fs.readFileSync os fullPath with
      | inr content =>
          let lineCount := Z.of_nat (List.length (splitChar LF content)) in
          (if lineCount <? startLine source
           then ["Source " ++ path source ++ ": startLine "
                   ++ numToString (startLine source)
                   ++ " exceeds file length " ++ numToString lineCount]
           else [])
          ++
          (if lineCount <? endLine source
           then ["Source " ++ path source ++ ": endLine "
                   ++ numToString (endLine source)
                   ++ " exceeds file length " ++ numToString lineCount]
           else [])
      | inl _ => ["Source " ++ path source ++ ": failed to read file"]
      end.

(** [verifySources] *)
Definition verifySources (os : Fs.Os) (sources : list Source)
    (config : AgentConfig) : VerificationResult :=
  match sources with
  | [] => mkVerification false
            ["No sources provided. Every answer MUST include at least one source with path and line range."]
  | _ =>
      let errs := flat_map (checkSource os config) sources in
      mkVerification (match errs with [] => true | _ => false end) errs
  end.

(** [formatSources] *)
Definition formatSources (sources : list Source) : string :=
  match sources with
  | [] => "No sources"
  | _ =>
      join nl
        (map (fun s => "- " ++ path s ++ ":" ++ numToString (startLine s)
                         ++ "-" ++ numToString (endLine s)) sources)
  end.

(** The body of the [exec] loop of [parseSourcesFromMarkdown]. *)
Definition sourceOfCitation (m : Regex.Citation) : list Source :=
  match parseInt (Regex.capStart m), parseInt (Regex.capEnd m) with
  | Some s, Some e => [mkSource (Regex.capPath m) s e]
  | _, _ => []
  end.

(** [parseSourcesFromMarkdown] *)
Definition parseSourcesFromMarkdown (answerMd : string) : list Source :=
  match Regex.sourcesSection answerMd with
  | None => []
  | Some sourcesSection => flat_map sourceOfCitation (Regex.citations sourcesSection)
  end.

(** [verifyMarkdownSources] *)
Definition verifyMarkdownSources (os : Fs.Os) (answerMd repoPath : string)
  : VerificationResult :=
  let sources := parseSourcesFromMarkdown answerMd in
  match sources with
  | [] => mkVerification false
            ["No valid sources found in answer. Format: - `path/to/file`:startLine-endLine"]
  | _ => verifySources os sources (mkAgentConfig 8 120 10 "" repoPath)
  end.

(** The shape of a citation: [1 <= startLine <= endLine]. *)
Definition wellFormed (c : Source) : Prop :=
  1 <= startLine c /\ startLine c <= endLine c.

End Verifier.

(* ------------------------------------------------------------------ *)
(** * indexer/index.ts: search over the full-text index *)
(* ------------------------------------------------------------------ *)

Module Indexer.
Import Js.

(** A row of the [SELECT f.path, f.content, bm25(files_fts) as score] query. *)
Module Row.
Record t : Type := mk { path : string; content : string; score : Q }.
End Row.

(** The SQLite handle: [ftsAll q k] is what
    [... WHERE files_fts MATCH q ORDER BY score LIMIT k] returns. *)
Record Database : Type := mkDatabase
  { ftsAll : string -> Z -> Result (list Row.t) }.

Record t : Type := mkIndexer { repoPath : string; db : Database }.

(** [SearchResult] of types.ts. *)
Record SearchResult : Type := mkSearchResult
  { path : string; score : Q; snippet : string; startLine : Z; endLine : Z }.

Definition isQuote (c : ascii) : bool := Ascii.eqb c "'" || Ascii.eqb c (chr 34).

(** The FTS5 query string built from the user's query. *)
Definition sanitizedQuery (query : string) : string :=
  join " OR "
    (map (fun term => dquote ++ term ++ dquote)
       (filter (fun term => 0 <? strlen term)
          (splitSpaces (removeChars isQuote query)))).

(** The inner loop of [findBestMatchLine]: how many entries of [queryTerms]
    the lower-cased line includes. *)
Definition lineScore (queryTerms : list string) (line : string) : Z :=
  fold_left
    (fun score term => if includes (toLowerCase line) term then score + 1 else score)
    queryTerms 0.

(** The outer loop of [findBestMatchLine], from index [i]. *)
Fixpoint bestFrom (queryTerms : list string) (lines : list string)
    (i bestLine bestScore : Z) : Z :=
  match lines with
  | [] => bestLine
  | line :: rest =>
      let score := lineScore queryTerms line in
      if bestScore <? score
      then bestFrom queryTerms rest (i + 1) (i + 1) score
      else bestFrom queryTerms rest (i + 1) bestLine bestScore
  end.

(** [findBestMatchLine] *)
Definition findBestMatchLine (lines : list string) (query : string) : Z :=
  bestFrom (splitSpaces (toLowerCase query)) lines 0 1 0.

(** The [results.map] callback of [search]. *)
Definition rowToResult (query : string) (row : Row.t) : SearchResult :=
  let lines := splitChar LF (Row.content row) in
  let matchIndex := findBestMatchLine lines query in
  let startLine := Z.max 1 (matchIndex - 5) in
  let endLine := Z.min (Z.of_nat (List.length lines)) (matchIndex + 15) in
  mkSearchResult (Row.path row) (Qabs (Row.score row))
    (join nl (slice lines (startLine - 1) endLine)) startLine endLine.

(** [Indexer.search] *)
Definition search (ix : t) (query : string) (topK : Z) : Result (list SearchResult) :=
  let q := sanitizedQuery query in
  if (q =? "")%string then inr []
  else
    match ftsAll (db ix) q topK with
    | inl e => inl e
    | inr results => inr (map (rowToResult query) results)
    end.




End Indexer.

(* ------------------------------------------------------------------ *)
(** * JSON values and the zod schemas of tools/schemas.ts *)
(* ------------------------------------------------------------------ *)

Module Json.

Inductive t : Type :=
| JNull
| JBool (b : bool)
| JNum (q : Q)
| JStr (s : string)
| JArr (items : list t)
| JObj (fields : list (string * t)).

Fixpoint lookup (key : string) (fields : list (string * t)) : option t :=
  match fields with
  | [] => None
  | (k, v) :: rest => if (k =? key)%string then Some v else lookup key rest
  end.

Definition isInteger (q : Q) : bool := (Zpos (Qden (Qred q)) =? 1).

Definition toZ (q : Q) : Z := Qfloor q.

Definition ofZ (z : Z) : t := JNum (inject_Z z).

End Json.

Module Zod.
Import Js.

(** The schema combinators that tools/schemas.ts uses. *)
Inductive Schema : Type :=
| ZString (minLen : Z) (desc : option string)
| ZNumber (isInt : bool) (min max : option Z) (desc : option string)
| ZDefault (inner : Schema) (dflt : Json.t) (desc : option string)
| ZObject (shape : list (string * Schema)).

(** An entry of [validation.error.errors]. *)
Record Issue : Type := mkIssue { issuePath : list string; message : string }.

Definition ParseResult : Type := (list Issue + Json.t)%type.

Definition parsedType (j : Json.t) : string :=
  match j with
  | Json.JNull => "null"
  | Json.JBool _ => "boolean"
  | Json.JNum _ => "number"
  | Json.JStr _ => "string"
  | Json.JArr _ => "array"
  | Json.JObj _ => "object"
  end.

Definition wrongType (path : list string) (expected : string) (input : option Json.t)
  : list Issue :=
  match input with
  | None => [mkIssue path "Required"]
  | Some j => [mkIssue path ("Expected " ++ expected ++ ", received " ++ parsedType j)]
  end.

Definition numberIssues (path : list string) (isInt : bool) (min max : option Z) (q : Q)
  : list Issue :=
  (if isInt && negb (Json.isInteger q)
   then [mkIssue path "Expected integer, received float"] else [])
  ++ match min with
     | Some lo => if Qle_bool (inject_Z lo) q then []
                  else [mkIssue path ("Number must be greater than or equal to " ++ numToString lo)]
     | None => []
     end
  ++ match max with
     | Some hi => if Qle_bool q (inject_Z hi) then []
                  else [mkIssue path ("Number must be less than or equal to " ++ numToString hi)]
     | None => []
     end.

(** The parse of one value: the issues, and the output value when there is
    one.  An object keeps the keys of its shape only. *)
Fixpoint parse (sch : Schema) (path : list string) (input : option Json.t)
  : list Issue * option Json.t :=
  match sch with
  | ZString minLen _ =>
      match input with
      | Some (Json.JStr s) =>
          if strlen s <? minLen
          then ([mkIssue path ("String must contain at least " ++ numToString minLen
                                 ++ " character(s)")], None)
          else ([], Some (Json.JStr s))
      | _ => (wrongType path "string" input, None)
      end
  | ZNumber isInt min max _ =>
      match input with
      | Some (Json.JNum q) =>
          match numberIssues path isInt min max q with
          | [] => ([], Some (Json.JNum q))
          | issues => (issues, None)
          end
      | _ => (wrongType path "number" input, None)
      end
  | ZDefault inner dflt _ =>
      match input with
      | None => parse inner path (Some dflt)
      | Some _ => parse inner path input
      end
  | ZObject shape =>
      match input with
      | Some (Json.JObj fields) =>
          let walk :=
            fix walk (sh : list (string * Schema)) : list Issue * list (string * Json.t) :=
              match sh with
              | [] => ([], [])
              | (key, s) :: rest =>
                  let '(is1, v) := parse s (path ++ [key])%list (Json.lookup key fields) in
                  let '(is2, out) := walk rest in
                  ((is1 ++ is2)%list,
                   match v with Some x => (key, x) :: out | None => out end)
              end in
          let '(issues, out) := walk shape in
          (issues, match issues with [] => Some (Json.JObj out) | _ => None end)
      | _ => (wrongType path "object" input, None)
      end
  end.

(** [schema.safeParse(value)]: [inl] is [{success: false, error}], [inr] is
    [{success: true, data}]. *)
Definition safeParseSchema (sch : Schema) (value : Json.t) : ParseResult :=
  match parse sch [] (Some value) with
  | ([], Some data) => inr data
  | (issues, _) => inl issues
  end.

(** [JsonSchemaProperty] and [JsonSchema] of llm/types.ts. *)
Inductive JsonSchemaProperty : Type :=
| JsProp (type : string) (description : option string)
| JsObjectProp (properties : option (list (string * JsonSchemaProperty)))
    (required : option (list string)) (description : option string).

Module JsonSchema.
Record t : Type := mk
  { type : string;
    properties : option (list (string * JsonSchemaProperty));
    required : option (list string) }.
End JsonSchema.

Definition description (sch : Schema) : option string :=
  match sch with
  | ZString _ d | ZNumber _ _ _ d | ZDefault _ _ d => d
  | ZObject _ => None
  end.

Definition isDefault (sch : Schema) : bool :=
  match sch with ZDefault _ _ _ => true | _ => false end.

Definition requiredKeys (shape : list (string * Schema)) : option (list string) :=
  match map fst (filter (fun kv => negb (isDefault (snd kv))) shape) with
  | [] => None
  | ks => Some ks
  end.

(** [zodFieldToJsonSchema], with the description of the outer field. *)
Fixpoint fieldToJsonSchema (desc : option string) (field : Schema) : JsonSchemaProperty :=
  match field with
  | ZDefault inner _ _ => fieldToJsonSchema desc inner
  | ZString _ _ => JsProp "string" desc
  | ZNumber _ _ _ _ => JsProp "number" desc
  | ZObject shape =>
      JsObjectProp
        (Some (map (fun kv => (fst kv, fieldToJsonSchema (description (snd kv)) (snd kv))) shape))
        (requiredKeys shape) desc
  end.

(** [zodToJsonSchema] *)
Definition zodToJsonSchema (sch : Schema) : JsonSchema.t :=
  match sch with
  | ZObject shape =>
      JsonSchema.mk "object"
        (Some (map (fun kv => (fst kv, fieldToJsonSchema (description (snd kv)) (snd kv))) shape))
        (requiredKeys shape)
  | _ => JsonSchema.mk "object" None None
  end.

(** [z.ZodTypeAny] as the registry uses it: a validator and its JSON
    schema. *)
Record ZodTypeAny : Type := mkZodTypeAny
  { safeParse : Json.t -> ParseResult; jsonSchema : JsonSchema.t }.

Definition ofSchema (sch : Schema) : ZodTypeAny :=
  mkZodTypeAny (safeParseSchema sch) (zodToJsonSchema sch).

Definition SearchChunksArgsSchema : Schema :=
  ZObject
    [("query", ZString 1 (Some "Search query to find relevant code chunks"));
     ("topK", ZDefault (ZNumber true (Some 1) (Some 50) None) (Json.ofZ 10)
                (Some "Number of results to return"))].

Definition GetExcerptArgsSchema : Schema :=
  ZObject
    [("path", ZString 1 (Some "File path relative to repository root"));
     ("startLine", ZNumber true (Some 1) None (Some "Start line number (1-indexed, inclusive)"));
     ("endLine", ZNumber true (Some 1) None (Some "End line number (1-indexed, inclusive)"))].

Definition GraphNeighborsArgsSchema : Schema :=
  ZObject
    [("nodeId", ZString 1 (Some "Node ID to find neighbors for (file path or symbol ID)"));
     ("depth", ZDefault (ZNumber true (Some 1) (Some 5) None) (Json.ofZ 1)
                 (Some "Depth of neighbor traversal"))].

Definition ListFilesArgsSchema : Schema :=
  ZObject
    [("glob", ZString 1 (Some ("Glob pattern to match files (e.g., " ++ dquote ++ "**/*.ts" ++ dquote ++ ")")));
     ("limit", ZDefault (ZNumber true (Some 1) (Some 1000) None) (Json.ofZ 100)
                 (Some "Maximum number of files to return"))].

Definition GetRepoSummaryArgsSchema : Schema := ZObject [].

End Zod.

(* ------------------------------------------------------------------ *)
(** * tools/types.ts, tools/implementations.ts, tools/registry.ts *)
(* ------------------------------------------------------------------ *)

Module Tools.
Import Js.

Record ExcerptResult : Type := mkExcerptResult
  { path : string; startLine : Z; endLine : Z; content : string; totalLines : Z }.

(** The [data] field of a [ToolResult]. *)
Inductive ToolData : Type :=
| DNull
| DExcerpt (e : ExcerptResult)
| DChunks (l : list Indexer.SearchResult)
| DJson (j : Json.t).

Record ToolResult : Type := mkToolResult
  { success : bool; data : ToolData; outputSummary : string; error : option string }.

Record ToolContext : Type := mkToolContext
  { repoPath : string; indexer : option Indexer.t }.

Module GetExcerptArgs.
Record t : Type := mk { path : string; startLine : Z; endLine : Z }.
End GetExcerptArgs.

Module SearchChunksArgs.
Record t : Type := mk { query : string; topK : option Z }.
End SearchChunksArgs.

(** [arr.map((x, i) => f(i, x))], counting from [i]. *)
Fixpoint mapi {A B : Type} (f : Z -> A -> B) (i : Z) (l : list A) : list B :=
  match l with
  | [] => []
  | x :: r => f i x :: mapi f (i + 1) r
  end.

Definition pad3 (n : Z) : string :=
  (if n <? 10 then "00" else if n <? 100 then "0" else "") ++ numToString n.

(** [x.toFixed(3)] *)
Definition toFixed3 (x : Q) : string :=
  let n := Qfloor (Qabs x * inject_Z 1000 + (1 # 2)) in
  (if Qle_bool 0 x then "" else "-")
  ++ numToString (n / 1000) ++ "." ++ pad3 (n mod 1000).

(** [searchChunks] *)
Definition searchChunks (args : SearchChunksArgs.t) (context : ToolContext) : ToolResult :=
  let query := SearchChunksArgs.query args in
  let topK := match SearchChunksArgs.topK args with Some k => k | None => 10 end in
  match indexer context with
  | None =>
      mkToolResult true (DChunks [])
        "No indexer available. Please run 'repo-wiki index' first." None
  | Some ix =>
      match Indexer.search ix query topK with
      | inr results =>
          mkToolResult true (DChunks results)
            (if 0 <? Z.of_nat (List.length results)
             then "Found " ++ numToString (Z.of_nat (List.length results))
                    ++ " chunks matching " ++ dquote ++ query ++ dquote ++ ":" ++ nl
                    ++ join nl
                         (mapi (fun i r =>
                                  "[" ++ numToString (i + 1) ++ "] " ++ Indexer.path r ++ ":"
                                    ++ numToString (Indexer.startLine r) ++ "-"
                                    ++ numToString (Indexer.endLine r)
                                    ++ " (score: " ++ toFixed3 (Indexer.score r) ++ ")")
                               0 results)
             else "No chunks found for query: " ++ dquote ++ query ++ dquote)
            None
      | inl e =>
          mkToolResult false (DChunks []) ("Search failed: " ++ errorText e)
            (Some (errorText e))
      end
  end.

(** [getExcerpt] *)
Definition getExcerpt (os : Fs.Os) (args : GetExcerptArgs.t) (context : ToolContext)
  : ToolResult :=
  let filePath := GetExcerptArgs.path args in
  let startLine := GetExcerptArgs.startLine args in
  let endLine := GetExcerptArgs.endLine args in
  let fullPath := NodePath.join [repoPath context; filePath] in
  let resolvedPath := NodePath.resolve (Fs.cwd os) [fullPath] in
  if negb (startsWith resolvedPath (NodePath.resolve (Fs.cwd os) [repoPath context])) then
    mkToolResult false (DExcerpt (mkExcerptResult filePath startLine endLine "" 0))
      "Access denied: path outside repository" (Some "Path outside repository")
  else if negb (Fs.existsSync os fullPath) then
    mkToolResult false (DExcerpt (mkExcerptResult filePath startLine endLine "" 0))
      ("File not found: " ++ filePath) (Some "File not found")
  else
    match Fs.readFileSync os fullPath with
    | inr content =>
        let lines := splitChar LF content in
        let totalLines := Z.of_nat (List.length lines) in
        let safeStart := Z.max 1 (Z.min startLine totalLines) in
        let safeEnd := Z.max safeStart (Z.min endLine totalLines) in
        let excerpt := slice lines (safeStart - 1) safeEnd in
        let numberedContent :=
          join nl (mapi (fun i line => numToString (safeStart + i) ++ ": " ++ line) 0 excerpt) in
        mkToolResult true
          (DExcerpt (mkExcerptResult filePath safeStart safeEnd numberedContent totalLines))
          ("File: " ++ filePath ++ " (lines " ++ numToString safeStart ++ "-"
             ++ numToString safeEnd ++ " of " ++ numToString totalLines ++ ")"
             ++ nl ++ nl ++ numberedContent)
          None
    | inl e =>
        mkToolResult false (DExcerpt (mkExcerptResult filePath startLine endLine "" 0))
          ("Failed to read excerpt: " ++ errorText e) (Some (errorText e))
    end.

(** A tool handler: [(args: unknown, context: ToolContext) => Promise<ToolResult>];
    [inl] is a rejected promise. *)
Definition Handler : Type := Json.t -> ToolContext -> Result ToolResult.

(** What the run time and the machine provide.  The handlers of
    [graph_neighbors], [list_files] and [get_repo_summary] walk the directory
    tree and are taken as given. *)
Record World : Type := mkWorld
  { os : Fs.Os;
    jsonParse : string -> Result Json.t;
    database : Indexer.Database;
    graphNeighbors : Handler;
    listFiles : Handler;
    getRepoSummary : Handler }.

(** The typed view of validated arguments ([validation.data]). *)
Definition asGetExcerptArgs (j : Json.t) : option GetExcerptArgs.t :=
  match j with
  | Json.JObj f =>
      match Json.lookup "path" f, Json.lookup "startLine" f, Json.lookup "endLine" f with
      | Some (Json.JStr p), Some (Json.JNum a), Some (Json.JNum b) =>
          Some (GetExcerptArgs.mk p (Json.toZ a) (Json.toZ b))
      | _, _, _ => None
      end
  | _ => None
  end.

Definition asSearchChunksArgs (j : Json.t) : option SearchChunksArgs.t :=
  match j with
  | Json.JObj f =>
      match Json.lookup "query" f, Json.lookup "topK" f with
      | Some (Json.JStr q), Some (Json.JNum k) =>
          Some (SearchChunksArgs.mk q (Some (Json.toZ k)))
      | Some (Json.JStr q), None => Some (SearchChunksArgs.mk q None)
      | _, _ => None
      end
  | _ => None
  end.

Definition illTyped : JsExn := JsError "TypeError: arguments are not of the declared type".

Definition getExcerptHandler (w : World) : Handler :=
  fun args context =>
    match asGetExcerptArgs args with
    | Some a => inr (getExcerpt (os w) a context)
    | None => inl illTyped
    end.

Definition searchChunksHandler : Handler :=
  fun args context =>
    match asSearchChunksArgs args with
    | Some a => inr (searchChunks a context)
    | None => inl illTyped
    end.

Record ToolDefinition : Type := mkToolDefinition
  { name : string; description : string; schema : Zod.ZodTypeAny; handler : Handler }.

Definition TOOL_DEFINITIONS (w : World) : list ToolDefinition :=
  [ mkToolDefinition "search_chunks"
      "Search indexed code chunks for relevant content. Returns matching code snippets with file paths and line numbers."
      (Zod.ofSchema Zod.SearchChunksArgsSchema) searchChunksHandler;
    mkToolDefinition "get_excerpt"
      "Get a specific excerpt from a file by line range. Returns the content with line numbers."
      (Zod.ofSchema Zod.GetExcerptArgsSchema) (getExcerptHandler w);
    mkToolDefinition "graph_neighbors"
      "Find related code elements (imports, exports, dependencies) for a given file or symbol."
      (Zod.ofSchema Zod.GraphNeighborsArgsSchema) (graphNeighbors w);
    mkToolDefinition "list_files"
      ("List files in the repository matching a glob pattern (e.g., " ++ dquote ++ "**/*.ts"
         ++ dquote ++ ", " ++ dquote ++ "src/**/*.py" ++ dquote ++ ").")
      (Zod.ofSchema Zod.ListFilesArgsSchema) (listFiles w);
    mkToolDefinition "get_repo_summary"
      "Get an overview of the repository including file count, languages, and structure."
      (Zod.ofSchema Zod.GetRepoSummaryArgsSchema) (getRepoSummary w) ].

(** [ToolSchema] of llm/types.ts. *)
Module ToolSchema.
Record t : Type := mk
  { name : string; description : string; parameters : Zod.JsonSchema.t }.
End ToolSchema.

(** [Map.prototype.set]: a known key keeps its place. *)
Fixpoint mapSet {V : Type} (k : string) (v : V) (m : list (string * V)) : list (string * V) :=
  match m with
  | [] => [(k, v)]
  | (k', v') :: r => if (k' =? k)%string then (k, v) :: r else (k', v') :: mapSet k v r
  end.

(** [Map.prototype.get] *)
Fixpoint mapGet {V : Type} (k : string) (m : list (string * V)) : option V :=
  match m with
  | [] => None
  | (k', v) :: r => if (k' =? k)%string then Some v else mapGet k r
  end.

(** The [ToolRegistry] class: its two private fields. *)
Record ToolRegistry : Type := mkToolRegistry
  { tools : list (string * ToolDefinition); context : ToolContext }.

(** [new ToolRegistry(context)] *)
Definition newToolRegistry (w : World) (ctx : ToolContext) : ToolRegistry :=
  mkToolRegistry
    (fold_left (fun m tool => mapSet (name tool) tool m) (TOOL_DEFINITIONS w) [])
    ctx.

(** [registerTool] *)
Definition registerTool (reg : ToolRegistry) (n d : string) (sch : Zod.ZodTypeAny)
    (h : Handler) : ToolRegistry :=
  mkToolRegistry (mapSet n (mkToolDefinition n d sch h) (tools reg)) (context reg).

(** [getToolNames] *)
Definition getToolNames (reg : ToolRegistry) : list string := map fst (tools reg).

(** [hasTool] *)
Definition hasTool (reg : ToolRegistry) (n : string) : bool :=
  match mapGet n (tools reg) with Some _ => true | None => false end.

(** [getToolSchemas] *)
Definition getToolSchemas (reg : ToolRegistry) : list ToolSchema.t :=
  map (fun kv => ToolSchema.mk (name (snd kv)) (description (snd kv))
                   (Zod.jsonSchema (schema (snd kv)))) (tools reg).

(** [createToolRegistry] *)
Definition createToolRegistry (w : World) (repoPath : string) (ix : option Indexer.t)
  : ToolRegistry :=
  newToolRegistry w (mkToolContext repoPath ix).

(** The argument payload of [executeToolCall]: [string | Record<string, unknown>]. *)
Inductive ArgPayload : Type :=
| ArgString (s : string)
| ArgObject (o : Json.t).

Definition issueText (e : Zod.Issue) : string :=
  join "." (Zod.issuePath e) ++ ": " ++ Zod.message e.

(** [typeof argsJson === 'string' ? JSON.parse(argsJson) : argsJson] *)
Definition parseArgs (w : World) (argsJson : ArgPayload) : Result Json.t :=
  match argsJson with
  | ArgString s => jsonParse w s
  | ArgObject o => inr o
  end.

(** [ToolRegistry.executeToolCall]; [inl] would be a rejected promise. *)
Definition executeToolCall (w : World) (reg : ToolRegistry) (n : string)
    (argsJson : ArgPayload) : Result ToolResult :=
  match mapGet n (tools reg) with
  | None =>
      inr (mkToolResult false DNull
             ("Unknown tool: " ++ dquote ++ n ++ dquote ++ ". Available tools: "
                ++ join ", " (getToolNames reg))
             (Some ("Unknown tool: " ++ n)))
  | Some tool =>
      match parseArgs w argsJson with
      | inl e =>
          inr (mkToolResult false DNull ("Failed to parse arguments: " ++ errorText e)
                 (Some "Invalid JSON arguments"))
      | inr args =>
          match Zod.safeParse (schema tool) args with
          | inl issues =>
              let errors := join "; " (map issueText issues) in
              inr (mkToolResult false DNull
                     ("Invalid arguments for " ++ dquote ++ n ++ dquote ++ ": " ++ errors)
                     (Some ("Validation failed: " ++ errors)))
          | inr validated =>
              match handler tool validated (context reg) with
              | inr r => inr r
              | inl e =>
                  inr (mkToolResult false DNull ("Tool execution failed: " ++ errorText e)
                         (Some (errorText e)))
              end
          end
      end
  end.

End Tools.

(* ------------------------------------------------------------------ *)
(** * agent/prompt.ts *)
(* ------------------------------------------------------------------ *)

Module Prompt.
Import Js.

Record PromptConfig : Type := mkPromptConfig
  { maxSteps : Z; maxExcerptLines : Z; toolDescriptions : string }.

(** [generateSystemPrompt] *)
Definition generateSystemPrompt (config : PromptConfig) : string :=
    "You are RepoWiki, an AI assistant that answers questions about code repositories.
You MUST provide evidence-based answers by examining actual code using the available tools.

## Available Tools
" ++
    toolDescriptions config ++
    "

## Core Rules

1. **ALWAYS use tools first** - Never answer from memory. Search and read code to gather evidence.
2. **Evidence-based answers** - Every claim must be backed by specific code you examined.
3. **Maximum " ++
    numToString (maxSteps config) ++
    " steps** - Plan efficiently. Each tool call is one step.
4. **Excerpt limit** - Each file excerpt is limited to " ++
    numToString (maxExcerptLines config) ++
    " lines.

## Response Format

You MUST respond in exactly ONE of these two formats:

### Format A: Tool Call (to gather more information)
Simply make tool calls using the function calling interface. The tool results will be provided back to you.

### Format B: Final Answer (when you have enough evidence)
When ready to answer, respond with EXACTLY this format:

```
DONE

<your answer in markdown>

## Sources
- `path/to/file.ts`:10-25
- `path/to/another.ts`:100-150
```

## Sources Section Requirements (CRITICAL)

Your final answer MUST include a " ++
    dquote ++
    "## Sources" ++
    dquote ++
    " section with:
- At least ONE source
- Each source in format: `- \`file/path\`:startLine-endLine`
- Sources must reference files and lines you actually examined
- WITHOUT valid sources, your answer will be REJECTED and you must try again

## Workflow

1. Understand the question
2. Use `search_chunks` to find relevant code
3. Use `get_excerpt` to read specific sections
4. Use `list_files` or `graph_neighbors` if needed
5. When you have enough evidence, respond with DONE + answer + Sources

## Example Final Answer

```
DONE

The `Agent` class implements the main orchestration loop. It:

1. Initializes the LLM client and indexer in the constructor
2. The `run()` method executes the agent loop:
   - Sends messages to LLM
   - Processes tool calls
   - Validates sources with verifier

The maximum steps is configurable via `AgentConfig.maxSteps`.

## Sources
- `packages/core/src/agent/index.ts`:15-45
- `packages/core/src/types.ts`:10-25
```

Remember: No sources = rejected answer. Always cite your evidence!".

(** [generateRepairPrompt] *)
Definition generateRepairPrompt (errors : list string) : string :=
    "Your answer was REJECTED because it lacks proper source citations.

Errors:
" ++
    join nl (map (fun e => "- " ++ e) errors) ++
    "

You MUST:
1. Use tools to find and examine relevant code
2. Provide a new answer with a proper " ++
    dquote ++
    "## Sources" ++
    dquote ++
    " section
3. Each source must be in format: `- \`file/path\`:startLine-endLine`

Use search_chunks or get_excerpt to gather evidence, then provide your answer with DONE.".

(** [generateForcedTerminationPrompt] *)
Definition generateForcedTerminationPrompt (stepCount : Z) (gatheredEvidence : list string)
  : string :=
    "Maximum steps (" ++
    numToString stepCount ++
    ") reached. You must provide your best answer NOW with the evidence gathered.

Evidence gathered so far:
" ++
    (match gatheredEvidence with [] => "(No evidence gathered)" | _ => join nl gatheredEvidence end) ++
    "

Respond with DONE + your best answer based on available evidence.
If you have any sources from your examination, include them in the ## Sources section.
If you have no sources, explain that the question could not be fully answered due to step limit.".

(** [formatToolDescriptions] *)
Definition formatToolDescriptions (tools : list (string * string)) : string :=
  join nl (map (fun t => "- **" ++ fst t ++ "**: " ++ snd t) tools).

End Prompt.

(* ------------------------------------------------------------------ *)
(** * agent/loop-types.ts and agent/loop.ts *)
(* ------------------------------------------------------------------ *)

Module Loop.
Import Js.

(** [ToolCallResult] of llm/types.ts. *)
Module ToolCallResult.
Record t : Type := mk { id : string; name : string; argumentsJson : string }.
End ToolCallResult.

Inductive Role : Type := system | user | assistant | tool.

Module ContextMessage.
Record t : Type := mk
  { role : Role; content : string; toolCallId : option string;
    toolCalls : option (list ToolCallResult.t) }.
End ContextMessage.

(** [ChatRequest]: the fields the loop sets. *)
Module ChatRequest.
Record t : Type := mk
  { messages : list ContextMessage.t;
    tools : option (list Tools.ToolSchema.t);
    toolChoice : option string }.
End ChatRequest.

(** [ChatResponse]: the fields the loop reads. *)
Module ChatResponse.
Record t : Type := mk
  { assistantText : option string; toolCalls : option (list ToolCallResult.t) }.
End ChatResponse.

(** [LlmProvider]: [chat] may answer differently on every call, so it
    threads a state of its own; [inl] is a rejected promise. *)
Record LlmProvider (S : Type) : Type := mkProvider
  { chat : S -> ChatRequest.t -> Result ChatResponse.t * S }.
Arguments chat {S} _ _ _.
Arguments mkProvider {S} _.

Module StepLog.
Record t : Type := mk
  { stepNo : Z;
    toolName : option string;
    toolInput : option string;
    toolOutputSummary : option string;
    modelMessageSummary : string;
    isDone : bool;
    verifierPassed : option bool;
    verifierErrors : option (list string) }.
End StepLog.

Module AgentLoopResult.
Record t : Type := mk
  { answerMd : string;
    steps : list StepLog.t;
    sources : list Verifier.Source;
    verified : bool;
    error : option string }.
End AgentLoopResult.

(** The [type] of a [ParsedLLMResponse]. *)
Module ResponseType.
Inductive t : Type := tool_calls | done | error.
End ResponseType.

Module ParsedLLMResponse.
Record t : Type := mk
  { type : ResponseType.t;
    toolCalls : option (list ToolCallResult.t);
    answerMd : option string;
    rawContent : option string;
    error : option string }.
End ParsedLLMResponse.

Module SourceVerificationResult.
Record t : Type := mk
  { valid : bool; sources : list Verifier.Source; errors : list string }.
End SourceVerificationResult.

Module AgentLoopConfig.
Record t (S : Type) : Type := mk
  { repoRoot : string;
    dbPath : option string;
    question : string;
    llmProvider : LlmProvider S;
    maxSteps : option Z;
    maxExcerptLines : option Z;
    maxToolOutputChars : option Z;
    verbose : option bool }.
Arguments repoRoot {S} _.
Arguments dbPath {S} _.
Arguments question {S} _.
Arguments llmProvider {S} _.
Arguments maxSteps {S} _.
Arguments maxExcerptLines {S} _.
Arguments maxToolOutputChars {S} _.
Arguments verbose {S} _.
Arguments mk {S} _ _ _ _ _ _ _ _.
End AgentLoopConfig.

Module DEFAULT_AGENT_LOOP_CONFIG.
Definition maxSteps : Z := 8.
Definition maxExcerptLines : Z := 120.
Definition maxToolOutputChars : Z := 8000.
Definition verbose : bool := false.
End DEFAULT_AGENT_LOOP_CONFIG.

(** [a ?? b] *)
Definition orDefault {A : Type} (a : option A) (b : A) : A :=
  match a with Some x => x | None => b end.

(** A string in a condition: empty and [undefined] are false. *)
Definition truthy (s : option string) : bool :=
  match s with
  | Some (String _ _) => true
  | _ => false
  end.

(** [content.match(re)] for [re] = DONE, white space, a line feed and the
    rest of the text, anchored at the start and case-insensitive: the rest. *)
Definition doneMatch (content : string) : option string :=
  match Regex.eatCI "done" content with
  | Some r => Regex.spacesThenLF r None
  | None => None
  end.

Definition neitherMessage : string :=
  "LLM response was neither a tool call nor a valid DONE answer".

(** [parseResponse] *)
Definition parseResponse (content : option string)
    (toolCalls : option (list ToolCallResult.t)) : ParsedLLMResponse.t :=
  match toolCalls with
  | Some (c :: l) => ParsedLLMResponse.mk ResponseType.tool_calls (Some (c :: l)) None content None
  | _ =>
      match content with
      | Some (String a r) =>
          let text := String a r in
          match doneMatch text with
          | Some body => ParsedLLMResponse.mk ResponseType.done None (Some (trim body)) content None
          | None =>
              if includes text "## Sources" && includes text bt
              then ParsedLLMResponse.mk ResponseType.done None (Some text) content None
              else ParsedLLMResponse.mk ResponseType.error None None content (Some neitherMessage)
          end
      | _ => ParsedLLMResponse.mk ResponseType.error None None content (Some neitherMessage)
      end
  end.

(** The body of the [exec] loop of [verifySourcesInAnswer] on one match:
    the error or the source it adds. *)
Definition checkCitation (m : Regex.Citation) : list string * list Verifier.Source :=
  let p := Regex.capPath m in
  if (p =? "")%string || (Regex.capStart m =? "")%string || (Regex.capEnd m =? "")%string
  then ([], [])
  else
    match parseInt (Regex.capStart m), parseInt (Regex.capEnd m) with
    | Some startLine, Some endLine =>
        if (startLine <? 1) || (endLine <? startLine)
        then (["Invalid line range for " ++ p ++ ": " ++ numToString startLine ++ "-"
                 ++ numToString endLine], [])
        else ([], [Verifier.mkSource p startLine endLine])
    | _, _ => (["Invalid line numbers for " ++ p], [])
    end.

(** [verifySourcesInAnswer]; [repoRoot] is not used by the body. *)
Definition verifySourcesInAnswer (answerMd repoRoot : string) : SourceVerificationResult.t :=
  match Regex.sourcesSection answerMd with
  | None =>
      SourceVerificationResult.mk false []
        ["Missing " ++ dquote ++ "## Sources" ++ dquote ++ " section in answer"]
  | Some sourcesSection =>
      let found := Regex.citations sourcesSection in
      let checked := map checkCitation found in
      let errs := flat_map fst checked in
      let srcs := flat_map snd checked in
      let errs' :=
        match found with
        | [] => (errs ++ ["No valid sources found. Format must be: - `path/to/file`:startLine-endLine"])%list
        | _ => errs
        end in
      SourceVerificationResult.mk
        (match errs' with [] => 0 <? Z.of_nat (List.length srcs) | _ => false end)
        srcs errs'
  end.

(** [truncateOutput] *)
Definition truncateOutput (output : string) (maxChars : Z) : string :=
  if strlen output <=? maxChars then output
  else
    let halfLimit := maxChars / 2 - 50 in
    let head := sliceStr output 0 halfLimit in
    let tail := sliceFrom output (- halfLimit) in
    head ++ nl ++ nl ++ "... [" ++ numToString (strlen output - maxChars)
      ++ " characters truncated] ..." ++ nl ++ nl ++ tail.

(** What the run does to the outside, in order: every call of the provider
    and every call of a tool.  (Not a variable of the source: the record of
    its effects.) *)
Inductive Event : Type :=
| LoopChat (step : Z) (request : ChatRequest.t)
| ToolExec (step : Z) (call : ToolCallResult.t)
| ForcedChat (request : ChatRequest.t).


(** The local variables of [runAgent] that the loop updates, the state of
    the provider, and the events so far. *)
Module State.
Record t (S : Type) : Type := mk
  { messages : list ContextMessage.t;
    steps : list StepLog.t;
    gatheredEvidence : list string;
    currentStep : Z;
    finalAnswer : option string;
    verified : bool;
    verifiedSources : list Verifier.Source;
    error : option string;
    provider : S;
    trace : list Event }.
Arguments messages {S} _.
Arguments steps {S} _.
Arguments gatheredEvidence {S} _.
Arguments currentStep {S} _.
Arguments finalAnswer {S} _.
Arguments verified {S} _.
Arguments verifiedSources {S} _.
Arguments error {S} _.
Arguments provider {S} _.
Arguments trace {S} _.
Arguments mk {S} _ _ _ _ _ _ _ _ _ _.
End State.

Section RunAgent.

Context {S : Type}.

Variable w : Tools.World.
Variable config : AgentLoopConfig.t S.

Definition maxSteps : Z :=
  orDefault (AgentLoopConfig.maxSteps config) DEFAULT_AGENT_LOOP_CONFIG.maxSteps.
Definition maxExcerptLines : Z :=
  orDefault (AgentLoopConfig.maxExcerptLines config) DEFAULT_AGENT_LOOP_CONFIG.maxExcerptLines.
Definition maxToolOutputChars : Z :=
  orDefault (AgentLoopConfig.maxToolOutputChars config) DEFAULT_AGENT_LOOP_CONFIG.maxToolOutputChars.

(** [new Indexer({repoPath, dbPath})] *)
Definition indexer : Indexer.t :=
  Indexer.mkIndexer (NodePath.resolve (Fs.cwd (Tools.os w)) [AgentLoopConfig.repoRoot config])
    (Tools.database w).

Definition toolRegistry : Tools.ToolRegistry :=
  Tools.createToolRegistry w (AgentLoopConfig.repoRoot config) (Some indexer).

Definition toolSchemas : list Tools.ToolSchema.t := Tools.getToolSchemas toolRegistry.

Definition systemPrompt : string :=
  Prompt.generateSystemPrompt
    (Prompt.mkPromptConfig maxSteps maxExcerptLines
       (Prompt.formatToolDescriptions
          (map (fun t => (Tools.ToolSchema.name t, Tools.ToolSchema.description t)) toolSchemas))).

Definition initialState (p0 : S) : State.t S :=
  State.mk
    [ContextMessage.mk system systemPrompt None None;
     ContextMessage.mk user (AgentLoopConfig.question config) None None]
    [] [] 0 None false [] None p0 [].

(** The assignments and [push] calls of the loop, one field at a time. *)
Definition pushMessage (m : ContextMessage.t) (st : State.t S) : State.t S :=
  State.mk (State.messages st ++ [m]) (State.steps st) (State.gatheredEvidence st)
    (State.currentStep st) (State.finalAnswer st) (State.verified st)
    (State.verifiedSources st) (State.error st) (State.provider st) (State.trace st).

Definition pushStep (s : StepLog.t) (st : State.t S) : State.t S :=
  State.mk (State.messages st) (State.steps st ++ [s]) (State.gatheredEvidence st)
    (State.currentStep st) (State.finalAnswer st) (State.verified st)
    (State.verifiedSources st) (State.error st) (State.provider st) (State.trace st).

Definition pushEvidence (e : string) (st : State.t S) : State.t S :=
  State.mk (State.messages st) (State.steps st) (State.gatheredEvidence st ++ [e])
    (State.currentStep st) (State.finalAnswer st) (State.verified st)
    (State.verifiedSources st) (State.error st) (State.provider st) (State.trace st).

Definition pushEvent (e : Event) (st : State.t S) : State.t S :=
  State.mk (State.messages st) (State.steps st) (State.gatheredEvidence st)
    (State.currentStep st) (State.finalAnswer st) (State.verified st)
    (State.verifiedSources st) (State.error st) (State.provider st)
    (State.trace st ++ [e]).

Definition setStep (n : Z) (st : State.t S) : State.t S :=
  State.mk (State.messages st) (State.steps st) (State.gatheredEvidence st) n
    (State.finalAnswer st) (State.verified st) (State.verifiedSources st)
    (State.error st) (State.provider st) (State.trace st).

Definition setProvider (p : S) (st : State.t S) : State.t S :=
  State.mk (State.messages st) (State.steps st) (State.gatheredEvidence st)
    (State.currentStep st) (State.finalAnswer st) (State.verified st)
    (State.verifiedSources st) (State.error st) p (State.trace st).

Definition setError (e : option string) (st : State.t S) : State.t S :=
  State.mk (State.messages st) (State.steps st) (State.gatheredEvidence st)
    (State.currentStep st) (State.finalAnswer st) (State.verified st)
    (State.verifiedSources st) e (State.provider st) (State.trace st).

Definition setFinalAnswer (a : option string) (st : State.t S) : State.t S :=
  State.mk (State.messages st) (State.steps st) (State.gatheredEvidence st)
    (State.currentStep st) a (State.verified st) (State.verifiedSources st)
    (State.error st) (State.provider st) (State.trace st).

Definition setVerification (v : SourceVerificationResult.t) (st : State.t S) : State.t S :=
  State.mk (State.messages st) (State.steps st) (State.gatheredEvidence st)
    (State.currentStep st) (State.finalAnswer st) (SourceVerificationResult.valid v)
    (SourceVerificationResult.sources v) (State.error st) (State.provider st)
    (State.trace st).

(** Two states that differ at most in the transcript, the step log, the
    evidence and the events. *)
Definition sameControl (st st' : State.t S) : Prop :=
  State.currentStep st' = State.currentStep st
  /\ State.finalAnswer st' = State.finalAnswer st
  /\ State.verified st' = State.verified st
  /\ State.verifiedSources st' = State.verifiedSources st
  /\ State.error st' = State.error st
  /\ State.provider st' = State.provider st.

(** The citations held by a state have the shape of a citation, and a
    verified state holds at least one. *)
Definition sourcesChecked (st : State.t S) : Prop :=
  Forall Verifier.wellFormed (State.verifiedSources st)
  /\ (State.verified st = true -> State.verifiedSources st <> []).

(** The body of [for (const toolCall of parsed.toolCalls)]. *)
Definition runToolCall (st : State.t S) (toolCall : ToolCallResult.t)
  : Result (State.t S) :=
  let st := pushEvent (ToolExec (State.currentStep st) toolCall) st in
  match Tools.executeToolCall w toolRegistry (ToolCallResult.name toolCall)
          (Tools.ArgString (ToolCallResult.argumentsJson toolCall)) with
  | inl e => inl e
  | inr toolResult =>
      let truncatedOutput :=
        truncateOutput (Tools.outputSummary toolResult) maxToolOutputChars in
      let st :=
        if Tools.success toolResult
        then pushEvidence ("[" ++ ToolCallResult.name toolCall ++ "] " ++ sliceStr truncatedOutput 0 200
                             ++ "...") st
        else st in
      let st := pushMessage (ContextMessage.mk tool truncatedOutput (Some (ToolCallResult.id toolCall)) None) st in
      inr (pushStep
             (StepLog.mk (State.currentStep st) (Some (ToolCallResult.name toolCall))
                (Some (ToolCallResult.argumentsJson toolCall))
                (Some (sliceStr truncatedOutput 0 500))
                ("Called " ++ ToolCallResult.name toolCall) false None None) st)
  end.

(** The [for] loop over the tool calls; an exception leaves it with the
    state reached so far. *)
Fixpoint runToolCalls (st : State.t S) (calls : list ToolCallResult.t)
  : State.t S * option JsExn :=
  match calls with
  | [] => (st, None)
  | c :: rest =>
      match runToolCall st c with
      | inl e => (pushEvent (ToolExec (State.currentStep st) c) st, Some e)
      | inr st' => runToolCalls st' rest
      end
  end.

(** How an iteration of the [while] loop ends. *)
Inductive Control : Type :=
| Continue (st : State.t S)
| Break (st : State.t S).

(** The [catch (err)] block of the loop. *)
Definition caught (err : JsExn) (st : State.t S) : Control :=
  let e := errorText err in
  Break (pushStep (StepLog.mk (State.currentStep st) None None None ("Error: " ++ e)
                     false None None)
           (setError (Some e) st)).

(** The request of a turn of the loop:
    [{messages, tools: toolSchemas, toolChoice: 'auto'}]. *)
Definition loopRequest (st : State.t S) : ChatRequest.t :=
  ChatRequest.mk (State.messages st) (Some toolSchemas) (Some "auto").

(** One iteration of [while (currentStep < maxSteps)]. *)
Definition iteration (st : State.t S) : Control :=
  let st := setStep (State.currentStep st + 1) st in
  let request := loopRequest st in
  let '(outcome, p') := chat (AgentLoopConfig.llmProvider config) (State.provider st) request in
  let st := pushEvent (LoopChat (State.currentStep st) request) (setProvider p' st) in
  match outcome with
  | inl err => caught err st
  | inr response =>
      let parsed := parseResponse (ChatResponse.assistantText response) (ChatResponse.toolCalls response) in
      match ParsedLLMResponse.type parsed, ParsedLLMResponse.toolCalls parsed with
      | ResponseType.error, _ => Break (setError (ParsedLLMResponse.error parsed) st)
      | ResponseType.tool_calls, Some (c :: l) =>
          let st :=
            pushMessage (ContextMessage.mk assistant (orDefault (ParsedLLMResponse.rawContent parsed) "") None
                           (Some (c :: l))) st in
          match runToolCalls st (c :: l) with
          | (st', None) => Continue st'
          | (st', Some err) => caught err st'
          end
      | ty, _ =>
          match ty, ParsedLLMResponse.answerMd parsed with
          | ResponseType.done, Some (String a r) =>
              let answer := String a r in
              let verification := verifySourcesInAnswer answer (AgentLoopConfig.repoRoot config) in
              let st :=
                pushStep (StepLog.mk (State.currentStep st) None None None "Provided final answer"
                            true (Some (SourceVerificationResult.valid verification))
                            (Some (SourceVerificationResult.errors verification))) st in
              if SourceVerificationResult.valid verification then
                Break (setVerification verification (setFinalAnswer (Some answer) st))
              else
                Continue
                  (pushMessage
                     (ContextMessage.mk user (Prompt.generateRepairPrompt (SourceVerificationResult.errors verification))
                        None None)
                     (pushMessage
                        (ContextMessage.mk assistant ("DONE" ++ nl ++ nl ++ answer) None None) st))
          | _, _ =>
              Continue
                (pushStep
                   (StepLog.mk (State.currentStep st) None None None
                      (match ParsedLLMResponse.rawContent parsed with
                       | Some raw => sliceStr raw 0 200
                       | None => "Empty response"
                       end)
                      false None None) st)
          end
      end
  end.

(** [while (currentStep < maxSteps) { ... }]; [None] when [fuel] iterations
    do not reach the end of the loop. *)
Fixpoint whileLoop (fuel : nat) (st : State.t S) : option (State.t S) :=
  if State.currentStep st <? maxSteps then
    match fuel with
    | O => None
    | Datatypes.S fuel' =>
        match iteration st with
        | Continue st' => whileLoop fuel' st'
        | Break st' => Some st'
        end
    end
  else Some st.

Definition fallbackAnswer (st : State.t S) : string :=
  "Unable to fully answer the question within " ++ numToString maxSteps ++ " steps."
    ++ nl ++ nl ++ "## Partial Information" ++ nl ++ nl
    ++ (let joined := join nl (State.gatheredEvidence st) in
        if truthy (Some joined) then joined else "No evidence gathered.")
    ++ nl ++ nl ++ "## Sources" ++ nl ++ nl ++ "(No verified sources available)".

(** The request of the forced termination: [{messages, tools: []}], after
    the termination prompt has been pushed. *)
Definition forcedRequest (st : State.t S) : ChatRequest.t :=
  ChatRequest.mk
    (State.messages st
       ++ [ContextMessage.mk user
             (Prompt.generateForcedTerminationPrompt maxSteps (State.gatheredEvidence st))
             None None])
    (Some []) None.


(** The [try] block of the forced termination, with its empty [catch]. *)
Definition forcedCall (st : State.t S) : State.t S :=
  let request := forcedRequest st in
  let st :=
    pushMessage
      (ContextMessage.mk user
         (Prompt.generateForcedTerminationPrompt maxSteps (State.gatheredEvidence st))
         None None) st in
  let '(outcome, p') := chat (AgentLoopConfig.llmProvider config) (State.provider st) request in
  let st := pushEvent (ForcedChat request) (setProvider p' st) in
  match outcome with
  | inl _ => st
  | inr response =>
      if truthy (ChatResponse.assistantText response) then
        let parsed := parseResponse (ChatResponse.assistantText response) None in
        if truthy (ParsedLLMResponse.answerMd parsed) then
          setVerification
            (verifySourcesInAnswer (orDefault (ParsedLLMResponse.answerMd parsed) "") (AgentLoopConfig.repoRoot config))
            (setFinalAnswer (ParsedLLMResponse.answerMd parsed) st)
        else setFinalAnswer (ChatResponse.assistantText response) st
      else st
  end.

(** The code after the loop: [if (!verified && !error) { ... }]. *)
Definition afterLoop (st : State.t S) : State.t S :=
  if negb (State.verified st) && negb (truthy (State.error st))
  then
    if maxSteps <=? State.currentStep st then
      let st := forcedCall st in
      if negb (truthy (State.finalAnswer st)) then
        setError (Some ("Max steps (" ++ numToString maxSteps ++ ") exceeded"))
          (setFinalAnswer (Some (fallbackAnswer st)) st)
      else st
    else st
  else st.

(** The object [runAgent] returns, with the events of the run. *)
Record Run : Type := mkRun { result : AgentLoopResult.t; events : list Event }.

Definition finish (st : State.t S) : Run :=
  mkRun
    (AgentLoopResult.mk (orDefault (State.finalAnswer st) "No answer generated") (State.steps st)
       (State.verifiedSources st) (State.verified st) (State.error st))
    (State.trace st).

(** [runAgent], the provider starting in state [p0]. *)
Definition runAgent (p0 : S) : option Run :=
  match whileLoop (Z.to_nat maxSteps) (initialState p0) with
  | Some st => Some (finish (afterLoop st))
  | None => None
  end.

End RunAgent.

End Loop.

(* ------------------------------------------------------------------ *)
(** * Concrete worlds, providers and runs used by the examples *)
(* ------------------------------------------------------------------ *)

Module Examples.
Import Js.

(** Ten lines, as in the tests of the repository. *)
Definition tenLines : string :=
  join nl (map (fun i => "// Line " ++ numToString i) [1; 2; 3; 4; 5; 6; 7; 8; 9; 10]).

(** A machine with the repository /tmp/repo (one file, foo.ts) and a
    sibling directory /tmp/repo-evil. *)
Definition tree : Fs.FileSystem :=
  fun p =>
    if (p =? "/tmp")%string then Some Fs.Directory
    else if (p =? "/tmp/repo")%string then Some Fs.Directory
    else if (p =? "/tmp/repo/foo.ts")%string then Some (Fs.File tenLines)
    else if (p =? "/tmp/repo-evil")%string then Some Fs.Directory
    else if (p =? "/tmp/repo-evil/secret.txt")%string then Some (Fs.File "top secret")
    else None.

Definition os : Fs.Os := Fs.mkOs "/home/user" tree.

(** [{"path":"foo.ts","startLine":1,"endLine":5}] *)
Definition excerptArgsJson : string :=
  "{" ++ dquote ++ "path" ++ dquote ++ ":" ++ dquote ++ "foo.ts" ++ dquote ++ ","
    ++ dquote ++ "startLine" ++ dquote ++ ":1," ++ dquote ++ "endLine" ++ dquote ++ ":5}".

Definition excerptArgs : Json.t :=
  Json.JObj [("path", Json.JStr "foo.ts"); ("startLine", Json.ofZ 1); ("endLine", Json.ofZ 5)].

(** [JSON.parse] on the texts the examples use. *)
Definition jsonParse (s : string) : Result Json.t :=
  if (s =? excerptArgsJson)%string then inr excerptArgs
  else if (s =? "{}")%string then inr (Json.JObj [])
  else inl (JsError "Unexpected token in JSON").

Definition emptyDatabase : Indexer.Database := Indexer.mkDatabase (fun _ _ => inr []).




(** A handler outside the embedding; no example calls it. *)
Definition notEmbedded : Tools.Handler :=
  fun _ _ => inl (JsError "handler outside the embedding").

Definition world : Tools.World :=
  Tools.mkWorld os jsonParse emptyDatabase notEmbedded notEmbedded notEmbedded.

(** A provider that plays a script, one response per call. *)
Definition scripted : Loop.LlmProvider (list (Result Loop.ChatResponse.t)) :=
  Loop.mkProvider
    (fun script _ =>
       match script with
       | r :: rest => (r, rest)
       | [] => (inl (JsError "script exhausted"), [])
       end).

Definition configOf (budget : Z) : Loop.AgentLoopConfig.t (list (Result Loop.ChatResponse.t)) :=
  Loop.AgentLoopConfig.mk "/tmp/repo" None "What does foo do?" scripted (Some budget) None None None.

(** A provider that asks for one excerpt on its first call and answers on
    every later one; its state counts the calls. *)
Definition oneCallThenDone : Loop.LlmProvider nat :=
  Loop.mkProvider
    (fun n _ =>
       match n with
       | O => (inr (Loop.ChatResponse.mk None
                      (Some [Loop.ToolCallResult.mk "c1" "get_excerpt" excerptArgsJson])), 1%nat)
       | Datatypes.S _ =>
           (inr (Loop.ChatResponse.mk
                   (Some ("DONE" ++ nl ++ nl ++ "Answer." ++ nl ++ nl ++ "## Sources" ++ nl
                            ++ "- `foo.ts`:1-5")) None), Datatypes.S n)
       end).

Definition callExcerpt (callId : string) : Loop.ToolCallResult.t :=
  Loop.ToolCallResult.mk callId "get_excerpt" excerptArgsJson.

Definition says (text : string) : Result Loop.ChatResponse.t :=
  inr (Loop.ChatResponse.mk (Some text) None).

Definition calls (l : list Loop.ToolCallResult.t) : Result Loop.ChatResponse.t :=
  inr (Loop.ChatResponse.mk None (Some l)).


(** A final answer that cites a file the repository does not have. *)
Definition answerCitingMissing : string :=
  "DONE" ++ nl ++ nl ++ "Answer." ++ nl ++ nl ++ "## Sources" ++ nl ++ "- `missing.ts`:1-2".

Definition answerCitingFoo : string :=
  "DONE" ++ nl ++ nl ++ "Answer." ++ nl ++ nl ++ "## Sources" ++ nl ++ "- `foo.ts`:1-5".

Definition countingConfig (budget : Z) : Loop.AgentLoopConfig.t nat :=
  Loop.AgentLoopConfig.mk "/tmp/repo" None "What does foo do?" oneCallThenDone (Some budget)
    None None None.



(** Whether a citation names a file of the repository and lines of it. *)
Definition pointsIntoRepository (os : Fs.Os) (root : string) (c : Verifier.Source) : bool :=
  match Fs.stat os (NodePath.join [root; Verifier.path c]) with
  | Some (Fs.File content) =>
      (1 <=? Verifier.startLine c) && (Verifier.startLine c <=? Verifier.endLine c)
      && (Verifier.endLine c <=? Z.of_nat (List.length (splitChar LF content)))
  | _ => false
  end.

End Examples.

(* ------------------------------------------------------------------ *)
(** * The glob matcher of the file listing (tools/implementations.ts) *)
(* ------------------------------------------------------------------ *)

Module Glob.
Import Js.

(** [str.replace(/c/g, rep)] for a one-character pattern. *)
Fixpoint replaceChar (c : ascii) (rep : string) (s : string) : string :=
  match s with
  | EmptyString => EmptyString
  | String x r => (if Ascii.eqb x c then rep else String x EmptyString) ++ replaceChar c rep r
  end.

(** [str.replace(/pat/g, rep)] for a literal pattern that is not empty:
    leftmost matches, one after the other.  [skip] counts the characters of
    the last match still to be passed over. *)
Fixpoint replaceAll (pat rep : string) (skip : nat) (s : string) : string :=
  match s with
  | EmptyString => EmptyString
  | String x r =>
      match skip with
      | S k => replaceAll pat rep k r
      | O =>
          if String.prefix pat s
          then rep ++ replaceAll pat rep (String.length pat - 1) r
          else String x (replaceAll pat rep 0 r)
      end
  end.

(** The chain of replacements of [matchGlob]. *)
Definition regexPattern (pattern : string) : string :=
  replaceAll "{{GLOBSTAR}}" ".*" 0
    (replaceChar "?" "."
       (replaceChar "*" "[^/]*"
          (replaceAll "**" "{{GLOBSTAR}}" 0
             (replaceChar "." "\." pattern)))).

(** The first replacement of the chain, on its own: every dot is escaped. *)
Definition escape (s : string) : string := replaceChar "." "\." s.

(** The regular expressions that the chain produces from a pattern of
    letters, digits and the like, dots, stars and question marks: a sequence
    of these atoms. *)
Inductive Atom : Type :=
| Lit (c : ascii)       (* a character, or an escaped dot *)
| AnyChar               (* [.] *)
| AnyStar               (* [.*] *)
| NotSlashStar.         (* [[^/]*] *)

(** The characters with a meaning of their own in a regular expression. *)
Definition isSyntax (c : ascii) : bool :=
  existsb (Ascii.eqb c)
    ["\"; "^"; "$"; "."; "|"; "?"; "*"; "+"; "("; ")"; "["; "]"; "{"; "}"]%char.

(** [new RegExp(source)], for the sources made of the atoms above; [None]
    for every other source. *)
Fixpoint compile (source : string) : option (list Atom) :=
  match source with
  | EmptyString => Some []
  | String "\" (String "." r) => option_map (cons (Lit ".")) (compile r)
  | String "." (String "*" r) => option_map (cons AnyStar) (compile r)
  | String "." r => option_map (cons AnyChar) (compile r)
  | String "[" (String "^" (String "/" (String "]" (String "*" r)))) =>
      option_map (cons NotSlashStar) (compile r)
  | String c r =>
      if isSyntax c then None else option_map (cons (Lit c)) (compile r)
  end.

(** What [.] matches without the [s] flag: no line terminator. *)
Definition notLineTerminator (c : ascii) : bool :=
  negb (Ascii.eqb c (chr 10)) && negb (Ascii.eqb c (chr 13)).

Definition notSlash (c : ascii) : bool := negb (Ascii.eqb c "/").

(** [p*] followed by [k]. *)
Fixpoint star (p : ascii -> bool) (k : string -> bool) (s : string) : bool :=
  k s || match s with
         | String x r => p x && star p k r
         | EmptyString => false
         end.

(** Whether the atoms match the whole of [s]: the expression is anchored at
    both ends. *)
Fixpoint matchAtoms (atoms : list Atom) (s : string) : bool :=
  match atoms with
  | [] => match s with EmptyString => true | _ => false end
  | Lit c :: rest =>
      match s with
      | String x r => Ascii.eqb x c && matchAtoms rest r
      | EmptyString => false
      end
  | AnyChar :: rest =>
      match s with
      | String x r => notLineTerminator x && matchAtoms rest r
      | EmptyString => false
      end
  | AnyStar :: rest => star notLineTerminator (matchAtoms rest) s
  | NotSlashStar :: rest => star notSlash (matchAtoms rest) s
  end.

(** [matchGlob]; [None] when the pattern leads to a regular expression
    outside the atoms above. *)
Definition matchGlob (filepath pattern : string) : option bool :=
  option_map (fun atoms => matchAtoms atoms filepath) (compile (regexPattern pattern)).

(** The atoms of a text that is matched as it stands. *)
Fixpoint literally (s : string) : list Atom :=
  match s with
  | EmptyString => []
  | String c r => Lit c :: literally r
  end.

(** A character of a pattern that stands for itself: a dot, or a character
    without a meaning in a regular expression. *)
Definition plainChar (c : ascii) : bool := Ascii.eqb c "." || negb (isSyntax c).

End Glob.

(* ------------------------------------------------------------------ *)
(** * Paths of plain names *)
(* ------------------------------------------------------------------ *)

Module PathDefs.
Import Js.

(** A name of a file or directory: not empty, not [.] or [..], without a
    slash. *)
Definition plainSegment (s : string) : Prop :=
  s <> "" /\ s <> "." /\ s <> ".." /\ everyChar Glob.notSlash s = true.

(** The absolute path of the directory reached from the root of the file
    system through [segs]. *)
Definition absolutePath (segs : list string) : string := "/" ++ join "/" segs.

End PathDefs.

(* ------------------------------------------------------------------ *)
(** * The local provider (llm/local-provider.ts) *)
(* ------------------------------------------------------------------ *)

Module LocalProvider.
Import Js Loop.

Module LocalProviderConfig.
Record t : Type := mk
  { model : string; endpoint : option string; providerType : option string }.
End LocalProviderConfig.

Record t : Type := mk { model : string; endpoint : string; providerType : string }.

(** The constructor. *)
Definition new (config : LocalProviderConfig.t) : t :=
  mk (LocalProviderConfig.model config)
     (orDefault (LocalProviderConfig.endpoint config) "http://localhost:11434")
     (orDefault (LocalProviderConfig.providerType config) "ollama").

(** The message of the error that [chat] throws. *)
Definition stubMessage (this : t) (request : ChatRequest.t) : string :=
  "LocalProvider is a stub implementation. "
    ++ "To use local LLMs, implement the chat method for your provider type: "
    ++ providerType this ++ ". "
    ++ "Endpoint: " ++ endpoint this ++ ", Model: " ++ model this ++ ", "
    ++ "Messages: " ++ numToString (Z.of_nat (List.length (ChatRequest.messages request)))
    ++ ", Tools: "
    ++ numToString (match ChatRequest.tools request with
                    | Some tools => Z.of_nat (List.length tools)
                    | None => 0
                    end).

(** [chat]: the promise is rejected on every call. *)
Definition chat (this : t) (request : ChatRequest.t) : Result ChatResponse.t * t :=
  (inl (JsError (stubMessage this request)), this).

Definition provider : LlmProvider t := mkProvider chat.

End LocalProvider.

(* ------------------------------------------------------------------ *)
(** * The file reader of the first agent (agent/tools.ts) *)
(* ------------------------------------------------------------------ *)

Module LegacyTools.
Import Js.

(** [ReadFileArgs] of types.ts. *)
Module ReadFileArgs.
Record t : Type := mk { path : string; startLine : option Z; endLine : option Z }.
End ReadFileArgs.

(** [ToolContext] of agent/tools.ts. *)
Record ToolContext : Type := mkToolContext
  { config : Verifier.AgentConfig; indexer : Indexer.t }.




End LegacyTools.

(* ------------------------------------------------------------------ *)
(** * The other methods of the registry, and its reachable states *)
(* ------------------------------------------------------------------ *)

Module RegistryDefs.
Import Js Tools.

(** [getToolDescription] *)
Definition getToolDescription (reg : ToolRegistry) (n : string) : option string :=
  option_map description (mapGet n (tools reg)).

(** [Partial<ToolContext>]: the keys an update may carry; [indexer] may be
    set to [undefined]. *)
Record ContextUpdates : Type := mkContextUpdates
  { newRepoPath : option string; newIndexer : option (option Indexer.t) }.

(** [updateContext]: [Object.assign(this.context, updates)]. *)
Definition updateContext (reg : ToolRegistry) (updates : ContextUpdates) : ToolRegistry :=
  mkToolRegistry (tools reg)
    (mkToolContext
       (match newRepoPath updates with Some p => p | None => repoPath (context reg) end)
       (match newIndexer updates with Some ix => ix | None => indexer (context reg) end)).

(** The registries that the class can be in: created with the built-in
    tools, then changed by [registerTool] and [updateContext]. *)
Inductive Reachable (w : World) : ToolRegistry -> Prop :=
| reach_new : forall ctx, Reachable w (newToolRegistry w ctx)
| reach_register : forall reg n d sch h,
    Reachable w reg -> Reachable w (registerTool reg n d sch h)
| reach_update : forall reg updates,
    Reachable w reg -> Reachable w (updateContext reg updates).

(** The walk of [parse] over the shape of an object, as a function of its
    own: the issues of all fields, and the fields of the output. *)
Fixpoint parseFields (fields : list (string * Json.t)) (path : list string)
    (shape : list (string * Zod.Schema)) : list Zod.Issue * list (string * Json.t) :=
  match shape with
  | [] => ([], [])
  | (key, s) :: rest =>
      let '(is1, v) := Zod.parse s (path ++ [key])%list (Json.lookup key fields) in
      let '(is2, out) := parseFields fields path rest in
      ((is1 ++ is2)%list, match v with Some x => (key, x) :: out | None => out end)
  end.

Definition builtinNames : list string :=
  ["search_chunks"; "get_excerpt"; "graph_neighbors"; "list_files"; "get_repo_summary"].

(** What the operations of the class keep: the keys of the map are distinct
    and each is the name of its definition. *)
Definition wellKeyed (m : list (string * ToolDefinition)) : Prop :=
  NoDup (map fst m) /\ Forall (fun kv => fst kv = name (snd kv)) m.

End RegistryDefs.

(* ------------------------------------------------------------------ *)
(** * The terms of a search query *)
(* ------------------------------------------------------------------ *)

Module QueryDefs.
Import Js Indexer.
(** A character that can stand in a term of the full-text query: neither
    white space nor a quote. *)
Definition termChar (c : ascii) : bool := negb (isSpace c) && negb (isQuote c).

(** A character that the query builder drops or splits at. *)
Definition blankChar (c : ascii) : bool := isSpace c || isQuote c.

(** The terms of a query: the pieces between white space, without quotes,
    the empty ones left out. *)
Definition terms (query : string) : list string :=
  filter (fun term => 0 <? strlen term) (splitSpaces (removeChars isQuote query)).

End QueryDefs.

(* ------------------------------------------------------------------ *)
(** * The answer format that the prompts ask for *)
(* ------------------------------------------------------------------ *)

Module Format.
Import Js Regex.






(** What the citation pattern captures: a path that is not empty and two
    runs of digits that are not empty. *)
Definition captured (m : Citation) : Prop :=
  capPath m <> ""
  /\ capStart m <> "" /\ everyChar isDigit (capStart m) = true
  /\ capEnd m <> "" /\ everyChar isDigit (capEnd m) = true.



End Format.

(* ------------------------------------------------------------------ *)
(** * The shapes of the step log and of the states of a run *)
(* ------------------------------------------------------------------ *)

Module StepDefs.
Import Js Loop.

(** The shape of the log entry of a tool call made at turn [k]. *)
Definition toolStep (k : Z) (s : StepLog.t) : Prop :=
  StepLog.stepNo s = k /\ StepLog.isDone s = false
  /\ StepLog.verifierPassed s = None /\ StepLog.verifierErrors s = None
  /\ exists name input output,
       StepLog.toolName s = Some name /\ StepLog.toolInput s = Some input
       /\ StepLog.toolOutputSummary s = Some output /\ strlen output <= 500
       /\ StepLog.modelMessageSummary s = "Called " ++ name.

(** The shape of a log entry that is not a tool call: a DONE answer with the
    verdict of the check, or an error or unexpected turn. *)
Definition plainStep (k : Z) (s : StepLog.t) : Prop :=
  StepLog.stepNo s = k
  /\ StepLog.toolName s = None /\ StepLog.toolInput s = None
  /\ StepLog.toolOutputSummary s = None
  /\ (StepLog.isDone s = true
      /\ StepLog.modelMessageSummary s = "Provided final answer"
      /\ (exists passed errors,
             StepLog.verifierPassed s = Some passed
             /\ StepLog.verifierErrors s = Some errors)
      \/ StepLog.isDone s = false
         /\ StepLog.verifierPassed s = None /\ StepLog.verifierErrors s = None).

Definition loggedAt (k : Z) (s : StepLog.t) : Prop := toolStep k s \/ plainStep k s.

(** The step that a DONE answer leaves in the log. *)
Definition doneStep (k : Z) (v : SourceVerificationResult.t) : StepLog.t :=
  StepLog.mk k None None None "Provided final answer" true
    (Some (SourceVerificationResult.valid v)) (Some (SourceVerificationResult.errors v)).

End StepDefs.

Module RunDefs.
Import Js Loop StepDefs.

(** The state of a run whose loop goes on: no verified answer, no error and
    no answer yet. *)
Definition running {S : Type} (st : State.t S) : Prop :=
  State.verified st = false /\ State.error st = None /\ State.finalAnswer st = None.

(** The entries of a step log are in the order of their turns. *)
Definition inTurnOrder (steps : list StepLog.t) : Prop :=
  forall (i j : nat) (s s' : StepLog.t),
    nth_error steps i = Some s -> nth_error steps j = Some s' -> (i <= j)%nat ->
    StepLog.stepNo s <= StepLog.stepNo s'.

Section Run.

Context {S : Type}.
Variable w : Tools.World.
Variable config : AgentLoopConfig.t S.

(** The state of a turn once the provider has been called. *)
Definition called (st : State.t S) (p' : S) : State.t S :=
  pushEvent (LoopChat (State.currentStep st + 1) (loopRequest w config st))
    (setProvider p' (setStep (State.currentStep st + 1) st)).

(** The verified answer of a state is the text that the check accepted. *)
Definition answerChecked (st : State.t S) : Prop :=
  State.verified st = true ->
  truthy (State.error st) = false
  /\ exists answer,
       State.finalAnswer st = Some answer
       /\ verifySourcesInAnswer answer (AgentLoopConfig.repoRoot config)
          = SourceVerificationResult.mk true (State.verifiedSources st) [].

(** The step log of a state: every entry was logged at its turn, which is
    one of the turns so far, and the entries are in the order of the turns. *)
Definition logged (st : State.t S) : Prop :=
  0 <= State.currentStep st
  /\ Forall (fun s => 1 <= StepLog.stepNo s <= State.currentStep st
                      /\ StepLog.stepNo s <= maxSteps config
                      /\ loggedAt (StepLog.stepNo s) s) (State.steps st)
  /\ inTurnOrder (State.steps st).

End Run.

End RunDefs.

(* ------------------------------------------------------------------ *)
(** * The transcript sent to the provider *)
(* ------------------------------------------------------------------ *)

Module TranscriptDefs.
Import Js Loop.

Section Requests.

Context {S : Type}.
Variable w : Tools.World.
Variable config : AgentLoopConfig.t S.

(** The messages that answer the tool calls of a turn: one [tool] message
    per call, in the order of the calls, each under the id of its call and
    with the output of that call, cut by [truncateOutput]. *)
Inductive Answers : list ToolCallResult.t -> list ContextMessage.t -> Prop :=
| answers_nil : Answers [] []
| answers_cons : forall c calls toolResult ms,
    Tools.executeToolCall w (toolRegistry w config) (ToolCallResult.name c)
      (Tools.ArgString (ToolCallResult.argumentsJson c)) = inr toolResult ->
    Answers calls ms ->
    Answers (c :: calls)
      (ContextMessage.mk tool
         (truncateOutput (Tools.outputSummary toolResult) (maxToolOutputChars config))
         (Some (ToolCallResult.id c)) None :: ms).

(** The transcripts that grow from [opening]: by a turn of tool calls - the
    assistant message that carries the calls, then their answers - or by a
    refused answer - the answer, then the repair prompt. *)
Inductive Transcript (opening : list ContextMessage.t) : list ContextMessage.t -> Prop :=
| transcript_opening : Transcript opening opening
| transcript_tools : forall msgs content calls answers,
    Transcript opening msgs -> calls <> [] -> Answers calls answers ->
    Transcript opening
      (msgs ++ ContextMessage.mk assistant content None (Some calls) :: answers)
| transcript_repair : forall msgs answer errors,
    Transcript opening msgs ->
    Transcript opening
      (msgs ++ [ContextMessage.mk assistant ("DONE" ++ nl ++ nl ++ answer) None None;
                ContextMessage.mk user (Prompt.generateRepairPrompt errors) None None]).

(** The two messages every transcript of a run begins with. *)
Definition opening : list ContextMessage.t :=
  [ContextMessage.mk system (systemPrompt w config) None None;
   ContextMessage.mk user (AgentLoopConfig.question config) None None].

(** A request as the run sends it: in the loop a transcript with the tools
    of the registry; at the forced termination a transcript followed by the
    termination prompt, without tools. *)
Definition wellFormedRequest (e : Event) : Prop :=
  match e with
  | LoopChat _ request =>
      Transcript opening (ChatRequest.messages request)
      /\ ChatRequest.tools request = Some (toolSchemas w config)
      /\ ChatRequest.toolChoice request = Some "auto"
  | ToolExec _ _ => True
  | ForcedChat request =>
      (exists msgs evidence,
          Transcript opening msgs
          /\ ChatRequest.messages request
             = (msgs ++ [ContextMessage.mk user
                           (Prompt.generateForcedTerminationPrompt (maxSteps config) evidence)
                           None None])%list)
      /\ ChatRequest.tools request = Some []
      /\ ChatRequest.toolChoice request = None
  end.

(** The transcript and the requests of a state. *)
Definition inProtocol (st : State.t S) : Prop :=
  Transcript opening (State.messages st) /\ Forall wellFormedRequest (State.trace st).

End Requests.

End TranscriptDefs.

(* ================================================================== *)
(** * Properties *)
(* ================================================================== *)

(* ------------------------------------------------------------------ *)
(** ** Lists and strings *)
(* ------------------------------------------------------------------ *)

Module StringFacts.
Import Js.

Lemma splitChar_nonempty : forall c s, splitChar c s <> [].
Proof.
  intros c s; destruct s as [|a r]; simpl; [discriminate|].
  destruct (Ascii.eqb a c); [discriminate|].
  destruct (splitChar c r); discriminate.
Qed.

Lemma splitChar_length : forall c s, 1 <= Z.of_nat (List.length (splitChar c s)).
Proof.
  intros c s. pose proof (splitChar_nonempty c s) as H.
  destruct (splitChar c s); [congruence | simpl List.length; lia].
Qed.

Lemma prefix_refl_app : forall p s, String.prefix p (p ++ s) = true.
Proof.
  induction p as [|a p IH]; intros s; simpl.
  - destruct s; reflexivity.
  - destruct (ascii_dec a a); [apply IH | congruence].
Qed.

Lemma includes_prefix : forall s p, String.prefix p s = true -> includes s p = true.
Proof. intros s p H. destruct s; cbn [includes]; rewrite H; reflexivity. Qed.

Lemma includes_here : forall p s, includes (p ++ s) p = true.
Proof. intros p s. apply includes_prefix, prefix_refl_app. Qed.

Lemma includes_skip : forall a s p, includes s p = true -> includes (a ++ s) p = true.
Proof.
  induction a as [|c a IH]; intros s p H; [exact H|].
  change (String c a ++ s) with (String c (a ++ s)). cbn [includes].
  destruct (String.prefix p (String c (a ++ s))); [reflexivity|].
  apply IH, H.
Qed.

Lemma includes_mid : forall a p b, includes (a ++ p ++ b) p = true.
Proof. intros. apply includes_skip, includes_here. Qed.

Lemma includes_end : forall a p, includes (a ++ p) p = true.
Proof.
  intros a p. replace p with (p ++ "") at 1.
  - apply includes_mid.
  - induction p; simpl; congruence.
Qed.

Lemma append_assoc : forall a b c : string, (a ++ b) ++ c = a ++ (b ++ c).
Proof. induction a; intros; simpl; congruence. Qed.

Lemma append_nil_r : forall a : string, a ++ "" = a.
Proof. induction a; simpl; congruence. Qed.

(** Every member of a joined list occurs in the result. *)
Lemma includes_join : forall sep l x, In x l -> includes (join sep l) x = true.
Proof.
  unfold join. induction l as [|y l IH]; intros x Hin; [destruct Hin|].
  destruct Hin as [->|Hin].
  - destruct l; simpl.
    + replace x with (x ++ "") at 1 by apply append_nil_r. apply includes_here.
    + apply includes_here.
  - destruct l as [|z l]; [destruct Hin|].
    change (String.concat sep (y :: z :: l)) with (y ++ sep ++ String.concat sep (z :: l)).
    apply includes_skip, includes_skip, IH, Hin.
Qed.

Lemma nth_error_mapi :
  forall (A B : Type) (f : Z -> A -> B) l i n x,
    nth_error l n = Some x ->
    nth_error (Tools.mapi f i l) n = Some (f (i + Z.of_nat n) x).
Proof.
  induction l as [|y l IH]; intros i n x H.
  - destruct n; discriminate.
  - destruct n as [|n]; simpl in *.
    + inversion H; subst. f_equal. f_equal. lia.
    + rewrite (IH (i + 1) n x H). f_equal. f_equal. lia.
Qed.

Lemma mapi_length :
  forall (A B : Type) (f : Z -> A -> B) l i, List.length (Tools.mapi f i l) = List.length l.
Proof. induction l; intros; simpl; [reflexivity | f_equal; apply IHl]. Qed.

(** [arr.slice(a - 1, b)] for a one-based range inside the array. *)
Lemma slice_range :
  forall (A : Type) (l : list A) a b,
    1 <= a -> a <= b -> b <= Z.of_nat (List.length l) ->
    slice l (a - 1) b = firstn (Z.to_nat (b - a + 1)) (skipn (Z.to_nat (a - 1)) l).
Proof.
  intros A l a b Ha Hab Hb. unfold slice, relIndex.
  destruct (a - 1 <? 0) eqn:E1; [apply Z.ltb_lt in E1; lia|].
  destruct (b <? 0) eqn:E2; [apply Z.ltb_lt in E2; lia|].
  rewrite !Z.min_l by lia. f_equal. f_equal. lia.
Qed.

Lemma slice_range_length :
  forall (A : Type) (l : list A) a b,
    1 <= a -> a <= b -> b <= Z.of_nat (List.length l) ->
    Z.of_nat (List.length (slice l (a - 1) b)) = b - a + 1.
Proof.
  intros A l a b Ha Hab Hb. rewrite slice_range by assumption.
  rewrite length_firstn, length_skipn. lia.
Qed.

Lemma slice_range_nth :
  forall (l : list string) a b k,
    1 <= a -> a <= b -> b <= Z.of_nat (List.length l) -> a <= k <= b ->
    nth_error (slice l (a - 1) b) (Z.to_nat (k - a)) = Some (nth (Z.to_nat (k - 1)) l "").
Proof.
  intros l a b k Ha Hab Hb Hk. rewrite slice_range by assumption.
  rewrite nth_error_firstn.
  destruct (Nat.ltb_spec (Z.to_nat (k - a)) (Z.to_nat (b - a + 1))) as [_|Hge]; [|lia].
  rewrite nth_error_skipn.
  replace (Z.to_nat (a - 1) + Z.to_nat (k - a))%nat with (Z.to_nat (k - 1)) by lia.
  apply nth_error_nth'. lia.
Qed.

End StringFacts.

(* ------------------------------------------------------------------ *)
(** ** get_excerpt *)
(* ------------------------------------------------------------------ *)

Module ExcerptFacts.
Import Js Tools StringFacts.

(** C6.  A call of [get_excerpt] on an existing file inside the repository
    succeeds; the reported range is the requested one clamped to
    [1, lineCount] with [endLine >= startLine]: start [a = max(1, min(startLine, N))],
    end [b = max(a, min(endLine, N))] for a file of [N] lines.  The content
    is the lines [a..b] joined by line feeds, line [k] printed as
    ["k: <line k>"], and the summary puts it under the header
    ["File: <path> (lines a-b of N)"].  A call on a missing file fails. *)
Theorem C6_getExcerpt_clamps_and_numbers :
  forall (os : Fs.Os) (ctx : ToolContext) (filePath : string) (startLine endLine : Z),
    (forall content : string,
        startsWith
          (NodePath.resolve (Fs.cwd os) [NodePath.join [repoPath ctx; filePath]])
          (NodePath.resolve (Fs.cwd os) [repoPath ctx]) = true ->
        Fs.stat os (NodePath.join [repoPath ctx; filePath]) = Some (Fs.File content) ->
        let lines := splitChar LF content in
        let N := Z.of_nat (List.length lines) in
        let a := Z.max 1 (Z.min startLine N) in
        let b := Z.max a (Z.min endLine N) in
        let numbered :=
          mapi (fun i line => numToString (a + i) ++ ": " ++ line) 0 (slice lines (a - 1) b) in
        getExcerpt os (GetExcerptArgs.mk filePath startLine endLine) ctx
        = mkToolResult true
            (DExcerpt (mkExcerptResult filePath a b (join nl numbered) N))
            ("File: " ++ filePath ++ " (lines " ++ numToString a ++ "-" ++ numToString b
               ++ " of " ++ numToString N ++ ")" ++ nl ++ nl ++ join nl numbered)
            None
        /\ 1 <= a /\ a <= b /\ b <= N
        /\ Z.of_nat (List.length numbered) = b - a + 1
        /\ (forall k, a <= k <= b ->
              nth_error numbered (Z.to_nat (k - a))
              = Some (numToString k ++ ": " ++ nth (Z.to_nat (k - 1)) lines "")))
    /\ (Fs.stat os (NodePath.join [repoPath ctx; filePath]) = None ->
        success (getExcerpt os (GetExcerptArgs.mk filePath startLine endLine) ctx) = false).
Proof.
  intros os ctx filePath startLine endLine. split.
  - intros content Hin Hstat lines N a b numbered.
    assert (HN : 1 <= N) by apply splitChar_length.
    assert (Ha : 1 <= a) by (unfold a; lia).
    assert (Hab : a <= b) by (unfold b; lia).
    assert (Hb : b <= N) by (unfold b, a; lia).
    split; [|repeat split; try assumption].
    + unfold getExcerpt. cbn [GetExcerptArgs.path GetExcerptArgs.startLine GetExcerptArgs.endLine].
      rewrite Hin. cbn [negb].
      unfold Fs.existsSync, Fs.readFileSync. rewrite Hstat. cbn [negb]. reflexivity.
    + unfold numbered. rewrite mapi_length. apply slice_range_length; assumption.
    + intros k Hk. unfold numbered.
      rewrite (nth_error_mapi _ _ _ _ 0 _ _ (slice_range_nth lines a b k Ha Hab Hb Hk)).
      replace (a + (0 + Z.of_nat (Z.to_nat (k - a)))) with k by lia. reflexivity.
  - intros Hstat. unfold getExcerpt.
    cbn [GetExcerptArgs.path GetExcerptArgs.startLine GetExcerptArgs.endLine].
    destruct (negb (startsWith _ _)); [reflexivity|].
    unfold Fs.existsSync. rewrite Hstat. reflexivity.
Qed.

(** C6 at foo.ts (ten lines), lines 8 to 50: the range 8-10 comes back. *)
Lemma C6_getExcerpt_witness :
  getExcerpt Examples.os (GetExcerptArgs.mk "foo.ts" 8 50) (mkToolContext "/tmp/repo" None)
  = mkToolResult true
      (DExcerpt
         (mkExcerptResult "foo.ts" 8 10
            ("8: // Line 8" ++ nl ++ "9: // Line 9" ++ nl ++ "10: // Line 10") 10))
      ("File: foo.ts (lines 8-10 of 10)" ++ nl ++ nl
         ++ "8: // Line 8" ++ nl ++ "9: // Line 9" ++ nl ++ "10: // Line 10")
      None.
Proof.
  exact (proj1 (proj1 (C6_getExcerpt_clamps_and_numbers Examples.os
                         (mkToolContext "/tmp/repo" None) "foo.ts" 8 50)
                  Examples.tenLines eq_refl eq_refl)).
Defined.

End ExcerptFacts.

(* ------------------------------------------------------------------ *)
(** ** Path containment *)
(* ------------------------------------------------------------------ *)

Module ContainmentFacts.
Import Js.




(** The test is a comparison of strings, so a sibling directory whose name
    extends the name of the root passes it: from /tmp/repo, the path
    ../repo-evil/secret.txt resolves to /tmp/repo-evil/secret.txt, outside
    the repository, and is read. *)
Lemma sibling_directory_passes_the_test :
  NodePath.resolve "/home/user" [NodePath.join ["/tmp/repo"; "../repo-evil/secret.txt"]]
  = "/tmp/repo-evil/secret.txt"
  /\ Verifier.verifySources Examples.os [Verifier.mkSource "../repo-evil/secret.txt" 1 1]
       (Verifier.mkAgentConfig 8 120 10 "" "/tmp/repo")
     = Verifier.mkVerification true []
  /\ Tools.success
       (Tools.getExcerpt Examples.os (Tools.GetExcerptArgs.mk "../repo-evil/secret.txt" 1 1)
          (Tools.mkToolContext "/tmp/repo" None)) = true.
Proof. repeat split; reflexivity. Qed.

End ContainmentFacts.

(* ------------------------------------------------------------------ *)
(** ** Rendering and parsing citations *)
(* ------------------------------------------------------------------ *)

Module CitationFacts.
Import Js Regex.

Lemma everyChar_app :
  forall p a b, everyChar p (a ++ b) = everyChar p a && everyChar p b.
Proof.
  induction a as [|c a IH]; intros b; simpl; [reflexivity|].
  rewrite IH. apply andb_assoc.
Qed.

Lemma everyChar_dropSpaces :
  forall p s, everyChar p s = true -> everyChar p (dropSpaces s) = true.
Proof.
  induction s as [|c r IH]; intros H; simpl; [reflexivity|].
  destruct (isSpace c); [|exact H].
  simpl in H. apply andb_prop in H. apply IH, H.
Qed.

Lemma eat_every :
  forall p lit s r, eat lit s = Some r -> everyChar p s = true -> everyChar p r = true.
Proof.
  induction lit as [|l lit IH]; intros s r H Hs; simpl in H.
  - inversion H; subst; exact Hs.
  - destruct s as [|c s]; [discriminate|].
    destruct (Ascii.eqb c l); [|discriminate].
    simpl in Hs. apply andb_prop in Hs. eapply IH; [exact H | apply Hs].
Qed.

Lemma eatCI_every :
  forall p lit s r, eatCI lit s = Some r -> everyChar p s = true -> everyChar p r = true.
Proof.
  induction lit as [|l lit IH]; intros s r H Hs; simpl in H.
  - inversion H; subst; exact Hs.
  - destruct s as [|c s]; [discriminate|].
    destruct (Ascii.eqb (lowerChar c) l); [|discriminate].
    simpl in Hs. apply andb_prop in Hs. eapply IH; [exact H | apply Hs].
Qed.

Lemma spacesThenLF_every :
  forall p s best r,
    spacesThenLF s best = Some r -> everyChar p s = true ->
    (forall b, best = Some b -> everyChar p b = true) ->
    everyChar p r = true.
Proof.
  induction s as [|c s IH]; intros best r H Hs Hbest; simpl in H.
  - apply Hbest, H.
  - simpl in Hs. apply andb_prop in Hs. destruct Hs as [_ Hs].
    destruct (isSpace c); [|apply Hbest, H].
    eapply IH; [exact H | exact Hs |].
    intros b Hb. destruct (Ascii.eqb c LF); [inversion Hb; subst; exact Hs | apply Hbest, Hb].
Qed.

Lemma lazyBody_every :
  forall p s, everyChar p s = true -> everyChar p (lazyBody s) = true.
Proof.
  induction s as [|c s IH]; intros H.
  - cbn [lazyBody]. destruct (String.prefix (nl ++ "##") ""); reflexivity.
  - cbn [lazyBody]. destruct (String.prefix (nl ++ "##") (String c s)); [reflexivity|].
    simpl in *. apply andb_prop in H. destruct H as [H1 H2].
    rewrite H1. apply IH, H2.
Qed.

Lemma sectionAt_every :
  forall p s body, sectionAt s = Some body -> everyChar p s = true -> everyChar p body = true.
Proof.
  intros p s body H Hs. unfold sectionAt in H.
  destruct (eat "##" s) as [r1|] eqn:E1; [|discriminate].
  destruct (eatCI "sources" (dropSpaces r1)) as [r2|] eqn:E2; [|discriminate].
  destruct (spacesThenLF r2 None) as [b|] eqn:E3; [|discriminate].
  inversion H; subst. apply lazyBody_every.
  eapply spacesThenLF_every; [exact E3 | | discriminate].
  eapply eatCI_every; [exact E2|]. apply everyChar_dropSpaces.
  eapply eat_every; [exact E1 | exact Hs].
Qed.

Lemma sourcesSection_every :
  forall p s body,
    sourcesSection s = Some body -> everyChar p s = true -> everyChar p body = true.
Proof.
  induction s as [|c s IH]; intros body H Hs; cbn [sourcesSection] in H.
  - destruct (sectionAt "") eqn:E; [|discriminate].
    inversion H; subst. eapply sectionAt_every; [exact E | exact Hs].
  - destruct (sectionAt (String c s)) eqn:E.
    + inversion H; subst. eapply sectionAt_every; [exact E | exact Hs].
    + simpl in Hs. apply andb_prop in Hs. apply IH; [exact H | apply Hs].
Qed.

(** The citation pattern needs a backtick. *)
Lemma citationAt_needs_backtick :
  forall s, everyChar notBacktick s = true -> citationAt s = None.
Proof.
  intros s Hs. unfold citationAt. destruct s as [|c r0]; [reflexivity|].
  destruct (Ascii.eqb c "-" || Ascii.eqb c "*"); [|reflexivity].
  simpl in Hs. apply andb_prop in Hs. destruct Hs as [_ Hr].
  pose proof (everyChar_dropSpaces _ _ Hr) as Hd.
  destruct (dropSpaces r0) as [|d t]; [reflexivity|].
  simpl in Hd. apply andb_prop in Hd. destruct Hd as [Hd _].
  unfold notBacktick in Hd. apply negb_true_iff in Hd.
  unfold bt, str1. cbn [eat]. fold backtick. rewrite Hd. reflexivity.
Qed.

Lemma execAll_needs_backtick :
  forall s skip, everyChar notBacktick s = true -> execAll skip s = [].
Proof.
  induction s as [|c r IH]; intros skip Hs; [reflexivity|].
  pose proof (citationAt_needs_backtick _ Hs) as Hc.
  cbn [execAll]. simpl in Hs. apply andb_prop in Hs. destruct Hs as [_ Hr].
  destruct skip; [rewrite Hc|]; apply IH, Hr.
Qed.

Lemma uint_digits : forall d, everyChar notBacktick (NilEmpty.string_of_uint d) = true.
Proof. induction d; simpl; auto. Qed.

Lemma numToString_no_backtick : forall z, everyChar notBacktick (numToString z) = true.
Proof.
  intros z. unfold numToString, NilZero.string_of_int, NilZero.string_of_uint.
  destruct (Z.to_int z) as [d|d]; destruct d; simpl; auto using uint_digits.
Qed.

Lemma join_every :
  forall p sep l,
    everyChar p sep = true -> Forall (fun s => everyChar p s = true) l ->
    everyChar p (join sep l) = true.
Proof.
  unfold join. intros p sep l Hsep H. induction H as [|x l Hx Hl IH]; [reflexivity|].
  destruct l as [|y l]; [exact Hx|].
  change (String.concat sep (x :: y :: l)) with (x ++ sep ++ String.concat sep (y :: l)).
  rewrite !everyChar_app, Hx, Hsep, IH. reflexivity.
Qed.

Lemma formatSources_no_backtick :
  forall cs,
    Forall (fun c => everyChar notBacktick (Verifier.path c) = true) cs ->
    everyChar notBacktick (Verifier.formatSources cs) = true.
Proof.
  intros cs H. unfold Verifier.formatSources. destruct cs as [|c cs]; [reflexivity|].
  apply join_every; [reflexivity|].
  apply Forall_map. eapply Forall_impl; [|exact H].
  intros s Hs. cbv beta. rewrite !everyChar_app, Hs, !numToString_no_backtick. reflexivity.
Qed.

(** C3, as the code has it.  [formatSources] writes neither the
    "## Sources" header nor the backticks that [parseSourcesFromMarkdown]
    looks for: for every list of citations whose paths hold no backtick,
    parsing the rendered list returns the empty list, so the round trip
    gives the list back only when it is empty. *)
Theorem C3_parse_of_format_is_empty :
  forall cs : list Verifier.Source,
    Forall (fun c => everyChar notBacktick (Verifier.path c) = true) cs ->
    Verifier.parseSourcesFromMarkdown (Verifier.formatSources cs) = []
    /\ (Verifier.parseSourcesFromMarkdown (Verifier.formatSources cs) = cs <-> cs = []).
Proof.
  intros cs H.
  assert (E : Verifier.parseSourcesFromMarkdown (Verifier.formatSources cs) = []).
  { unfold Verifier.parseSourcesFromMarkdown.
    destruct (sourcesSection (Verifier.formatSources cs)) as [body|] eqn:Es; [|reflexivity].
    unfold citations. rewrite execAll_needs_backtick; [reflexivity|].
    eapply sourcesSection_every; [exact Es|]. apply formatSources_no_backtick, H. }
  split; [exact E|]. rewrite E. split; intro; subst; congruence.
Qed.

(** C3 at the two citations of the repository's own test of [formatSources]. *)
Lemma C3_parse_of_format_witness :
  Verifier.parseSourcesFromMarkdown
    (Verifier.formatSources
       [Verifier.mkSource "src/index.ts" 10 25; Verifier.mkSource "src/utils.ts" 1 15])
  = [].
Proof.
  apply (C3_parse_of_format_is_empty
           [Verifier.mkSource "src/index.ts" 10 25; Verifier.mkSource "src/utils.ts" 1 15]).
  repeat constructor.
Defined.

(** C3 as stated fails: one well-formed citation is rendered as
    "- a.ts:1-2" and parsed back as the empty list. *)
Lemma C3_round_trip_loses_citations :
  1 <= Verifier.startLine (Verifier.mkSource "a.ts" 1 2)
  /\ Verifier.startLine (Verifier.mkSource "a.ts" 1 2)
     <= Verifier.endLine (Verifier.mkSource "a.ts" 1 2)
  /\ Verifier.formatSources [Verifier.mkSource "a.ts" 1 2] = "- a.ts:1-2"
  /\ Verifier.parseSourcesFromMarkdown (Verifier.formatSources [Verifier.mkSource "a.ts" 1 2])
     = []
  /\ List.length
       (Verifier.parseSourcesFromMarkdown
          (Verifier.formatSources [Verifier.mkSource "a.ts" 1 2])) = 0%nat
  /\ List.length [Verifier.mkSource "a.ts" 1 2] = 1%nat.
Proof. repeat split; try reflexivity; simpl; lia. Qed.

End CitationFacts.

(* ------------------------------------------------------------------ *)
(** ** The tool registry *)
(* ------------------------------------------------------------------ *)

Module RegistryFacts.
Import Js Tools StringFacts.

Lemma mapGet_none_iff :
  forall (V : Type) (k : string) (m : list (string * V)),
    mapGet k m = None <-> ~ In k (map fst m).
Proof.
  induction m as [|[k' v] m IH]; simpl; [tauto|].
  destruct (String.eqb_spec k' k) as [->|Hne].
  - split; [discriminate | intros H; exfalso; apply H; left; reflexivity].
  - rewrite IH. tauto.
Qed.

(** Every path through [executeToolCall] ends in a result. *)
Lemma executeToolCall_returns :
  forall w reg n payload, exists r, executeToolCall w reg n payload = inr r.
Proof.
  intros w reg n payload. unfold executeToolCall.
  destruct (mapGet n (tools reg)) as [tool|]; [|eexists; reflexivity].
  destruct (parseArgs w payload) as [e|args]; [eexists; reflexivity|].
  destruct (Zod.safeParse (schema tool) args) as [issues|v]; [eexists; reflexivity|].
  destruct (handler tool v (context reg)); eexists; reflexivity.
Qed.



(** The schema of [get_excerpt] refuses [startLine = 0]: the call fails in
    validation and the handler is not run. *)
Lemma get_excerpt_refuses_line_zero :
  executeToolCall Examples.world (createToolRegistry Examples.world "/tmp/repo" None)
    "get_excerpt"
    (ArgObject (Json.JObj [("path", Json.JStr "foo.ts"); ("startLine", Json.ofZ 0);
                           ("endLine", Json.ofZ 3)]))
  = inr (mkToolResult false DNull
           ("Invalid arguments for " ++ dquote ++ "get_excerpt" ++ dquote
              ++ ": startLine: Number must be greater than or equal to 1")
           (Some "Validation failed: startLine: Number must be greater than or equal to 1")).
Proof. vm_compute. reflexivity. Qed.

(** An unknown tool is answered with the names of the five built-in tools. *)
Lemma unknown_tool_lists_the_registry :
  executeToolCall Examples.world (createToolRegistry Examples.world "/tmp/repo" None)
    "frobnicate" (ArgString "{}")
  = inr (mkToolResult false DNull
           ("Unknown tool: " ++ dquote ++ "frobnicate" ++ dquote
              ++ ". Available tools: search_chunks, get_excerpt, graph_neighbors, list_files, get_repo_summary")
           (Some "Unknown tool: frobnicate")).
Proof. vm_compute. reflexivity. Qed.

End RegistryFacts.

(* ------------------------------------------------------------------ *)
(** ** Search over the index *)
(* ------------------------------------------------------------------ *)

Module SearchFacts.
Import Js Indexer StringFacts.









End SearchFacts.

(* ------------------------------------------------------------------ *)
(** ** The agent loop *)
(* ------------------------------------------------------------------ *)

Module LoopFacts.
Import Js Loop.

Lemma checkCitation_well_formed :
  forall m, Forall Verifier.wellFormed (snd (checkCitation m)).
Proof.
  intros m. unfold checkCitation.
  destruct ((Regex.capPath m =? "")%string || _ || _); [constructor|].
  destruct (parseInt (Regex.capStart m)) as [a|]; [|constructor].
  destruct (parseInt (Regex.capEnd m)) as [b|]; [|constructor].
  destruct ((a <? 1) || (b <? a)) eqn:E; [constructor|].
  apply orb_false_elim in E. destruct E as [E1 E2].
  apply Z.ltb_ge in E1, E2. repeat constructor; cbn; lia.
Qed.

Lemma verifySourcesInAnswer_well_formed :
  forall md root,
    Forall Verifier.wellFormed (SourceVerificationResult.sources (verifySourcesInAnswer md root))
    /\ (SourceVerificationResult.valid (verifySourcesInAnswer md root) = true ->
        SourceVerificationResult.sources (verifySourcesInAnswer md root) <> []).
Proof.
  intros md root. unfold verifySourcesInAnswer.
  destruct (Regex.sourcesSection md) as [section|]; [|split; [constructor | discriminate]].
  cbn [SourceVerificationResult.sources SourceVerificationResult.valid]. split.
  - induction (Regex.citations section) as [|m ms IH]; [constructor|].
    cbn [map flat_map]. apply Forall_app. split; [apply checkCitation_well_formed | exact IH].
  - destruct (Regex.citations section) as [|m ms] eqn:Ec.
    + cbn. discriminate.
    + rewrite <- Ec.
      destruct (flat_map fst (map checkCitation (Regex.citations section))); [|discriminate].
      destruct (flat_map snd (map checkCitation (Regex.citations section))); [|discriminate].
      cbn. discriminate.
Qed.

Section Facts.

Context {S : Type}.
Variable w : Tools.World.
Variable config : AgentLoopConfig.t S.

Lemma runToolCall_effect :
  forall (st : State.t S) c,
  exists st' s,
    runToolCall w config st c = inr st'
    /\ sameControl st st'
    /\ State.steps st' = (State.steps st ++ [s])%list
    /\ State.trace st' = (State.trace st ++ [ToolExec (State.currentStep st) c])%list.
Proof.
  intros st c. unfold runToolCall.
  destruct (RegistryFacts.executeToolCall_returns w (toolRegistry w config) (ToolCallResult.name c)
              (Tools.ArgString (ToolCallResult.argumentsJson c))) as [r ->].
  destruct (Tools.success r); eexists _, _; (split; [reflexivity|]);
    repeat split; reflexivity.
Qed.

Lemma runToolCalls_effect :
  forall calls (st : State.t S),
  exists st' new,
    runToolCalls w config st calls = (st', None)
    /\ sameControl st st'
    /\ State.steps st' = (State.steps st ++ new)%list
    /\ List.length new = List.length calls
    /\ State.trace st' = (State.trace st ++ map (ToolExec (State.currentStep st)) calls)%list.
Proof.
  induction calls as [|c calls IH]; intros st.
  - exists st, []. cbn [runToolCalls map]. rewrite !app_nil_r.
    repeat split; reflexivity.
  - cbn [runToolCalls].
    destruct (runToolCall_effect st c) as (st1 & s & -> & Hc1 & Hs1 & Ht1).
    destruct (IH st1) as (st2 & new & -> & Hc2 & Hs2 & Hl2 & Ht2).
    exists st2, (s :: new). split; [reflexivity|].
    destruct Hc1 as (C1 & C2 & C3 & C4 & C5 & C6).
    destruct Hc2 as (D1 & D2 & D3 & D4 & D5 & D6).
    repeat split; try congruence.
    + rewrite Hs2, Hs1, <- app_assoc. reflexivity.
    + simpl. congruence.
    + rewrite Ht2, Ht1, C1, <- app_assoc. reflexivity.
Qed.

Lemma parseResponse_error_message :
  forall content calls,
    ParsedLLMResponse.type (parseResponse content calls) = ResponseType.error ->
    ParsedLLMResponse.error (parseResponse content calls) = Some neitherMessage.
Proof.
  intros content calls. unfold parseResponse.
  destruct calls as [[|c l]|]; try (cbn; discriminate);
    destruct content as [[|a r]|]; try reflexivity;
    destruct (doneMatch (String a r)); try (cbn; discriminate);
    destruct (includes (String a r) "## Sources" && includes (String a r) bt);
    cbn; (discriminate || reflexivity).
Qed.

Ltac leaf_tail :=
  split;
  [ first [ left; cbn; repeat split; reflexivity
          | right; split; [reflexivity | first [ left; cbn; assumption | right; cbn; discriminate ]] ]
  | cbn; rewrite ?app_nil_r; repeat split; auto; cbn; lia ].

Ltac leaf :=
  first [ eexists _, (@nil StepLog.t), (@nil ToolCallResult.t); leaf_tail
        | eexists _, [_], (@nil ToolCallResult.t); leaf_tail ].

(** The responses that [parseResponse] classifies as an error: no tool
    call, and a text that is empty, or that neither starts with the DONE
    marker nor holds a Sources header and a backtick. *)
Lemma parseResponse_neither_iff :
  forall content calls,
    ParsedLLMResponse.type (parseResponse content calls) = ResponseType.error
    <-> (calls = None \/ calls = Some [])
        /\ match content with
           | Some (String a r) =>
               doneMatch (String a r) = None
               /\ includes (String a r) "## Sources" && includes (String a r) bt = false
           | _ => True
           end.
Proof.
  intros content calls. unfold parseResponse.
  destruct calls as [[|c l]|].
  2: { cbn. split; [discriminate | intros [[H|H] _]; discriminate]. }
  all: destruct content as [[|a r]|]; cbn [ParsedLLMResponse.type]; try (split; auto; fail).
  all: destruct (doneMatch (String a r)) as [body|]; cbn [ParsedLLMResponse.type].
  all: try (split; [discriminate | intros [_ [H _]]; discriminate]).
  all: destruct (includes (String a r) "## Sources" && includes (String a r) bt); cbn [ParsedLLMResponse.type].
  all: try (split; [discriminate | intros [_ [_ H]]; discriminate]).
  all: split; auto.
Qed.

(** What one iteration does to the state. *)
Lemma iteration_effect :
  forall st : State.t S,
  exists st' new calls,
    (iteration w config st = Continue st'
     /\ State.verified st' = State.verified st /\ State.error st' = State.error st
     /\ State.finalAnswer st' = State.finalAnswer st
     \/ iteration w config st = Break st'
        /\ (State.verified st' = true \/ State.error st' <> None))
    /\ State.currentStep st' = State.currentStep st + 1
    /\ State.steps st' = (State.steps st ++ new)%list
    /\ (List.length new <= Nat.max 1 (List.length calls))%nat
    /\ State.trace st'
       = (State.trace st ++ LoopChat (State.currentStep st + 1) (loopRequest w config st)
            :: map (ToolExec (State.currentStep st + 1)) calls)%list
    /\ (calls = []
        \/ exists resp p',
             chat (AgentLoopConfig.llmProvider config) (State.provider st) (loopRequest w config st) = (inr resp, p')
             /\ ChatResponse.toolCalls resp = Some calls).
Proof.
  intros st. unfold iteration.
  change (loopRequest w config (setStep (State.currentStep st + 1) st)) with (loopRequest w config st).
  cbn [State.provider setStep].
  destruct (chat (AgentLoopConfig.llmProvider config) (State.provider st) (loopRequest w config st))
    as [[err|[text tc]] p'] eqn:Hchat.
  - (* the provider raised *)
    eexists _, _, []. split; [right; split; [reflexivity | right; discriminate]|].
    cbn. repeat split; auto.
  - cbn [ChatResponse.assistantText ChatResponse.toolCalls]. unfold parseResponse.
    destruct tc as [[|c l]|].
    2: { (* tool calls *)
      cbn [ParsedLLMResponse.type ParsedLLMResponse.toolCalls ParsedLLMResponse.rawContent].
      match goal with |- context [runToolCalls w config ?s ?cs] =>
        destruct (runToolCalls_effect cs s) as (st2 & new & -> & Hc & Hs & Hl & Ht) end.
      destruct Hc as (C1 & C2 & C3 & C4 & C5 & C6).
      exists st2, new, (c :: l). cbn in *.
      split; [left; repeat split; congruence|].
      repeat split; try congruence.
      + rewrite Hl. lia.
      + rewrite Ht. rewrite <- app_assoc. reflexivity.
      + right. exists (ChatResponse.mk text (Some (c :: l))), p'. split; reflexivity. }
    all: destruct text as [[|a r]|]; [leaf | | leaf].
    all: destruct (doneMatch (String a r)) as [body|].
    all: try (destruct (includes (String a r) "## Sources" && includes (String a r) bt);
              [|leaf]).
    all: cbn [ParsedLLMResponse.type ParsedLLMResponse.toolCalls ParsedLLMResponse.answerMd ParsedLLMResponse.rawContent].
    all: try (destruct (trim body) as [|a' r']; [leaf|]).
    all: match goal with |- context [verifySourcesInAnswer ?x ?y] =>
           destruct (SourceVerificationResult.valid (verifySourcesInAnswer x y)) eqn:Hv end.
    all: leaf.
Qed.


(** An iteration keeps [sourcesChecked], and goes on only unverified. *)
Lemma iteration_sourcesChecked :
  forall st st' : State.t S,
    sourcesChecked st -> State.verified st = false ->
    iteration w config st = Continue st' \/ iteration w config st = Break st' ->
    sourcesChecked st' /\ (iteration w config st = Continue st' -> State.verified st' = false).
Proof.
  intros st st' Hs Hv. unfold iteration.
  change (loopRequest w config (setStep (State.currentStep st + 1) st)) with (loopRequest w config st).
  cbn [State.provider setStep].
  destruct (chat (AgentLoopConfig.llmProvider config) (State.provider st) (loopRequest w config st))
    as [[err|[text tc]] p'].
  - intros [H|H]; inversion H; subst. split; [exact Hs | discriminate].
  - cbn [ChatResponse.assistantText ChatResponse.toolCalls]. unfold parseResponse.
    destruct tc as [[|c l]|].
    2: { cbn [ParsedLLMResponse.type ParsedLLMResponse.toolCalls ParsedLLMResponse.rawContent].
         match goal with |- context [runToolCalls w config ?s ?cs] =>
           destruct (runToolCalls_effect cs s) as (st2 & new & -> & Hc & _) end.
         destruct Hc as (C1 & C2 & C3 & C4 & C5 & C6). cbn in C3, C4.
         intros [H|H]; inversion H; subst. unfold sourcesChecked. rewrite C3, C4.
         split; [exact Hs | intros _; exact Hv]. }
    all: destruct text as [[|a r]|].
    all: try destruct (doneMatch (String a r)) as [body|].
    all: try destruct (includes (String a r) "## Sources" && includes (String a r) bt).
    all: cbn [ParsedLLMResponse.type ParsedLLMResponse.toolCalls ParsedLLMResponse.answerMd ParsedLLMResponse.rawContent].
    all: try (destruct (trim body) as [|a' r']).
    all: try match goal with |- context [verifySourcesInAnswer ?x ?y] =>
           pose proof (verifySourcesInAnswer_well_formed x y) as Hwf;
           destruct (SourceVerificationResult.valid (verifySourcesInAnswer x y)) eqn:Hvalid end.
    all: intros [H|H]; inversion H; subst; clear H.
    all: try (split; [exact Hs | first [discriminate | intros _; exact Hv]]).
    all: split; [|discriminate].
    all: destruct Hwf as [W1 W2]; split; cbn; [exact W1 | intros _; apply W2; reflexivity].
Qed.
Lemma whileLoop_total :
  forall fuel (st : State.t S),
    (Z.to_nat (maxSteps config - State.currentStep st) <= fuel)%nat ->
    exists st', whileLoop w config fuel st = Some st'.
Proof.
  induction fuel as [|fuel IH]; intros st Hfuel; cbn [whileLoop];
    destruct (State.currentStep st <? maxSteps config) eqn:E;
    try (eexists; reflexivity); apply Z.ltb_lt in E; [lia|].
  destruct (iteration_effect st) as (st' & new & calls & Hit & Hstep & _).
  destruct Hit as [(-> & _) | (-> & _)]; [|eexists; reflexivity].
  apply IH. lia.
Qed.

(** A property that every iteration keeps holds when the loop is left. *)
Lemma whileLoop_invariant :
  forall P : State.t S -> Prop,
    (forall st st',
        P st -> State.currentStep st < maxSteps config ->
        iteration w config st = Continue st' \/ iteration w config st = Break st' ->
        P st') ->
    forall fuel st st', P st -> whileLoop w config fuel st = Some st' -> P st'.
Proof.
  intros P Hstep. induction fuel as [|fuel IH]; intros st st' HP H; cbn [whileLoop] in H;
    destruct (State.currentStep st <? maxSteps config) eqn:E;
    try (inversion H; subst; exact HP); try discriminate.
  apply Z.ltb_lt in E.
  destruct (iteration w config st) as [st1|st1] eqn:Hit.
  - eapply IH; [|exact H]. eapply Hstep; [exact HP | exact E | left; exact Hit].
  - inversion H; subst. eapply Hstep; [exact HP | exact E | right; exact Hit].
Qed.


Lemma afterLoop_steps :
  forall st : State.t S, State.steps (afterLoop config st) = State.steps st.
Proof.
  intros st. unfold afterLoop.
  destruct (negb (State.verified st) && _); [|reflexivity].
  destruct (maxSteps config <=? State.currentStep st); [|reflexivity].
  assert (H : State.steps (forcedCall config st) = State.steps st).
  { unfold forcedCall. cbn [State.provider pushMessage].
    destruct (chat (AgentLoopConfig.llmProvider config) (State.provider st) (forcedRequest config st))
      as [[e|resp] p']; [reflexivity|].
    destruct (truthy (ChatResponse.assistantText resp)); [|reflexivity].
    destruct (truthy (ParsedLLMResponse.answerMd (parseResponse (ChatResponse.assistantText resp) None))); reflexivity. }
  destruct (negb (truthy (State.finalAnswer (forcedCall config st)))); cbn; exact H.
Qed.

Lemma whileLoop_sourcesChecked :
  forall fuel (st st' : State.t S),
    sourcesChecked st -> State.verified st = false ->
    whileLoop w config fuel st = Some st' -> sourcesChecked st'.
Proof.
  induction fuel as [|fuel IH]; intros st st' Hs Hv H; cbn [whileLoop] in H;
    destruct (State.currentStep st <? maxSteps config);
    try (inversion H; subst; exact Hs); try discriminate.
  destruct (iteration w config st) as [st1|st1] eqn:Hit.
  - destruct (iteration_sourcesChecked st st1 Hs Hv (or_introl Hit)) as [H1 H2].
    eapply IH; [exact H1 | apply H2, Hit | exact H].
  - inversion H; subst.
    apply (iteration_sourcesChecked st st' Hs Hv (or_intror Hit)).
Qed.

Lemma afterLoop_sourcesChecked :
  forall st : State.t S, sourcesChecked st -> sourcesChecked (afterLoop config st).
Proof.
  intros st Hs. unfold afterLoop.
  destruct (negb (State.verified st) && _); [|exact Hs].
  destruct (maxSteps config <=? State.currentStep st); [|exact Hs].
  assert (H : sourcesChecked (forcedCall config st)).
  { unfold forcedCall. cbn [State.provider pushMessage].
    destruct (chat (AgentLoopConfig.llmProvider config) (State.provider st) (forcedRequest config st))
      as [[e|resp] p']; [exact Hs|].
    destruct (truthy (ChatResponse.assistantText resp)); [|exact Hs].
    destruct (truthy (ParsedLLMResponse.answerMd (parseResponse (ChatResponse.assistantText resp) None))); [|exact Hs].
    match goal with |- context [verifySourcesInAnswer ?x ?y] =>
      destruct (verifySourcesInAnswer_well_formed x y) as [W1 W2] end.
    split; cbn; assumption. }
  destruct (negb (truthy (State.finalAnswer (forcedCall config st)))); exact H.
Qed.

(** What [verified = true] does stand for: the citations returned have the
    shape [1 <= startLine <= endLine], and there is at least one.  Nothing
    is said of the files. *)
Lemma verified_sources_well_formed :
  forall (p0 : S) (run : Run),
    runAgent w config p0 = Some run ->
    Forall Verifier.wellFormed (AgentLoopResult.sources (result run))
    /\ (AgentLoopResult.verified (result run) = true -> AgentLoopResult.sources (result run) <> []).
Proof.
  intros p0 run H. unfold runAgent in H.
  destruct (whileLoop w config (Z.to_nat (maxSteps config)) (initialState w config p0))
    as [st|] eqn:Hloop; [|discriminate].
  inversion H; subst. cbn [result finish AgentLoopResult.sources AgentLoopResult.verified].
  apply afterLoop_sourcesChecked.
  eapply whileLoop_sourcesChecked; [| |exact Hloop]; [split; [constructor | discriminate] | reflexivity].
Qed.

(** C5, as the code has it.  The run always returns, and the step log has
    one entry per executed tool call and one per answer, error or unexpected
    turn: when no response of the provider carries more than [k >= 1] tool
    calls, [0 <= steps.length <= k * maxSteps]; with at most one tool call
    per response, [steps.length <= maxSteps].  The forced-termination turn
    adds no entry. *)
Theorem C5_steps_bound :
  forall (p0 : S) (k : Z),
    1 <= k ->
    (forall ps req resp ps' calls,
        chat (AgentLoopConfig.llmProvider config) ps req = (inr resp, ps') ->
        ChatResponse.toolCalls resp = Some calls ->
        Z.of_nat (List.length calls) <= k) ->
    exists run,
      runAgent w config p0 = Some run
      /\ 0 <= Z.of_nat (List.length (AgentLoopResult.steps (result run)))
      /\ Z.of_nat (List.length (AgentLoopResult.steps (result run))) <= k * Z.max 0 (maxSteps config)
      /\ (k = 1 -> 0 <= maxSteps config ->
          Z.of_nat (List.length (AgentLoopResult.steps (result run))) <= maxSteps config).
Proof.
  intros p0 k Hk Hcalls. unfold runAgent.
  destruct (whileLoop_total (Z.to_nat (maxSteps config)) (initialState w config p0))
    as [st Hloop]; [cbn; lia|].
  rewrite Hloop. eexists. split; [reflexivity|].
  cbn [result finish AgentLoopResult.steps]. rewrite afterLoop_steps.
  assert (Hinv : Z.of_nat (List.length (State.steps st)) <= k * State.currentStep st
                 /\ 0 <= State.currentStep st <= Z.max 0 (maxSteps config)).
  { refine (whileLoop_invariant
              (fun st => Z.of_nat (List.length (State.steps st)) <= k * State.currentStep st
                         /\ 0 <= State.currentStep st <= Z.max 0 (maxSteps config))
              _ _ _ _ _ Hloop); [|cbn; lia].
    intros s s' (Hlen & Hcur) Hlt Hit.
    destruct (iteration_effect s) as (s1 & new & calls & Hit1 & Hstep & Hsteps & Hnew & _ & Hfrom).
    assert (s1 = s') as ->.
    { destruct Hit1 as [(E1 & _) | (E1 & _)]; destruct Hit as [E2 | E2]; congruence. }
    rewrite Hsteps, length_app, Hstep.
    assert (Z.of_nat (List.length new) <= k).
    { destruct Hfrom as [-> | (resp & p' & Hc & Hr)].
      - simpl in Hnew. lia.
      - pose proof (Hcalls _ _ _ _ _ Hc Hr). lia. }
    lia. }
  destruct Hinv as (Hlen & Hcur). repeat split; try lia; nia.
Qed.


Lemma forcedCall_trace :
  forall st : State.t S,
    State.trace (forcedCall config st) = (State.trace st ++ [ForcedChat (forcedRequest config st)])%list.
Proof.
  intros st. unfold forcedCall. cbn [State.provider pushMessage].
  destruct (chat (AgentLoopConfig.llmProvider config) (State.provider st) (forcedRequest config st))
    as [[e|resp] p']; [reflexivity|].
  destruct (truthy (ChatResponse.assistantText resp)); [|reflexivity].
  destruct (truthy (ParsedLLMResponse.answerMd (parseResponse (ChatResponse.assistantText resp) None))); reflexivity.
Qed.

Lemma afterLoop_trace :
  forall st : State.t S,
    State.trace (afterLoop config st) = State.trace st
    \/ State.trace (afterLoop config st) = (State.trace st ++ [ForcedChat (forcedRequest config st)])%list
       /\ maxSteps config <= State.currentStep st.
Proof.
  intros st. unfold afterLoop.
  destruct (negb (State.verified st) && _); [|left; reflexivity].
  destruct (maxSteps config <=? State.currentStep st) eqn:E; [|left; reflexivity].
  right. split; [|apply Z.leb_le, E].
  destruct (negb (truthy (State.finalAnswer (forcedCall config st)))); cbn; apply forcedCall_trace.
Qed.

(** One element after a list, read as a list around one element. *)
Lemma last_element_split :
  forall (A : Type) (l pre post : list A) (x y : A),
    (l ++ [x] = pre ++ y :: post)%list ->
    (post = [] /\ x = y /\ pre = l) \/ In y l.
Proof.
  intros A l pre post x y H. destruct post as [|z post] using rev_ind.
  - apply app_inj_tail in H. destruct H as [-> ->]. left. repeat split.
  - clear IHpost. right.
    replace (pre ++ y :: post ++ [z])%list with ((pre ++ y :: post) ++ [z])%list in H
      by (rewrite <- app_assoc; reflexivity).
    apply app_inj_tail in H. destruct H as [-> _]. apply in_elt.
Qed.







(** C9, as the code has it.  While budget remains, a response that
    [parseResponse] classifies as neither tool calls nor an answer ends the
    loop at once: no step is recorded, the provider is not called again, and
    the run returns with the error "LLM response was neither a tool call nor a
    valid DONE answer".  A response is recorded as unexpected content, and the
    loop goes on, only when it is classified [done] with an empty answer. *)
Theorem C9_neither_response_ends_the_run :
  forall (st : State.t S) (resp : ChatResponse.t) (p' : S),
    State.currentStep st < maxSteps config ->
    chat (AgentLoopConfig.llmProvider config) (State.provider st) (loopRequest w config st) = (inr resp, p') ->
    let parsed := parseResponse (ChatResponse.assistantText resp) (ChatResponse.toolCalls resp) in
    (ParsedLLMResponse.type parsed = ResponseType.error ->
     exists st',
       iteration w config st = Break st'
       /\ (forall fuel, whileLoop w config (Datatypes.S fuel) st = Some st')
       /\ State.steps st' = State.steps st
       /\ State.messages st' = State.messages st
       /\ State.error st' = Some neitherMessage
       /\ State.currentStep st' = State.currentStep st + 1
       /\ State.trace st'
          = (State.trace st ++ [LoopChat (State.currentStep st + 1) (loopRequest w config st)])%list
       /\ finish (afterLoop config st')
          = mkRun
              (AgentLoopResult.mk (orDefault (State.finalAnswer st) "No answer generated") (State.steps st)
                 (State.verifiedSources st) (State.verified st) (Some neitherMessage))
              (State.trace st'))
    /\ (ParsedLLMResponse.type parsed = ResponseType.done -> truthy (ParsedLLMResponse.answerMd parsed) = false ->
        exists st' s,
          iteration w config st = Continue st'
          /\ State.steps st' = (State.steps st ++ [s])%list
          /\ StepLog.stepNo s = State.currentStep st + 1
          /\ StepLog.isDone s = false
          /\ StepLog.modelMessageSummary s
             = match ParsedLLMResponse.rawContent parsed with
               | Some raw => sliceStr raw 0 200
               | None => "Empty response"
               end
          /\ State.messages st' = State.messages st
          /\ State.error st' = State.error st).
Proof.
  intros st resp p' Hlt Hchat parsed. split.
  - intros Hty.
    pose proof (parseResponse_error_message _ _ Hty) as Herr. fold parsed in Herr.
    assert (Hit : iteration w config st
                  = Break (setError (Some neitherMessage)
                             (pushEvent (LoopChat (State.currentStep st + 1) (loopRequest w config st))
                                (setProvider p' (setStep (State.currentStep st + 1) st))))).
    { unfold iteration.
      change (loopRequest w config (setStep (State.currentStep st + 1) st))
        with (loopRequest w config st).
      cbn [State.provider setStep]. rewrite Hchat. fold parsed.
      rewrite Hty, Herr. reflexivity. }
    eexists. split; [exact Hit|]. split.
    + intros fuel. cbn [whileLoop]. apply Z.ltb_lt in Hlt. rewrite Hlt, Hit. reflexivity.
    + repeat split. unfold afterLoop. cbn [State.error setError]. unfold neitherMessage at 1.
      cbn [truthy negb]. rewrite andb_false_r. reflexivity.
  - intros Hty Hans.
    assert (Hit : iteration w config st
                  = Continue
                      (pushStep
                         (StepLog.mk (State.currentStep st + 1) None None None
                            (match ParsedLLMResponse.rawContent parsed with
                             | Some raw => sliceStr raw 0 200
                             | None => "Empty response"
                             end) false None None)
                         (pushEvent (LoopChat (State.currentStep st + 1) (loopRequest w config st))
                            (setProvider p' (setStep (State.currentStep st + 1) st))))).
    { unfold iteration.
      change (loopRequest w config (setStep (State.currentStep st + 1) st))
        with (loopRequest w config st).
      cbn [State.provider setStep]. rewrite Hchat. fold parsed.
      rewrite Hty. destruct (ParsedLLMResponse.answerMd parsed) as [[|a r]|]; try reflexivity.
      discriminate Hans. }
    eexists _, _. split; [exact Hit|]. repeat split.
Qed.
End Facts.

(** The first end-to-end scenario of the specification: one excerpt, then an
    answer that cites it. *)
Lemma scenario_happy_path :
  option_map
    (fun run => (AgentLoopResult.verified (result run), AgentLoopResult.sources (result run), List.length (AgentLoopResult.steps (result run)),
                 AgentLoopResult.error (result run)))
    (runAgent Examples.world (Examples.configOf 8)
       [Examples.calls [Examples.callExcerpt "c1"]; Examples.says Examples.answerCitingFoo])
  = Some (true, [Verifier.mkSource "foo.ts" 1 5], 2%nat, None).
Proof. vm_compute. reflexivity. Qed.

(** C1 at its failing input.  The repository /tmp/repo holds foo.ts only;
    the provider answers at once and cites lines 1-2 of missing.ts.  The run
    returns [verified = true] with that citation, which names no file of the
    repository: [verifySourcesInAnswer] checks the shape of a citation and
    never consults the file system. *)
Theorem C1_unchecked_citation_is_verified :
  option_map (fun run => (AgentLoopResult.verified (result run), AgentLoopResult.sources (result run)))
    (runAgent Examples.world (Examples.configOf 8)
       [Examples.says Examples.answerCitingMissing])
  = Some (true, [Verifier.mkSource "missing.ts" 1 2])
  /\ Fs.existsSync Examples.os (NodePath.join ["/tmp/repo"; "missing.ts"]) = false
  /\ Examples.pointsIntoRepository Examples.os "/tmp/repo"
       (Verifier.mkSource "missing.ts" 1 2) = false
  /\ Verifier.valid
       (Verifier.verifyMarkdownSources Examples.os
          ("Answer." ++ nl ++ nl ++ "## Sources" ++ nl ++ "- `missing.ts`:1-2") "/tmp/repo")
     = false.
Proof. repeat split; vm_compute; reflexivity. Qed.

(** C5 as stated fails: with [maxSteps = 1], a response that carries three
    tool calls leaves three entries in the step log, more than
    [maxSteps + 1]. *)
Lemma C5_three_calls_in_one_turn :
  option_map (fun run => Z.of_nat (List.length (AgentLoopResult.steps (result run))))
    (runAgent Examples.world (Examples.configOf 1)
       [Examples.calls [Examples.callExcerpt "c1"; Examples.callExcerpt "c2";
                        Examples.callExcerpt "c3"];
        Examples.says "I do not know"])
  = Some 3
  /\ maxSteps (Examples.configOf 1) = 1
  /\ (3 <=? 1 + 1) = false.
Proof. repeat split; vm_compute; reflexivity. Qed.

(** C5 for a provider that asks for one excerpt and then answers, with a
    budget of eight steps. *)
Lemma C5_steps_bound_witness :
  exists run,
    runAgent Examples.world (Examples.countingConfig 8) 0%nat = Some run
    /\ 0 <= Z.of_nat (List.length (AgentLoopResult.steps (result run)))
    /\ Z.of_nat (List.length (AgentLoopResult.steps (result run)))
       <= 1 * Z.max 0 (maxSteps (Examples.countingConfig 8))
    /\ (1 = 1 -> 0 <= maxSteps (Examples.countingConfig 8) ->
        Z.of_nat (List.length (AgentLoopResult.steps (result run)))
        <= maxSteps (Examples.countingConfig 8)).
Proof.
  apply (C5_steps_bound Examples.world (Examples.countingConfig 8) 0%nat 1).
  - lia.
  - intros ps req resp ps' calls Hchat Hcalls.
    destruct ps; cbn in Hchat; inversion Hchat; subst; cbn in Hcalls;
      inversion Hcalls; subst; cbn; lia.
Defined.



(** C9 as stated fails: with a budget of two steps, a first response that is
    plain text ends the run.  No step is recorded, the provider is called
    once - the answer it had ready for a second turn is never asked for - and
    the run returns the error of [parseResponse]. *)
Lemma C9_plain_text_ends_the_run :
  ParsedLLMResponse.type (parseResponse (Some "Hello") None) = ResponseType.error
  /\ option_map
       (fun run => (AgentLoopResult.steps (result run), AgentLoopResult.error (result run), AgentLoopResult.verified (result run),
                    List.length (events run)))
       (runAgent Examples.world (Examples.configOf 2)
          [Examples.says "Hello"; Examples.says Examples.answerCitingFoo])
     = Some ([], Some "LLM response was neither a tool call nor a valid DONE answer",
             false, 1%nat).
Proof. repeat split; vm_compute; reflexivity. Qed.

(** C9 at the first turn of a run whose provider says "Hello". *)
Lemma C9_neither_response_witness :
  exists st',
    iteration Examples.world (Examples.configOf 2)
      (initialState Examples.world (Examples.configOf 2)
         [Examples.says "Hello"; Examples.says Examples.answerCitingFoo])
    = Break st'
    /\ State.steps st' = []
    /\ State.error st' = Some neitherMessage
    /\ State.currentStep st' = 1.
Proof.
  destruct (proj1
              (C9_neither_response_ends_the_run Examples.world (Examples.configOf 2)
                 (initialState Examples.world (Examples.configOf 2)
                    [Examples.says "Hello"; Examples.says Examples.answerCitingFoo])
                 (ChatResponse.mk (Some "Hello") None)
                 [Examples.says Examples.answerCitingFoo]
                 eq_refl eq_refl)
              eq_refl)
    as (st' & Hit & _ & Hsteps & _ & Herr & Hstep & _).
  exists st'. repeat split; assumption.
Defined.

End LoopFacts.

(* ------------------------------------------------------------------ *)
(** ** Acceptance by the verifier *)
(* ------------------------------------------------------------------ *)

Module VerifierFacts.
Import Js Verifier.

Lemma flat_map_nil_iff :
  forall (A B : Type) (f : A -> list B) l,
    flat_map f l = [] <-> Forall (fun x => f x = []) l.
Proof.
  induction l as [|x l IH]; simpl.
  - split; [constructor | reflexivity].
  - split.
    + intros H. apply app_eq_nil in H as [H1 H2]. constructor; [assumption | now apply IH].
    + intros H. inversion H; subst. rewrite H2. simpl. now apply IH.
Qed.

Lemma checkSource_nil_iff :
  forall os config c,
    checkSource os config c = []
    <-> path c <> ""
        /\ 1 <= startLine c <= endLine c
        /\ startsWith (NodePath.resolve (Fs.cwd os) [NodePath.join [repoPath config; path c]])
             (NodePath.resolve (Fs.cwd os) [repoPath config]) = true
        /\ exists content,
             Fs.stat os (NodePath.join [repoPath config; path c]) = Some (Fs.File content)
             /\ endLine c <= Z.of_nat (List.length (splitChar LF content)).
Proof.
  intros os config c. unfold checkSource, Fs.existsSync, Fs.readFileSync.
  destruct (path c =? "")%string eqn:Ep.
  { apply String.eqb_eq in Ep. split; [discriminate | intros [H _]; contradiction]. }
  apply String.eqb_neq in Ep.
  destruct (startLine c <? 1) eqn:E1.
  { apply Z.ltb_lt in E1. split; [discriminate | intros (_ & H & _); lia]. }
  apply Z.ltb_ge in E1.
  destruct (endLine c <? startLine c) eqn:E2.
  { apply Z.ltb_lt in E2. split; [discriminate | intros (_ & H & _); lia]. }
  apply Z.ltb_ge in E2.
  destruct (startsWith _ _) eqn:Ein; cbn [negb].
  2:{ split; [discriminate | intros (_ & _ & H & _); discriminate]. }
  destruct (Fs.stat os _) as [[content|]|] eqn:Est; cbn [negb].
  - destruct (Z.of_nat (List.length (splitChar LF content)) <? startLine c) eqn:E3;
      destruct (Z.of_nat (List.length (splitChar LF content)) <? endLine c) eqn:E4;
      cbn [app];
      try apply Z.ltb_lt in E3; try apply Z.ltb_ge in E3;
      try apply Z.ltb_lt in E4; try apply Z.ltb_ge in E4.
    + split; [discriminate | intros (_ & _ & _ & x & Hx & Hle); injection Hx as <-; lia].
    + split; [discriminate | intros (_ & _ & _ & x & Hx & Hle); injection Hx as <-; lia].
    + split; [discriminate | intros (_ & _ & _ & x & Hx & Hle); injection Hx as <-; lia].
    + split; [intros _ | reflexivity].
      repeat split; try assumption. exists content. split; [reflexivity | lia].
  - split; [discriminate | intros (_ & _ & _ & x & Hx & _); discriminate].
  - split; [discriminate | intros (_ & _ & _ & x & Hx & _); discriminate].
Qed.

Lemma verifySources_valid_checks :
  forall os sources config,
    valid (verifySources os sources config) = true ->
    Forall (fun c => checkSource os config c = []) sources.
Proof.
  intros os sources config. destruct sources as [|c l]; [constructor|].
  unfold verifySources. set (errs := flat_map (checkSource os config) (c :: l)).
  cbn [valid]. intros H.
  assert (He : errs = []) by (destruct errs; [reflexivity | discriminate]).
  now apply flat_map_nil_iff in He.
Qed.

(** X1.  [verifySources] accepts a list of citations exactly when the list is not
    empty and every citation has a path, a range [1 <= startLine <= endLine],
    a resolved path that begins with the resolved root, and names a regular
    file with at least [endLine] lines. *)
Theorem verifySources_valid_iff :
  forall (os : Fs.Os) (sources : list Source) (config : AgentConfig),
    valid (verifySources os sources config) = true
    <-> sources <> []
        /\ Forall
             (fun c =>
                path c <> ""
                /\ 1 <= startLine c <= endLine c
                /\ startsWith
                     (NodePath.resolve (Fs.cwd os) [NodePath.join [repoPath config; path c]])
                     (NodePath.resolve (Fs.cwd os) [repoPath config]) = true
                /\ exists content,
                     Fs.stat os (NodePath.join [repoPath config; path c])
                     = Some (Fs.File content)
                     /\ endLine c <= Z.of_nat (List.length (splitChar LF content)))
             sources.
Proof.
  intros os sources config. destruct sources as [|c l].
  - cbn. split; [discriminate | intros [H _]; now elim H].
  - unfold verifySources.
    set (errs := flat_map (checkSource os config) (c :: l)).
    cbn [valid]. split.
    + intros H. split; [discriminate|].
      assert (He : errs = []) by (destruct errs; [reflexivity | discriminate]).
      apply flat_map_nil_iff in He.
      eapply Forall_impl; [|exact He]. intros a Ha. now apply checkSource_nil_iff.
    + intros [_ H].
      assert (He : errs = []).
      { apply flat_map_nil_iff. eapply Forall_impl; [|exact H].
        intros a Ha. now apply checkSource_nil_iff. }
      now rewrite He.
Qed.

End VerifierFacts.

(* ------------------------------------------------------------------ *)
(** ** What the citation pattern captures *)
(* ------------------------------------------------------------------ *)

Module ParserFacts.
Import Js Regex Format.

Lemma span_every :
  forall p s a b, span p s = (a, b) -> everyChar p a = true.
Proof.
  induction s as [|c r IH]; cbn; intros a b H.
  - injection H as <- <-. reflexivity.
  - destruct (p c) eqn:E.
    + destruct (span p r) as [a' b'] eqn:Es. injection H as <- <-.
      cbn. rewrite E. eapply IH. reflexivity.
    + injection H as <- <-. reflexivity.
Qed.

Lemma citationAt_captured :
  forall s m rest, citationAt s = Some (m, rest) -> captured m.
Proof.
  intros s m rest. unfold citationAt.
  destruct s as [|c r0]; [discriminate|].
  destruct (Ascii.eqb c "-" || Ascii.eqb c "*"); [|discriminate].
  destruct (eat bt (dropSpaces r0)) as [r1|]; [|discriminate].
  destruct (span notBacktick r1) as [p r2] eqn:Ep.
  destruct (p =? "")%string eqn:Epe; [discriminate|].
  destruct (eat bt r2) as [r3|]; [|discriminate].
  destruct (eat ":" (dropSpaces r3)) as [r4|]; [|discriminate].
  destruct (span isDigit (dropSpaces r4)) as [d1 r5] eqn:E1.
  destruct (d1 =? "")%string eqn:E1e; [discriminate|].
  destruct (eat "-" (dropSpaces r5)) as [r6|]; [|discriminate].
  destruct (span isDigit (dropSpaces r6)) as [d2 r7] eqn:E2.
  destruct (d2 =? "")%string eqn:E2e; [discriminate|].
  intros H. injection H as <- <-. unfold captured. cbn.
  apply String.eqb_neq in Epe, E1e, E2e.
  repeat split; try assumption; eapply span_every; eassumption.
Qed.

Lemma execAll_captured :
  forall s skip, Forall captured (execAll skip s).
Proof.
  induction s as [|c r IH]; intros skip; cbn [execAll].
  - constructor.
  - destruct skip as [|k]; [|apply IH].
    destruct (citationAt (String c r)) as [[m rest]|] eqn:E.
    + constructor; [eapply citationAt_captured; eassumption | apply IH].
    + apply IH.
Qed.

Lemma isDigit_range :
  forall c, isDigit c = true -> exists d, 0 <= d <= 9 /\ digitVal c = d.
Proof.
  intros c H. unfold isDigit in H. unfold digitVal.
  apply andb_true_iff in H as [H1 H2].
  apply Nat.leb_le in H1, H2. eexists; split; [|reflexivity]. lia.
Qed.

Lemma isDigit_not_space : forall c, isDigit c = true -> isSpace c = false.
Proof.
  intros c H. unfold isDigit in H. unfold isSpace.
  apply andb_true_iff in H as [H1 H2]. apply Nat.leb_le in H1, H2.
  destruct (9 <=? nat_of_ascii c)%nat eqn:A; cbn.
  - replace (nat_of_ascii c <=? 13)%nat with false by (symmetry; apply Nat.leb_gt; lia).
    replace (nat_of_ascii c =? 32)%nat with false by (symmetry; apply Nat.eqb_neq; lia).
    replace (nat_of_ascii c =? 160)%nat with false by (symmetry; apply Nat.eqb_neq; lia).
    reflexivity.
  - replace (nat_of_ascii c =? 32)%nat with false by (symmetry; apply Nat.eqb_neq; lia).
    replace (nat_of_ascii c =? 160)%nat with false by (symmetry; apply Nat.eqb_neq; lia).
    reflexivity.
Qed.

Lemma digitsAcc_digits :
  forall s acc seen,
    everyChar isDigit s = true -> 0 <= acc -> (seen = true \/ s <> "") ->
    exists v, digitsAcc acc seen s = Some v /\ 0 <= v.
Proof.
  induction s as [|c r IH]; intros acc seen Hd Hacc Hs; cbn [digitsAcc].
  - destruct Hs as [-> | Hs]; [|now elim Hs]. exists acc. split; [reflexivity | assumption].
  - cbn in Hd. apply andb_true_iff in Hd as [Hc Hr]. rewrite Hc.
    destruct (isDigit_range c Hc) as (d & Hd & Hv).
    apply IH; [assumption | lia | now left].
Qed.

(** [parseInt] of a run of digits is a number, never [NaN]. *)
Lemma parseInt_digits :
  forall s, s <> "" -> everyChar isDigit s = true -> exists v, parseInt s = Some v /\ 0 <= v.
Proof.
  intros s Hne Hd. destruct s as [|c r]; [now elim Hne|].
  pose proof Hd as Hd'. cbn in Hd'. apply andb_true_iff in Hd' as [Hc Hr].
  unfold parseInt. cbn [dropSpaces]. rewrite (isDigit_not_space c Hc).
  assert (Hm : c <> "-"%char /\ c <> "+"%char).
  { split; intros ->; discriminate Hc. }
  destruct Hm as [Hm Hp].
  assert (G : exists v, digitsAcc 0 false (String c r) = Some v /\ 0 <= v).
  { apply digitsAcc_digits; [assumption | lia | right; discriminate]. }
  destruct c as [[] [] [] [] [] [] [] []]; try exact G; first [now elim Hm | now elim Hp].
Qed.


Lemma sourceOfCitation_captured :
  forall m, captured m ->
    exists s e, parseInt (capStart m) = Some s /\ parseInt (capEnd m) = Some e
                /\ 0 <= s /\ 0 <= e
                /\ Verifier.sourceOfCitation m = [Verifier.mkSource (capPath m) s e].
Proof.
  intros m (Hp & Hs & Hsd & He & Hed).
  destruct (parseInt_digits _ Hs Hsd) as (s & Es & Hs0).
  destruct (parseInt_digits _ He Hed) as (e & Ee & He0).
  exists s, e. unfold Verifier.sourceOfCitation. rewrite Es, Ee. repeat split; assumption.
Qed.

(** On citations whose ranges are well formed the loop's check and the
    parser of verifier.ts produce the same list, and the loop reports no
    error. *)
Lemma checked_like_parsed :
  forall found,
    Forall captured found ->
    Forall Verifier.wellFormed (flat_map Verifier.sourceOfCitation found) ->
    flat_map fst (map Loop.checkCitation found) = []
    /\ flat_map snd (map Loop.checkCitation found) = flat_map Verifier.sourceOfCitation found.
Proof.
  induction found as [|m l IH]; intros Hc Hw; [split; reflexivity|].
  inversion Hc as [|? ? Hm Hl]; subst.
  destruct (sourceOfCitation_captured m Hm) as (s & e & Es & Ee & Hs0 & He0 & Eq).
  cbn [flat_map map] in *. rewrite Eq in *. cbn [app] in Hw.
  inversion Hw as [|? ? Hwf Hw']; subst.
  destruct (IH Hl Hw') as [IH1 IH2]. rewrite IH1, IH2.
  destruct Hm as (Hp & Hs & _ & He & _).
  unfold Loop.checkCitation.
  apply String.eqb_neq in Hp, Hs, He. rewrite Hp, Hs, He. cbn [orb].
  rewrite Es, Ee. destruct Hwf as [W1 W2]. cbn in W1, W2.
  replace (s <? 1) with false by (symmetry; apply Z.ltb_ge; lia).
  replace (e <? s) with false by (symmetry; apply Z.ltb_ge; lia).
  cbn. split; reflexivity.
Qed.

(** X2.  Whatever [verifyMarkdownSources] (verifier.ts) accepts, the check of
    the agent loop accepts too, with the citations that
    [parseSourcesFromMarkdown] reads and no error. *)
Theorem loop_check_accepts_what_verifier_accepts :
  forall (os : Fs.Os) (answerMd repoPath repoRoot : string),
    Verifier.valid (Verifier.verifyMarkdownSources os answerMd repoPath) = true ->
    Loop.verifySourcesInAnswer answerMd repoRoot
    = Loop.SourceVerificationResult.mk true (Verifier.parseSourcesFromMarkdown answerMd) [].
Proof.
  intros os md root root' H.
  unfold Verifier.verifyMarkdownSources in H.
  destruct (Verifier.parseSourcesFromMarkdown md) as [|c l] eqn:Ep; [discriminate H|].
  rewrite <- Ep in H.
  apply VerifierFacts.verifySources_valid_checks in H.
  unfold Verifier.parseSourcesFromMarkdown in Ep, H.
  unfold Loop.verifySourcesInAnswer.
  destruct (sourcesSection md) as [section|]; [|discriminate Ep].
  assert (Hw : Forall Verifier.wellFormed (flat_map Verifier.sourceOfCitation (citations section))).
  { eapply Forall_impl; [|exact H]. intros a Ha.
    apply VerifierFacts.checkSource_nil_iff in Ha as (_ & Hr & _).
    unfold Verifier.wellFormed. lia. }
  destruct (checked_like_parsed (citations section) (execAll_captured _ _) Hw) as [E1 E2].
  rewrite E1, E2.
  destruct (citations section) as [|m ms] eqn:Ec; [discriminate Ep|].
  rewrite Ep. reflexivity.
Qed.

Lemma loop_check_accepts_what_verifier_accepts_witness :
  Loop.verifySourcesInAnswer ("## Sources" ++ nl ++ "- `foo.ts`:1-5") "/tmp/repo"
  = Loop.SourceVerificationResult.mk true
      (Verifier.parseSourcesFromMarkdown ("## Sources" ++ nl ++ "- `foo.ts`:1-5")) [].
Proof.
  apply (loop_check_accepts_what_verifier_accepts Examples.os _ "/tmp/repo" "/tmp/repo").
  vm_compute. reflexivity.
Defined.

End ParserFacts.

(* ------------------------------------------------------------------ *)
(** ** Decimal numbers *)
(* ------------------------------------------------------------------ *)

Module NumberFacts.
Import Js Format.











End NumberFacts.

(* ------------------------------------------------------------------ *)
(** ** The answer format of the prompts *)
(* ------------------------------------------------------------------ *)

Module FormatFacts.
Import Js Regex Format NumberFacts.

Lemma length_append :
  forall a b, String.length (a ++ b) = (String.length a + String.length b)%nat.
Proof. induction a; intros; cbn; [reflexivity | now rewrite IHa]. Qed.

Lemma everyChar_impl :
  forall (p q : ascii -> bool) s,
    (forall c, p c = true -> q c = true) -> everyChar p s = true -> everyChar q s = true.
Proof.
  induction s as [|c r IH]; cbn; intros Hpq H; [reflexivity|].
  apply andb_true_iff in H as [Hc Hr]. rewrite (Hpq c Hc). now apply IH.
Qed.












Lemma prefix_cons :
  forall a p b s,
    String.prefix (String a p) (String b s) = if ascii_dec a b then String.prefix p s else false.
Proof. reflexivity. Qed.











End FormatFacts.

Module FormatRoundTrip.
Import Js Regex Format NumberFacts FormatFacts.









End FormatRoundTrip.

(* ------------------------------------------------------------------ *)
(** ** The parsing of a DONE response *)
(* ------------------------------------------------------------------ *)

Module HappyPath.
Import Js Regex Format NumberFacts FormatFacts Loop.












End HappyPath.

(* ------------------------------------------------------------------ *)
(** ** The cases of one iteration, and the step log *)
(* ------------------------------------------------------------------ *)

Module LoopCases.
Import Js Loop StepDefs RunDefs.

Section Cases.
Context {S : Type}.
Variable w : Tools.World.
Variable config : AgentLoopConfig.t S.

(** The ways in which one iteration of the loop can go. *)
Lemma iteration_cases :
  forall st : State.t S,
    let k := State.currentStep st + 1 in
    let root := AgentLoopConfig.repoRoot config in
    (exists e p',
        chat (AgentLoopConfig.llmProvider config) (State.provider st) (loopRequest w config st)
        = (inl e, p')
        /\ iteration w config st = caught e (called w config st p'))
    \/ exists resp p',
         chat (AgentLoopConfig.llmProvider config) (State.provider st) (loopRequest w config st)
         = (inr resp, p')
         /\ let parsed :=
              parseResponse (ChatResponse.assistantText resp) (ChatResponse.toolCalls resp) in
            (ParsedLLMResponse.type parsed = ResponseType.error
             /\ iteration w config st = Break (setError (Some neitherMessage) (called w config st p')))
            \/ (exists c l st2,
                   ChatResponse.toolCalls resp = Some (c :: l)
                   /\ runToolCalls w config
                        (pushMessage
                           (ContextMessage.mk assistant
                              (orDefault (ChatResponse.assistantText resp) "") None
                              (Some (c :: l)))
                           (called w config st p'))
                        (c :: l) = (st2, None)
                   /\ iteration w config st = Continue st2)
            \/ (exists answer,
                   ParsedLLMResponse.type parsed = ResponseType.done
                   /\ ParsedLLMResponse.answerMd parsed = Some answer /\ answer <> ""
                   /\ let v := verifySourcesInAnswer answer root in
                      (SourceVerificationResult.valid v = true
                       /\ iteration w config st
                          = Break (setVerification v
                                     (setFinalAnswer (Some answer)
                                        (pushStep (doneStep k v) (called w config st p'))))
                       \/ SourceVerificationResult.valid v = false
                          /\ iteration w config st
                             = Continue
                                 (pushMessage
                                    (ContextMessage.mk user
                                       (Prompt.generateRepairPrompt
                                          (SourceVerificationResult.errors v)) None None)
                                    (pushMessage
                                       (ContextMessage.mk assistant
                                          ("DONE" ++ nl ++ nl ++ answer) None None)
                                       (pushStep (doneStep k v) (called w config st p'))))))
            \/ (ParsedLLMResponse.type parsed = ResponseType.done
                /\ truthy (ParsedLLMResponse.answerMd parsed) = false
                /\ iteration w config st
                   = Continue
                       (pushStep
                          (StepLog.mk k None None None
                             (match ParsedLLMResponse.rawContent parsed with
                              | Some raw => sliceStr raw 0 200
                              | None => "Empty response"
                              end)
                             false None None)
                          (called w config st p'))).
Proof.
  intros st k root. subst root. unfold iteration.
  change (loopRequest w config (setStep (State.currentStep st + 1) st))
    with (loopRequest w config st).
  cbn [State.provider setStep].
  destruct (chat (AgentLoopConfig.llmProvider config) (State.provider st) (loopRequest w config st))
    as [[err|[text tc]] p'] eqn:Hchat.
  - left. exists err, p'. split; reflexivity.
  - right. exists (ChatResponse.mk text tc), p'. split; [reflexivity|].
    cbn [ChatResponse.assistantText ChatResponse.toolCalls]. cbv zeta.
    unfold parseResponse.
    destruct tc as [[|c l]|].
    2: { cbn [ParsedLLMResponse.type ParsedLLMResponse.toolCalls ParsedLLMResponse.rawContent].
         right; left.
         match goal with |- context [runToolCalls w config ?s ?cs] =>
           destruct (LoopFacts.runToolCalls_effect w config cs s) as (st2 & new & E & _) end.
         exists c, l, st2. split; [reflexivity|]. split; [exact E|].
         fold (called w config st p') in E |- *. unfold called in E |- *. now rewrite E. }
    all: destruct text as [[|a r]|];
      try (left; split; reflexivity).
    all: destruct (doneMatch (String a r)) as [body|].
    all: try (destruct (includes (String a r) "## Sources" && includes (String a r) bt);
              [|left; split; reflexivity]).
    all: cbn [ParsedLLMResponse.type ParsedLLMResponse.toolCalls ParsedLLMResponse.answerMd
              ParsedLLMResponse.rawContent].
    all: try (destruct (trim body) as [|a' r'];
              [right; right; right; repeat split; reflexivity|]).
    all: right; right; left; eexists; split; [reflexivity|]; split; [reflexivity|];
      split; [discriminate|]; cbv zeta; unfold doneStep;
      match goal with |- context [verifySourcesInAnswer ?x ?y] =>
        destruct (SourceVerificationResult.valid (verifySourcesInAnswer x y)) eqn:Hv end;
      [left | right]; split; reflexivity.
Qed.

End Cases.
End LoopCases.

Module StepFacts.
Import Js Loop StepDefs RunDefs LoopCases.

Lemma length_substring_le :
  forall s a n, (String.length (substring a n s) <= n)%nat.
Proof.
  induction s as [|c r IH]; intros a n.
  - destruct a, n; cbn; lia.
  - destruct a as [|a]; destruct n as [|n]; cbn; try lia.
    + specialize (IH 0%nat n). lia.
    + apply IH.
    + apply IH.
Qed.

Lemma strlen_sliceStr_le :
  forall s n, 0 <= n -> strlen (sliceStr s 0 n) <= n.
Proof.
  intros s n Hn. unfold sliceStr, strlen, relIndex.
  replace (0 <? 0) with false by reflexivity.
  destruct (n <? 0) eqn:E; [apply Z.ltb_lt in E; lia|].
  pose proof (length_substring_le s
                (Z.to_nat (Z.min 0 (Z.of_nat (String.length s))))
                (Z.to_nat (Z.min n (Z.of_nat (String.length s))
                           - Z.min 0 (Z.of_nat (String.length s))))) as H.
  lia.
Qed.

Section Steps.
Context {S : Type}.
Variable w : Tools.World.
Variable config : AgentLoopConfig.t S.

Lemma runToolCall_step :
  forall (st : State.t S) c,
  exists st' s,
    runToolCall w config st c = inr st'
    /\ State.steps st' = (State.steps st ++ [s])%list
    /\ toolStep (State.currentStep st) s
    /\ State.currentStep st' = State.currentStep st.
Proof.
  intros st c. unfold runToolCall.
  destruct (RegistryFacts.executeToolCall_returns w (toolRegistry w config)
              (ToolCallResult.name c) (Tools.ArgString (ToolCallResult.argumentsJson c)))
    as [r ->].
  destruct (Tools.success r); eexists _, _; (split; [reflexivity|]);
    (split; [reflexivity|]); (split; [|reflexivity]);
    unfold toolStep; cbn; repeat split;
    eexists _, _, _; repeat split; apply strlen_sliceStr_le; lia.
Qed.

Lemma runToolCalls_steps :
  forall calls (st : State.t S),
  exists st' new,
    runToolCalls w config st calls = (st', None)
    /\ State.steps st' = (State.steps st ++ new)%list
    /\ Forall (toolStep (State.currentStep st)) new.
Proof.
  induction calls as [|c calls IH]; intros st.
  - exists st, []. cbn. rewrite app_nil_r. repeat split. constructor.
  - cbn [runToolCalls].
    destruct (runToolCall_step st c) as (st1 & s & -> & Hs1 & Ht & Hk).
    destruct (IH st1) as (st2 & new & -> & Hs2 & Hf).
    exists st2, (s :: new). split; [reflexivity|]. split.
    + rewrite Hs2, Hs1, <- app_assoc. reflexivity.
    + constructor; [exact Ht|]. now rewrite Hk in Hf.
Qed.

(** What one iteration adds to the step log. *)
Lemma iteration_steps :
  forall st : State.t S,
  exists st' new,
    (iteration w config st = Continue st' \/ iteration w config st = Break st')
    /\ State.steps st' = (State.steps st ++ new)%list
    /\ Forall (loggedAt (State.currentStep st + 1)) new
    /\ (forall s, In s new -> StepLog.verifierPassed s = Some true ->
          new = [s] /\ iteration w config st = Break st' /\ State.verified st' = true).
Proof.
  intros st.
  destruct (iteration_cases w config st)
    as [(e & p' & _ & ->)
       | (resp & p' & _ & [[_ ->] | [(c & l & st2 & _ & Hrun & ->)
                                    | [(answer & _ & _ & _ & [[Hv ->] | [Hv ->]])
                                      | (_ & _ & ->)]]])].
  - eexists _, [_]. split; [right; reflexivity|]. split; [reflexivity|]. split.
    + constructor; [|constructor]. right. unfold plainStep. cbn. repeat split. right. repeat split.
    + intros s [<-|[]]. cbn. discriminate.
  - eexists _, []. split; [right; reflexivity|]. split; [cbn; now rewrite app_nil_r|].
    split; [constructor | intros s []].
  - destruct (runToolCalls_steps (c :: l)
                (pushMessage
                   (ContextMessage.mk assistant (orDefault (ChatResponse.assistantText resp) "")
                      None (Some (c :: l))) (called w config st p')))
      as (st2' & new & E & Hs & Hf).
    rewrite Hrun in E. injection E as <-.
    exists st2, new. split; [left; reflexivity|]. split; [exact Hs|]. split.
    + eapply Forall_impl; [|exact Hf]. intros s Hs'. left. exact Hs'.
    + intros s Hin Hp. rewrite Forall_forall in Hf.
      destruct (Hf s Hin) as (_ & _ & Hn & _). congruence.
  - eexists _, [_]. split; [right; reflexivity|]. split; [reflexivity|]. split.
    + constructor; [|constructor]. right. unfold plainStep, doneStep. cbn. repeat split.
      left. repeat split. eexists _, _. split; reflexivity.
    + intros s [<-|[]] _. repeat split. cbn. exact Hv.
  - eexists _, [_]. split; [left; reflexivity|]. split; [reflexivity|]. split.
    + constructor; [|constructor]. right. unfold plainStep, doneStep. cbn. repeat split.
      left. repeat split. eexists _, _. split; reflexivity.
    + intros s [<-|[]]. cbn. rewrite Hv. discriminate.
  - eexists _, [_]. split; [left; reflexivity|]. split; [reflexivity|]. split.
    + constructor; [|constructor]. right. unfold plainStep. cbn. repeat split. right. repeat split.
    + intros s [<-|[]]. cbn. discriminate.
Qed.

End Steps.
End StepFacts.

(* ------------------------------------------------------------------ *)
(** ** Invariants of a run *)
(* ------------------------------------------------------------------ *)

Module RunInvariants.
Import Js Loop LoopCases StepDefs StepFacts RunDefs.

Section Runs.
Context {S : Type}.
Variable w : Tools.World.
Variable config : AgentLoopConfig.t S.

Lemma continue_effect :
  forall st st' : State.t S,
    iteration w config st = Continue st' ->
    State.verified st' = State.verified st /\ State.error st' = State.error st
    /\ State.finalAnswer st' = State.finalAnswer st
    /\ State.currentStep st' = State.currentStep st + 1.
Proof.
  intros st st' H.
  destruct (LoopFacts.iteration_effect w config st) as (st1 & new & calls & Hit & Hk & _).
  destruct Hit as [(E & Hv & He & Hf) | (E & _)]; rewrite E in H; [|discriminate].
  injection H as <-. repeat split; assumption.
Qed.

Lemma continue_running :
  forall st st' : State.t S,
    running st -> iteration w config st = Continue st' -> running st'.
Proof.
  intros st st' (Hv & He & Hf) H.
  destruct (continue_effect st st' H) as (E1 & E2 & E3 & _).
  unfold running. rewrite E1, E2, E3. repeat split; assumption.
Qed.

Lemma step_effect :
  forall st st' : State.t S,
    iteration w config st = Continue st' \/ iteration w config st = Break st' ->
    State.currentStep st' = State.currentStep st + 1.
Proof.
  intros st st' H.
  destruct (LoopFacts.iteration_effect w config st) as (st1 & new & calls & Hit & Hk & _).
  destruct Hit as [(E & _) | (E & _)]; destruct H as [H|H]; rewrite E in H;
    try discriminate; injection H as <-; exact Hk.
Qed.

(** The loop returns; its last state is reached from states that [R] holds
    of, either by running out of budget or by a [Break]. *)
Lemma loop_result :
  forall (R Q : State.t S -> Prop) (p0 : S),
    R (initialState w config p0) ->
    (forall st st', R st -> State.currentStep st < maxSteps config ->
                    iteration w config st = Continue st' -> R st') ->
    (forall st st', R st -> State.currentStep st < maxSteps config ->
                    iteration w config st = Break st' -> Q st') ->
    (forall st, R st -> maxSteps config <= State.currentStep st -> Q st) ->
    exists st,
      whileLoop w config (Z.to_nat (maxSteps config)) (initialState w config p0) = Some st
      /\ Q st.
Proof.
  intros R Q p0 H0 Hc Hb He.
  destruct (LoopFacts.whileLoop_total w config (Z.to_nat (maxSteps config))
              (initialState w config p0)) as [st Hst].
  { cbn. lia. }
  exists st. split; [exact Hst|].
  revert Hst H0. generalize (initialState w config p0). generalize (Z.to_nat (maxSteps config)).
  induction n as [|fuel IH]; intros s0 Hst H0; cbn [whileLoop] in Hst;
    destruct (State.currentStep s0 <? maxSteps config) eqn:E;
    try discriminate;
    try (injection Hst as <-; apply He; [exact H0 | apply Z.ltb_ge, E]).
  apply Z.ltb_lt in E.
  destruct (iteration w config s0) as [s1|s1] eqn:Hit.
  - eapply IH; [exact Hst|]. eapply Hc; eassumption.
  - injection Hst as <-. eapply Hb; eassumption.
Qed.

Lemma forcedCall_answer :
  forall st : State.t S,
    State.finalAnswer st <> Some "" -> State.finalAnswer (forcedCall config st) <> Some "".
Proof.
  intros st H. unfold forcedCall. cbn [State.provider pushMessage].
  destruct (chat (AgentLoopConfig.llmProvider config) (State.provider st) (forcedRequest config st))
    as [[e|resp] p']; [exact H|].
  destruct (ChatResponse.assistantText resp) as [[|a r]|] eqn:Et; cbn [truthy]; try exact H.
  destruct (ParsedLLMResponse.answerMd (parseResponse (Some (String a r)) None))
    as [[|a' r']|]; cbn; discriminate.
Qed.



End Runs.
End RunInvariants.

Module VerifiedRunFacts.
Import Js Loop LoopCases StepDefs StepFacts RunDefs RunInvariants.

Lemma valid_means_no_error :
  forall md root,
    SourceVerificationResult.valid (verifySourcesInAnswer md root) = true ->
    verifySourcesInAnswer md root
    = SourceVerificationResult.mk true
        (SourceVerificationResult.sources (verifySourcesInAnswer md root)) [].
Proof.
  intros md root. unfold verifySourcesInAnswer.
  destruct (Regex.sourcesSection md) as [section|]; [|discriminate].
  set (checked := map checkCitation (Regex.citations section)).
  destruct (Regex.citations section) as [|m ms];
    cbn [SourceVerificationResult.valid SourceVerificationResult.sources].
  - destruct (flat_map fst checked); discriminate.
  - destruct (flat_map fst checked); [|discriminate]. intros ->. reflexivity.
Qed.

Section Runs.
Context {S : Type}.
Variable w : Tools.World.
Variable config : AgentLoopConfig.t S.

Lemma forcedCall_answerChecked :
  forall st : State.t S,
    State.verified st = false -> truthy (State.error st) = false ->
    answerChecked config (forcedCall config st)
    /\ State.error (forcedCall config st) = State.error st.
Proof.
  intros st Hv He. unfold forcedCall. cbn [State.provider pushMessage].
  destruct (chat (AgentLoopConfig.llmProvider config) (State.provider st) (forcedRequest config st))
    as [[e|resp] p'].
  { split; [|reflexivity]. intros H. cbn in H. congruence. }
  destruct (truthy (ChatResponse.assistantText resp)).
  2:{ split; [|reflexivity]. intros H. cbn in H. congruence. }
  destruct (ParsedLLMResponse.answerMd (parseResponse (ChatResponse.assistantText resp) None))
    as [[|a r]|] eqn:Ea; cbn [truthy].
  1,3: split; [|reflexivity]; intros H; cbn in H; congruence.
  split; [|reflexivity]. intros H. cbn in H |- *. split; [exact He|].
  exists (String a r). split; [reflexivity|].
  rewrite (valid_means_no_error _ _ H) at 1. reflexivity.
Qed.

(** X6.  When [runAgent] returns [verified = true], the answer it returns is
    the very text that passed the check: checking it again gives a valid
    result with the returned citations and no error message, and the run
    reports no error. *)
Theorem verified_answer_passes_the_check :
  forall p0 : S,
  exists run,
    runAgent w config p0 = Some run
    /\ (AgentLoopResult.verified (result run) = true ->
        truthy (AgentLoopResult.error (result run)) = false
        /\ verifySourcesInAnswer (AgentLoopResult.answerMd (result run))
             (AgentLoopConfig.repoRoot config)
           = SourceVerificationResult.mk true (AgentLoopResult.sources (result run)) []).
Proof.
  intros p0.
  destruct (loop_result w config (@running S)
              (fun st => answerChecked config st /\ State.finalAnswer st <> Some "") p0)
    as (st & Hst & HQ).
  - repeat split.
  - intros st st' HR _ H. eapply continue_running; eassumption.
  - intros st st' (Hv & He & Hf) _ H.
    destruct (iteration_cases w config st)
      as [(e & p' & _ & E)
         | (resp & p' & _ & [[_ E] | [(c & l & st2 & _ & _ & E)
                                      | [(answer & _ & _ & Hne & [[Hval E] | [_ E]])
                                        | (_ & _ & E)]]])];
      rewrite E in H; try discriminate; injection H as <-;
      (split; [intros X; cbn in X; try congruence | cbn; try (rewrite Hf; discriminate)]).
    + cbn. rewrite He. split; [reflexivity|]. exists answer. split; [reflexivity|].
      rewrite (valid_means_no_error _ _ Hval) at 1. reflexivity.
    + intros Y. injection Y as Y. now elim Hne.
  - intros st (Hv & _ & Hf) _. split; [intros X; congruence | rewrite Hf; discriminate].
  - exists (finish (afterLoop config st)). unfold runAgent. rewrite Hst. split; [reflexivity|].
    cbn [result finish AgentLoopResult.verified AgentLoopResult.error AgentLoopResult.answerMd
         AgentLoopResult.sources].
    destruct HQ as [HQ HN].
    assert (HA : answerChecked config (afterLoop config st)).
    { unfold afterLoop.
      destruct (State.verified st) eqn:Hv; cbn [negb andb]; [exact HQ|].
      destruct (truthy (State.error st)) eqn:He; cbn [negb]; [exact HQ|].
      destruct (maxSteps config <=? State.currentStep st); [|exact HQ].
      destruct (forcedCall_answerChecked st Hv He) as [HF HE].
      pose proof (forcedCall_answer config st HN) as HN'.
      destruct (negb (truthy (State.finalAnswer (forcedCall config st)))) eqn:Hn; [|exact HF].
      intros X. cbn in X. destruct (HF X) as (_ & a & Ea & _).
      rewrite Ea in Hn, HN'. destruct a; [now elim HN' | discriminate Hn]. }
    intros Hver. destruct (HA Hver) as (He & a & Ea & Hc).
    split; [exact He|]. rewrite Ea. exact Hc.
Qed.

End Runs.
End VerifiedRunFacts.

Module StepLogFacts.
Import Js Loop LoopCases StepDefs StepFacts RunDefs RunInvariants.

Lemma loggedAt_stepNo : forall k s, loggedAt k s -> StepLog.stepNo s = k.
Proof. intros k s [(H & _) | (H & _)]; exact H. Qed.

Lemma inTurnOrder_app :
  forall l new k k',
    inTurnOrder l -> Forall (fun s => StepLog.stepNo s <= k) l ->
    Forall (fun s => StepLog.stepNo s = k') new -> k <= k' ->
    inTurnOrder (l ++ new).
Proof.
  intros l new k k' Ho Hl Hn Hk i j s s' Hi Hj Hij.
  rewrite Forall_forall in Hl, Hn.
  destruct (Nat.lt_ge_cases i (List.length l)) as [Li|Li];
    destruct (Nat.lt_ge_cases j (List.length l)) as [Lj|Lj].
  - rewrite nth_error_app1 in Hi, Hj by assumption. eapply Ho; eassumption.
  - rewrite nth_error_app1 in Hi by assumption. rewrite nth_error_app2 in Hj by assumption.
    apply nth_error_In in Hi, Hj. specialize (Hl _ Hi). specialize (Hn _ Hj). lia.
  - lia.
  - rewrite nth_error_app2 in Hi, Hj by assumption.
    apply nth_error_In in Hi, Hj. rewrite (Hn _ Hi), (Hn _ Hj). lia.
Qed.

Section Runs.
Context {S : Type}.
Variable w : Tools.World.
Variable config : AgentLoopConfig.t S.

Lemma iteration_logged :
  forall st st' : State.t S,
    logged config st -> State.currentStep st < maxSteps config ->
    iteration w config st = Continue st' \/ iteration w config st = Break st' ->
    logged config st'.
Proof.
  intros st st' (H0 & Hf & Ho) Hlt Hit.
  pose proof (step_effect w config st st' Hit) as Hk.
  destruct (iteration_steps w config st) as (st1 & new & Hit1 & Hs & Hn & _).
  assert (st1 = st') as ->.
  { destruct Hit as [H|H], Hit1 as [H1|H1]; rewrite H in H1; congruence. }
  unfold logged. rewrite Hs, Hk. split; [lia|]. split.
  - apply Forall_app. split.
    + eapply Forall_impl; [|exact Hf]. cbn. intros s (A & B & C). repeat split; (lia || assumption).
    + eapply Forall_impl; [|exact Hn]. cbn. intros s Hl.
      rewrite (loggedAt_stepNo _ _ Hl). repeat split; (lia || assumption).
  - eapply inTurnOrder_app with (k := State.currentStep st) (k' := State.currentStep st + 1).
    + exact Ho.
    + eapply Forall_impl; [|exact Hf]. cbn. intros s (A & _). lia.
    + eapply Forall_impl; [|exact Hn]. intros s. apply loggedAt_stepNo.
    + lia.
Qed.

Lemma run_logged :
  forall p0 : S,
  exists st,
    whileLoop w config (Z.to_nat (maxSteps config)) (initialState w config p0) = Some st
    /\ logged config st.
Proof.
  intros p0.
  destruct (LoopFacts.whileLoop_total w config (Z.to_nat (maxSteps config))
              (initialState w config p0)) as [st Hst].
  { cbn. lia. }
  exists st. split; [exact Hst|].
  eapply (LoopFacts.whileLoop_invariant w config (logged config)); [|  | exact Hst].
  - intros s s' HP Hlt Hit. eapply iteration_logged; eassumption.
  - unfold logged. cbn. split; [lia|]. split; [constructor|].
    intros i j s s' Hi. destruct i; discriminate.
Qed.

(** X7.  The step numbers of the log: every entry carries the number of the
    turn that logged it, between 1 and [maxSteps], and the log is in the
    order of the turns. *)
Theorem step_numbers_follow_the_turns :
  forall p0 : S,
  exists run,
    runAgent w config p0 = Some run
    /\ Forall (fun s => 1 <= StepLog.stepNo s <= maxSteps config)
         (AgentLoopResult.steps (result run))
    /\ inTurnOrder (AgentLoopResult.steps (result run)).
Proof.
  intros p0. destruct (run_logged p0) as (st & Hst & _ & Hf & Ho).
  exists (finish (afterLoop config st)). unfold runAgent. rewrite Hst.
  split; [reflexivity|]. cbn [result finish AgentLoopResult.steps].
  rewrite LoopFacts.afterLoop_steps. split; [|exact Ho].
  eapply Forall_impl; [|exact Hf]. cbn. intros s (A & B & _). lia.
Qed.

(** X8.  The entries of the step log have one of two shapes.  The entry of a
    tool call names the tool and its input, is not a DONE entry, carries no
    verdict, says "Called <tool>", and keeps at most 500 characters of the
    output.  Every other entry carries no tool field; it is a DONE entry
    exactly when it carries the verdict of the check. *)
Theorem step_entries_have_two_shapes :
  forall p0 : S,
  exists run,
    runAgent w config p0 = Some run
    /\ Forall (fun s => toolStep (StepLog.stepNo s) s \/ plainStep (StepLog.stepNo s) s)
         (AgentLoopResult.steps (result run)).
Proof.
  intros p0. destruct (run_logged p0) as (st & Hst & _ & Hf & _).
  exists (finish (afterLoop config st)). unfold runAgent. rewrite Hst.
  split; [reflexivity|]. cbn [result finish AgentLoopResult.steps].
  rewrite LoopFacts.afterLoop_steps.
  eapply Forall_impl; [|exact Hf]. cbn. intros s (_ & _ & H). exact H.
Qed.

Lemma afterLoop_verified :
  forall st : State.t S, State.verified st = true -> afterLoop config st = st.
Proof. intros st H. unfold afterLoop. now rewrite H. Qed.

(** X9.  An entry whose verdict is "passed" is the last entry of the log, and
    the run that logged it returns [verified = true]: the loop stops at the
    first answer that passes the check. *)
Theorem passing_answer_is_the_last_step :
  forall p0 : S,
  exists run,
    runAgent w config p0 = Some run
    /\ forall pre s post,
         AgentLoopResult.steps (result run) = (pre ++ s :: post)%list ->
         StepLog.verifierPassed s = Some true ->
         post = [] /\ AgentLoopResult.verified (result run) = true.
Proof.
  intros p0.
  destruct (loop_result w config
              (fun st => Forall (fun s => StepLog.verifierPassed s <> Some true) (State.steps st))
              (fun st => forall pre s post,
                   State.steps st = (pre ++ s :: post)%list ->
                   StepLog.verifierPassed s = Some true ->
                   post = [] /\ State.verified st = true) p0) as (st & Hst & HQ).
  - constructor.
  - intros st st' HR _ H.
    destruct (iteration_steps w config st) as (st1 & new & Hit1 & Hs & _ & Hp).
    destruct Hit1 as [H1|H1]; rewrite H in H1; [|discriminate]. injection H1 as <-.
    rewrite Hs. apply Forall_app. split; [exact HR|].
    apply Forall_forall. intros s Hin Hpass.
    destruct (Hp s Hin Hpass) as (_ & Hb & _). congruence.
  - intros st st' HR _ H pre s post Hsplit Hpass.
    destruct (iteration_steps w config st) as (st1 & new & Hit1 & Hs & _ & Hp).
    destruct Hit1 as [H1|H1]; rewrite H in H1; [discriminate|]. injection H1 as <-.
    rewrite Hs in Hsplit.
    assert (Hin : In s (State.steps st ++ new)) by (rewrite Hsplit; apply in_elt).
    apply in_app_or in Hin. destruct Hin as [Hin|Hin].
    { rewrite Forall_forall in HR. now elim (HR s Hin). }
    destruct (Hp s Hin Hpass) as (-> & _ & Hv). split; [|exact Hv].
    destruct (LoopFacts.last_element_split _ (State.steps st) pre post s s Hsplit)
      as [(Hnil & _) | Hin']; [exact Hnil|].
    rewrite Forall_forall in HR. now elim (HR s Hin').
  - intros st HR _ pre s post Hsplit Hpass.
    rewrite Forall_forall in HR. elim (HR s); [rewrite Hsplit; apply in_elt | exact Hpass].
  - exists (finish (afterLoop config st)). unfold runAgent. rewrite Hst.
    split; [reflexivity|]. cbn [result finish AgentLoopResult.steps AgentLoopResult.verified].
    rewrite LoopFacts.afterLoop_steps. intros pre s post Hsplit Hpass.
    destruct (HQ pre s post Hsplit Hpass) as [-> Hv]. split; [reflexivity|].
    now rewrite afterLoop_verified.
Qed.

End Runs.
End StepLogFacts.

Module RunEdgeFacts.
Import Js Loop LoopCases StepDefs StepFacts RunDefs RunInvariants.

Section Runs.
Context {S : Type}.
Variable w : Tools.World.
Variable config : AgentLoopConfig.t S.

Lemma iteration_provider_failure :
  forall (st : State.t S) (e : JsExn) (p' : S),
    chat (AgentLoopConfig.llmProvider config) (State.provider st) (loopRequest w config st)
    = (inl e, p') ->
    iteration w config st = caught e (called w config st p').
Proof.
  intros st e p' H. unfold iteration.
  change (loopRequest w config (setStep (State.currentStep st + 1) st))
    with (loopRequest w config st).
  cbn [State.provider setStep]. rewrite H. reflexivity.
Qed.

Lemma afterLoop_error :
  forall st : State.t S, truthy (State.error st) = true -> afterLoop config st = st.
Proof. intros st H. unfold afterLoop. rewrite H, andb_false_r. reflexivity. Qed.

(** X10.  An exception of the provider ends the run at that turn: the loop
    stops with the text of the exception as the error, one entry
    "Error: <text>" goes to the step log, no tool runs, and the provider is
    not called again, not even for a forced termination. *)
Theorem provider_failure_ends_the_run :
  forall (st : State.t S) (e : JsExn) (p' : S),
    State.currentStep st < maxSteps config ->
    chat (AgentLoopConfig.llmProvider config) (State.provider st) (loopRequest w config st)
    = (inl e, p') ->
    errorText e <> "" ->
    exists st',
      (forall fuel, whileLoop w config (Datatypes.S fuel) st = Some st')
      /\ State.steps st'
         = (State.steps st
              ++ [StepLog.mk (State.currentStep st + 1) None None None
                    ("Error: " ++ errorText e) false None None])%list
      /\ State.trace st'
         = (State.trace st ++ [LoopChat (State.currentStep st + 1) (loopRequest w config st)])%list
      /\ finish (afterLoop config st')
         = mkRun
             (AgentLoopResult.mk (orDefault (State.finalAnswer st) "No answer generated")
                (State.steps st') (State.verifiedSources st) (State.verified st)
                (Some (errorText e)))
             (State.trace st').
Proof.
  intros st e p' Hlt Hchat Hne.
  pose proof (iteration_provider_failure st e p' Hchat) as Hit.
  unfold caught in Hit. eexists. split; [|split; [|split]].
  - intros fuel. cbn [whileLoop]. apply Z.ltb_lt in Hlt. rewrite Hlt, Hit. reflexivity.
  - reflexivity.
  - reflexivity.
  - rewrite afterLoop_error; [reflexivity|].
    cbn. destruct (errorText e); [now elim Hne | reflexivity].
Qed.

(** X11.  With a budget of zero steps (or less) no turn of the loop takes
    place: nothing is logged and no tool runs, yet the provider is called
    once, without tools, for a forced answer on the system prompt, the
    question and the termination prompt. *)
Theorem zero_budget_goes_to_forced_termination :
  forall p0 : S,
    maxSteps config <= 0 ->
    exists run,
      runAgent w config p0 = Some run
      /\ AgentLoopResult.steps (result run) = []
      /\ events run
         = [ForcedChat
              (ChatRequest.mk
                 [ContextMessage.mk system (systemPrompt w config) None None;
                  ContextMessage.mk user (AgentLoopConfig.question config) None None;
                  ContextMessage.mk user
                    (Prompt.generateForcedTerminationPrompt (maxSteps config) []) None None]
                 (Some []) None)].
Proof.
  intros p0 Hmax. unfold runAgent.
  assert (Hloop : whileLoop w config (Z.to_nat (maxSteps config)) (initialState w config p0)
                  = Some (initialState w config p0)).
  { destruct (Z.to_nat (maxSteps config)); cbn [whileLoop];
      change (State.currentStep (initialState w config p0)) with 0;
      replace (0 <? maxSteps config) with false by (symmetry; apply Z.ltb_ge; lia);
      reflexivity. }
  rewrite Hloop. eexists. split; [reflexivity|].
  cbn [result events finish AgentLoopResult.steps].
  rewrite LoopFacts.afterLoop_steps. split; [reflexivity|].
  unfold afterLoop. cbn [State.verified State.error initialState truthy negb andb State.currentStep].
  replace (maxSteps config <=? 0) with true by (symmetry; apply Z.leb_le; lia).
  match goal with
  | |- State.trace (if ?c then _ else _) = _ => destruct c
  end; cbn [State.trace setError setFinalAnswer];
    rewrite LoopFacts.forcedCall_trace; reflexivity.
Qed.

End Runs.

Lemma provider_failure_ends_the_run_witness :
  exists st',
    whileLoop Examples.world (Examples.configOf 8) 1
      (initialState Examples.world (Examples.configOf 8) [inl (JsError "rate limit")])
    = Some st'
    /\ AgentLoopResult.error (result (finish (afterLoop (Examples.configOf 8) st')))
       = Some "rate limit".
Proof.
  destruct (provider_failure_ends_the_run Examples.world (Examples.configOf 8)
              (initialState Examples.world (Examples.configOf 8) [inl (JsError "rate limit")])
              (JsError "rate limit") [])
    as (st' & Hloop & _ & _ & Hrun).
  - vm_compute. reflexivity.
  - reflexivity.
  - discriminate.
  - exists st'. split; [apply Hloop | now rewrite Hrun].
Defined.

Lemma zero_budget_goes_to_forced_termination_witness :
  exists run,
    runAgent Examples.world (Examples.configOf 0) [Examples.says "I do not know"] = Some run
    /\ AgentLoopResult.steps (result run) = []
    /\ List.length (events run) = 1%nat.
Proof.
  destruct (zero_budget_goes_to_forced_termination Examples.world (Examples.configOf 0)
              [Examples.says "I do not know"]) as (run & Hrun & Hs & He).
  - vm_compute. discriminate.
  - exists run. rewrite He. repeat split; assumption.
Defined.

End RunEdgeFacts.

Module DocumentedRunFacts.
Import Js Regex Format NumberFacts FormatFacts HappyPath Loop.

Section Runs.
Context {S : Type}.
Variable w : Tools.World.
Variable config : AgentLoopConfig.t S.


End Runs.


End DocumentedRunFacts.

Module LocalProviderFacts.
Import Js Loop LoopCases StepDefs StepFacts RunDefs RunInvariants RunEdgeFacts.

(** X13.  A run on the local provider, with a budget of one step or more,
    ends at its first turn: the provider is called once, with the system
    prompt and the question (two messages) and the five tools; the result
    holds the stub's message as its error, the answer "No answer generated",
    one logged step and no sources, and is not verified. *)
Theorem local_provider_run_fails_at_the_first_turn :
  forall (w : Tools.World) (config : AgentLoopConfig.t LocalProvider.t) (this : LocalProvider.t),
    AgentLoopConfig.llmProvider config = LocalProvider.provider ->
    1 <= maxSteps config ->
    let message :=
      "LocalProvider is a stub implementation. "
        ++ "To use local LLMs, implement the chat method for your provider type: "
        ++ LocalProvider.providerType this ++ ". "
        ++ "Endpoint: " ++ LocalProvider.endpoint this
        ++ ", Model: " ++ LocalProvider.model this ++ ", "
        ++ "Messages: 2, Tools: 5" in
    runAgent w config this
    = Some (mkRun
              (AgentLoopResult.mk "No answer generated"
                 [StepLog.mk 1 None None None ("Error: " ++ message) false None None]
                 [] false (Some message))
              [LoopChat 1 (loopRequest w config (initialState w config this))]).
Proof.
  intros w config this Hp Hmax message.
  assert (Hchat : chat (AgentLoopConfig.llmProvider config)
                    (State.provider (initialState w config this))
                    (loopRequest w config (initialState w config this))
                  = (inl (JsError message), this)).
  { rewrite Hp. reflexivity. }
  pose proof (iteration_provider_failure w config _ _ _ Hchat) as Hit.
  unfold runAgent.
  destruct (Z.to_nat (maxSteps config)) as [|fuel] eqn:Ef; [lia|].
  cbn [whileLoop]. change (State.currentStep (initialState w config this)) with 0.
  replace (0 <? maxSteps config) with true by (symmetry; apply Z.ltb_lt; lia).
  rewrite Hit. unfold caught.
  rewrite afterLoop_error; [reflexivity|].
  cbn. reflexivity.
Qed.

Lemma local_provider_run_fails_at_the_first_turn_witness :
  exists run,
    runAgent Examples.world
      (AgentLoopConfig.mk "/tmp/repo" None "What does foo do?" LocalProvider.provider
         None None None None)
      (LocalProvider.new (LocalProvider.LocalProviderConfig.mk "llama3" None None))
    = Some run
    /\ AgentLoopResult.verified (result run) = false.
Proof.
  eexists. split.
  - apply (local_provider_run_fails_at_the_first_turn Examples.world
             (AgentLoopConfig.mk "/tmp/repo" None "What does foo do?" LocalProvider.provider
                None None None None)
             (LocalProvider.new (LocalProvider.LocalProviderConfig.mk "llama3" None None))).
    + reflexivity.
    + vm_compute. discriminate.
  - reflexivity.
Defined.

End LocalProviderFacts.

(* ------------------------------------------------------------------ *)
(** ** The truncation of tool output *)
(* ------------------------------------------------------------------ *)

Module TruncateFacts.
Import Js Loop FormatFacts.

Lemma length_substring :
  forall s a n, (a + n <= String.length s)%nat -> String.length (substring a n s) = n.
Proof.
  induction s as [|c r IH]; intros a n H; cbn in H.
  - assert (a = 0%nat) by lia. assert (n = 0%nat) by lia. subst. reflexivity.
  - destruct a as [|a]; destruct n as [|n]; cbn; try reflexivity.
    + f_equal. apply IH. lia.
    + apply IH. lia.
    + apply IH. lia.
Qed.

Lemma substring_all : forall s, substring 0 (String.length s) s = s.
Proof. induction s; cbn; [reflexivity | now rewrite IHs]. Qed.

Lemma double_digits :
  forall d,
    (Decimal.nb_digits (Decimal.Little.double d) <= Datatypes.S (Decimal.nb_digits d))%nat
    /\ (Decimal.nb_digits (Decimal.Little.succ_double d) <= Datatypes.S (Decimal.nb_digits d))%nat.
Proof.
  induction d as [|d [IH1 IH2]|d [IH1 IH2]|d [IH1 IH2]|d [IH1 IH2]|d [IH1 IH2]
                 |d [IH1 IH2]|d [IH1 IH2]|d [IH1 IH2]|d [IH1 IH2]|d [IH1 IH2]];
    cbn; split; lia.
Qed.

Lemma little_digits :
  forall p, (Decimal.nb_digits (Pos.to_little_uint p) <= Pos.to_nat p)%nat.
Proof.
  induction p as [p IH|p IH|]; cbn [Pos.to_little_uint].
  - pose proof (proj2 (double_digits (Pos.to_little_uint p))). 
    rewrite Pos2Nat.inj_xI. lia.
  - pose proof (proj1 (double_digits (Pos.to_little_uint p))).
    rewrite Pos2Nat.inj_xO. pose proof (Pos2Nat.is_pos p). lia.
  - cbn. lia.
Qed.

Lemma length_uint :
  forall d, String.length (NilEmpty.string_of_uint d) = Decimal.nb_digits d.
Proof. induction d; cbn; congruence. Qed.

(** The decimal text of a positive number has at most as many digits as the
    number says. *)
Lemma digits_le :
  forall z, 1 <= z -> 1 <= strlen (numToString z) <= z.
Proof.
  intros [|p|p] H; try lia.
  unfold strlen, numToString. cbn [Z.to_int NilZero.string_of_int].
  pose proof (Unsigned.to_uint_nonnil p) as Hn.
  assert (E : NilZero.string_of_uint (Pos.to_uint p) = NilEmpty.string_of_uint (Pos.to_uint p))
    by (destruct (Pos.to_uint p); [now elim Hn | ..]; reflexivity).
  rewrite E, length_uint. unfold Pos.to_uint. rewrite DecimalFacts.nb_digits_rev.
  pose proof (little_digits p).
  assert (Decimal.nb_digits (Pos.to_little_uint p) <> 0)%nat.
  { intros Z0. apply DecimalFacts.nb_digits_0 in Z0. unfold Pos.to_uint in Hn. rewrite Z0 in Hn. now elim Hn. }
  lia.
Qed.

Lemma strlen_append : forall a b, strlen (a ++ b) = strlen a + strlen b.
Proof. intros. unfold strlen. rewrite length_append. lia. Qed.

Lemma strlen_head :
  forall s h, 0 <= h <= strlen s -> strlen (sliceStr s 0 h) = h.
Proof.
  intros s h H. unfold sliceStr, relIndex, strlen in *.
  replace (0 <? 0) with false by reflexivity.
  replace (h <? 0) with false by (symmetry; apply Z.ltb_ge; lia).
  rewrite length_substring; lia.
Qed.

Lemma strlen_tail :
  forall s h, 1 <= h <= strlen s -> strlen (sliceFrom s (- h)) = h.
Proof.
  intros s h H. unfold sliceFrom, sliceStr, relIndex, strlen in *.
  replace (- h <? 0) with true by (symmetry; apply Z.ltb_lt; lia).
  replace (Z.of_nat (String.length s) <? 0) with false by (symmetry; apply Z.ltb_ge; lia).
  rewrite length_substring; lia.
Qed.

(** X14.  With a limit of at least 102 characters [truncateOutput] returns a
    short output as it is, and cuts a longer one down to the first and the
    last [maxChars/2 - 50] characters around a marker that tells how many
    characters the output exceeds the limit by; the result is shorter than
    the output, and within the limit whenever that number has at most 65
    digits. *)
Theorem truncateOutput_cuts_long_output :
  forall (output : string) (maxChars : Z),
    102 <= maxChars ->
    (strlen output <= maxChars -> truncateOutput output maxChars = output)
    /\ (maxChars < strlen output ->
        let h := maxChars / 2 - 50 in
        let over := numToString (strlen output - maxChars) in
        truncateOutput output maxChars
        = sliceStr output 0 h ++ nl ++ nl ++ "... [" ++ over ++ " characters truncated] ..."
            ++ nl ++ nl ++ sliceFrom output (- h)
        /\ strlen (sliceStr output 0 h) = h
        /\ strlen (sliceFrom output (- h)) = h
        /\ strlen (truncateOutput output maxChars) = 2 * h + 35 + strlen over
        /\ strlen (truncateOutput output maxChars) < strlen output
        /\ (strlen over <= 65 -> strlen (truncateOutput output maxChars) <= maxChars)).
Proof.
  intros output maxChars Hmax. split.
  - intros H. unfold truncateOutput. apply Z.leb_le in H. now rewrite H.
  - intros H h over.
    assert (Hh : 1 <= h <= strlen output).
    { subst h. pose proof (Z.div_mod maxChars 2 ltac:(lia)).
      pose proof (Z.mod_pos_bound maxChars 2 ltac:(lia)). lia. }
    assert (E : truncateOutput output maxChars
                = sliceStr output 0 h ++ nl ++ nl ++ "... [" ++ over
                    ++ " characters truncated] ..." ++ nl ++ nl ++ sliceFrom output (- h)).
    { unfold truncateOutput. replace (strlen output <=? maxChars) with false
        by (symmetry; apply Z.leb_gt; lia). reflexivity. }
    pose proof (strlen_head output h ltac:(lia)) as H1.
    pose proof (strlen_tail output h Hh) as H2.
    pose proof (digits_le (strlen output - maxChars) ltac:(lia)) as Hd. fold over in Hd.
    assert (L : strlen (truncateOutput output maxChars) = 2 * h + 35 + strlen over).
    { rewrite E. rewrite !strlen_append, H1, H2.
      change (strlen nl) with 1. change (strlen "... [") with 5.
      change (strlen " characters truncated] ...") with 26. lia. }
    repeat split; try assumption.
    + rewrite L. subst h. pose proof (Z.div_mod maxChars 2 ltac:(lia)).
      pose proof (Z.mod_pos_bound maxChars 2 ltac:(lia)). lia.
    + intros Ho. rewrite L. subst h. pose proof (Z.div_mod maxChars 2 ltac:(lia)).
      pose proof (Z.mod_pos_bound maxChars 2 ltac:(lia)). lia.
Qed.

Lemma sliceFrom_zero : forall s, sliceFrom s 0 = s.
Proof.
  intros s. unfold sliceFrom, sliceStr, relIndex, strlen.
  replace (0 <? 0) with false by reflexivity.
  replace (Z.of_nat (String.length s) <? 0) with false by (symmetry; apply Z.ltb_ge; lia).
  rewrite Z.min_l by lia. rewrite Z.min_id. rewrite Z.sub_0_r, Nat2Z.id. apply substring_all.
Qed.

Lemma sliceStr_nothing : forall s, sliceStr s 0 0 = "".
Proof.
  intros s. unfold sliceStr, relIndex. replace (0 <? 0) with false by reflexivity.
  rewrite Z.min_l by (unfold strlen; lia). cbn. destruct s; reflexivity.
Qed.

(** X15.  With a limit of 100 or 101 characters nothing is cut: the half limit
    is zero, [slice(-0)] is the whole text, and a longer output comes back
    whole behind the marker. *)
Theorem truncateOutput_keeps_everything_at_100 :
  forall (output : string) (maxChars : Z),
    100 <= maxChars <= 101 ->
    maxChars < strlen output ->
    truncateOutput output maxChars
    = nl ++ nl ++ "... [" ++ numToString (strlen output - maxChars)
        ++ " characters truncated] ..." ++ nl ++ nl ++ output.
Proof.
  intros output maxChars Hm Hl. unfold truncateOutput.
  replace (strlen output <=? maxChars) with false by (symmetry; apply Z.leb_gt; lia).
  assert (maxChars / 2 - 50 = 0) as ->.
  { assert (maxChars = 100 \/ maxChars = 101) as [-> | ->] by lia; reflexivity. }
  change (- 0) with 0. now rewrite sliceStr_nothing, sliceFrom_zero.
Qed.

Lemma truncateOutput_cuts_long_output_witness :
  strlen (truncateOutput (Examples.tenLines ++ Examples.tenLines) 102)
  < strlen (Examples.tenLines ++ Examples.tenLines).
Proof.
  destruct (truncateOutput_cuts_long_output (Examples.tenLines ++ Examples.tenLines) 102)
    as [_ H].
  - lia.
  - apply H. vm_compute. reflexivity.
Defined.

Lemma truncateOutput_keeps_everything_at_100_witness :
  truncateOutput (Examples.tenLines ++ "!") 100
  = nl ++ nl ++ "... [1 characters truncated] ..." ++ nl ++ nl ++ Examples.tenLines ++ "!".
Proof.
  apply (truncateOutput_keeps_everything_at_100 (Examples.tenLines ++ "!") 100).
  - lia.
  - vm_compute. reflexivity.
Defined.

End TruncateFacts.

(* ------------------------------------------------------------------ *)
(** ** The registry and the validation of arguments *)
(* ------------------------------------------------------------------ *)

Module RegistryUpdateFacts.
Import Js Tools RegistryDefs.

Lemma mapGet_mapSet_same :
  forall (V : Type) k (v : V) m, mapGet k (mapSet k v m) = Some v.
Proof.
  induction m as [|[k' v'] m IH]; cbn.
  - now rewrite String.eqb_refl.
  - destruct (k' =? k)%string eqn:E; cbn.
    + now rewrite String.eqb_refl.
    + now rewrite E.
Qed.

Lemma mapGet_mapSet_other :
  forall (V : Type) k k0 (v : V) m, k0 <> k -> mapGet k0 (mapSet k v m) = mapGet k0 m.
Proof.
  induction m as [|[k' v'] m IH]; intros Hne; cbn.
  - apply String.eqb_neq in Hne. rewrite String.eqb_sym in Hne. now rewrite Hne.
  - destruct (k' =? k)%string eqn:E; cbn.
    + apply String.eqb_eq in E. subst k'.
      apply String.eqb_neq in Hne. rewrite String.eqb_sym in Hne. now rewrite Hne.
    + destruct (k' =? k0)%string; [reflexivity | now apply IH].
Qed.

Lemma keys_mapSet :
  forall (V : Type) k (v : V) m,
    map fst (mapSet k v m)
    = match mapGet k m with Some _ => map fst m | None => (map fst m ++ [k])%list end.
Proof.
  induction m as [|[k' v'] m IH]; cbn; [reflexivity|].
  destruct (k' =? k)%string eqn:E; cbn.
  - apply String.eqb_eq in E. now subst.
  - rewrite IH. destruct (mapGet k m); reflexivity.
Qed.

(** X16.  [registerTool] followed by a lookup.  The tool registered under [n]
    is found, with its description; a call of [n] with arguments that its
    schema accepts goes to the registered handler.  A new name is added at
    the end of the tool names, a known name keeps its place; the other tools
    are found, and called, as before. *)
Theorem registerTool_then_lookup :
  forall (w : World) (reg : ToolRegistry) (n d : string) (sch : Zod.ZodTypeAny) (h : Handler),
    let reg' := registerTool reg n d sch h in
    hasTool reg' n = true
    /\ getToolDescription reg' n = Some d
    /\ getToolNames reg' = (if hasTool reg n then getToolNames reg
                            else getToolNames reg ++ [n])%list
    /\ (forall payload args validated r,
          parseArgs w payload = inr args ->
          Zod.safeParse sch args = inr validated ->
          h validated (context reg) = inr r ->
          executeToolCall w reg' n payload = inr r)
    /\ (forall m, m <> n ->
          hasTool reg' m = hasTool reg m
          /\ getToolDescription reg' m = getToolDescription reg m
          /\ (hasTool reg m = true ->
              forall payload, executeToolCall w reg' m payload = executeToolCall w reg m payload)).
Proof.
  intros w reg n d sch h reg'. subst reg'.
  unfold hasTool, getToolDescription, getToolNames, executeToolCall, registerTool.
  cbn [tools context]. rewrite mapGet_mapSet_same, keys_mapSet.
  split; [reflexivity|]. split; [reflexivity|]. split.
  { destruct (mapGet n (tools reg)); reflexivity. }
  split.
  - intros payload args validated r Hp Hv Hh. rewrite Hp. cbn [schema handler]. now rewrite Hv, Hh.
  - intros m Hm. rewrite mapGet_mapSet_other by assumption.
    repeat split. intros Hhas payload.
    destruct (mapGet m (tools reg)); [reflexivity | discriminate Hhas].
Qed.

Lemma hasTool_iff :
  forall reg n, hasTool reg n = true <-> In n (getToolNames reg).
Proof.
  intros reg n. unfold hasTool, getToolNames.
  pose proof (RegistryFacts.mapGet_none_iff _ n (tools reg)) as H.
  destruct (mapGet n (tools reg)) eqn:E.
  - split; [intros _ | reflexivity].
    destruct (in_dec string_dec n (map fst (tools reg))) as [i|ni]; [exact i|].
    apply H in ni. discriminate.
  - split; [discriminate|]. intros Hin. destruct H as [H _]. now elim (H eq_refl).
Qed.

Lemma wellKeyed_mapSet :
  forall m def, wellKeyed m -> wellKeyed (mapSet (name def) def m).
Proof.
  intros m def [Hn Hf]. split.
  - rewrite keys_mapSet. destruct (mapGet (name def) m) eqn:E; [exact Hn|].
    apply RegistryFacts.mapGet_none_iff in E.
    apply NoDup_app; [exact Hn | repeat constructor; intros [] | ].
    intros x Hx [<-|[]]. contradiction.
  - clear Hn. induction m as [|[k v] m IH]; cbn.
    + repeat constructor.
    + inversion Hf; subst. destruct (k =? name def)%string; constructor; auto.
Qed.

Lemma reachable_wellKeyed :
  forall w reg, Reachable w reg -> wellKeyed (tools reg).
Proof.
  intros w reg H. induction H.
  - unfold newToolRegistry. cbn [tools]. unfold wellKeyed. cbn. split.
    + repeat constructor; cbn; intuition discriminate.
    + repeat constructor.
  - unfold registerTool. cbn [tools].
    apply (wellKeyed_mapSet (tools reg) (mkToolDefinition n d sch h) IHReachable).
  - exact IHReachable.
Qed.

Lemma reachable_builtin :
  forall w reg, Reachable w reg -> forall n, In n builtinNames -> hasTool reg n = true.
Proof.
  intros w reg H. induction H; intros k Hk.
  - unfold hasTool, newToolRegistry. cbn [tools].
    repeat (destruct Hk as [<-|Hk]; [reflexivity|]). destruct Hk.
  - destruct (string_dec k n) as [->|Hne].
    + unfold hasTool, registerTool. cbn [tools]. now rewrite mapGet_mapSet_same.
    + unfold hasTool, registerTool in *. cbn [tools]. rewrite mapGet_mapSet_other by assumption.
      now apply IHReachable.
  - now apply IHReachable.
Qed.

(** X17.  In every state of a registry - created with the built-in tools, then
    changed by [registerTool] and [updateContext] - the tool names are
    distinct, [hasTool] holds exactly of them, [getToolSchemas] lists the
    schemas under the same names in the same order, and the five built-in
    tools are still there. *)
Theorem registry_keeps_its_tools :
  forall (w : World) (reg : ToolRegistry),
    Reachable w reg ->
    NoDup (getToolNames reg)
    /\ (forall n, hasTool reg n = true <-> In n (getToolNames reg))
    /\ map ToolSchema.name (getToolSchemas reg) = getToolNames reg
    /\ (forall n, In n builtinNames -> hasTool reg n = true).
Proof.
  intros w reg H. destruct (reachable_wellKeyed w reg H) as [Hn Hf].
  split; [exact Hn|]. split; [apply hasTool_iff|]. split.
  - unfold getToolSchemas, getToolNames. rewrite map_map. cbn [ToolSchema.name].
    apply map_ext_in. intros kv Hin. rewrite Forall_forall in Hf. symmetry. now apply Hf.
  - now apply reachable_builtin with (w := w).
Qed.

Lemma registry_keeps_its_tools_witness :
  NoDup (getToolNames (createToolRegistry Examples.world "/tmp/repo" None))
  /\ getToolNames (createToolRegistry Examples.world "/tmp/repo" None) = builtinNames.
Proof.
  split; [|reflexivity].
  apply (registry_keeps_its_tools Examples.world). apply reach_new.
Defined.

End RegistryUpdateFacts.

Module ToolCallFacts.
Import Js Tools RegistryDefs.

Lemma Qle_bool_floor :
  forall (lo : Z) (q : Q), Qle_bool (inject_Z lo) q = true -> lo <= Qfloor q.
Proof.
  intros lo q H. apply Qle_bool_iff in H.
  apply Qfloor_resp_le in H. now rewrite Qfloor_Z in H.
Qed.

Lemma parse_object :
  forall shape path fields,
    Zod.parse (Zod.ZObject shape) path (Some (Json.JObj fields))
    = let '(issues, out) := parseFields fields path shape in
      (issues, match issues with [] => Some (Json.JObj out) | _ => None end).
Proof.
  intros shape path fields. cbn [Zod.parse].
  match goal with
  | |- (let '(_, _) := ?walk shape in _) = _ =>
      assert (E : forall sh, walk sh = parseFields fields path sh)
  end.
  { induction sh as [|[key s] sh IH]; [reflexivity|].
    cbn [parseFields]. rewrite <- IH. reflexivity. }
  now rewrite E.
Qed.

Lemma safeParse_object :
  forall shape args data,
    Zod.safeParseSchema (Zod.ZObject shape) args = inr data ->
    exists f out,
      args = Json.JObj f /\ parseFields f [] shape = ([], out) /\ data = Json.JObj out.
Proof.
  intros shape args data. unfold Zod.safeParseSchema.
  destruct args as [| | | | |f]; try (cbn; discriminate).
  rewrite parse_object.
  destruct (parseFields f [] shape) as [[|i l] out] eqn:E; [|discriminate].
  intros H. injection H as <-. exists f, out. repeat split. exact E.
Qed.

Lemma parseFields_cons :
  forall f path key s rest out,
    parseFields f path ((key, s) :: rest) = ([], out) ->
    exists v out',
      Zod.parse s (path ++ [key])%list (Json.lookup key f) = ([], v)
      /\ parseFields f path rest = ([], out')
      /\ out = match v with Some x => (key, x) :: out' | None => out' end.
Proof.
  intros f path key s rest out. cbn [parseFields].
  destruct (Zod.parse s (path ++ [key])%list (Json.lookup key f)) as [is1 v].
  destruct (parseFields f path rest) as [is2 out'].
  intros H. injection H as H1 H2. apply app_eq_nil in H1 as [-> ->].
  exists v, out'. repeat split. now symmetry.
Qed.

Lemma parse_string_ok :
  forall minLen d path input v,
    Zod.parse (Zod.ZString minLen d) path input = ([], v) ->
    exists s, input = Some (Json.JStr s) /\ minLen <= strlen s /\ v = Some (Json.JStr s).
Proof.
  intros minLen d path input v. cbn [Zod.parse].
  destruct input as [[| | |s| |]|]; try (cbn; discriminate).
  destruct (strlen s <? minLen) eqn:E; [discriminate|].
  intros H. injection H as <-. apply Z.ltb_ge in E. exists s. repeat split. exact E.
Qed.

Lemma parse_integer_ok :
  forall lo hi d path input v,
    Zod.parse (Zod.ZNumber true (Some lo) hi d) path input = ([], v) ->
    exists q,
      input = Some (Json.JNum q) /\ Json.isInteger q = true /\ lo <= Json.toZ q
      /\ match hi with Some h => Json.toZ q <= h | None => True end
      /\ v = Some (Json.JNum q).
Proof.
  intros lo hi d path input v. cbn [Zod.parse].
  destruct input as [[| |q| | |]|]; try (cbn; discriminate).
  unfold Zod.numberIssues.
  destruct (Json.isInteger q) eqn:Iq; cbn [andb negb app]; [|discriminate].
  destruct (Qle_bool (inject_Z lo) q) eqn:Lq; cbn [app]; [|discriminate].
  destruct hi as [h|].
  - destruct (Qle_bool q (inject_Z h)) eqn:Hq; [|discriminate].
    intros H. injection H as <-. exists q. repeat split; auto using Qle_bool_floor.
    apply Qle_bool_iff in Hq. apply Qfloor_resp_le in Hq. now rewrite Qfloor_Z in Hq.
  - intros H. injection H as <-. exists q. repeat split; auto using Qle_bool_floor.
Qed.

(** The arguments that the schema of [get_excerpt] accepts, and what it
    hands on. *)
Lemma getExcerptArgs_accepted :
  forall args data,
    Zod.safeParseSchema Zod.GetExcerptArgsSchema args = inr data ->
    exists f p a b,
      args = Json.JObj f
      /\ Json.lookup "path" f = Some (Json.JStr p) /\ 1 <= strlen p
      /\ Json.lookup "startLine" f = Some (Json.JNum a)
      /\ Json.isInteger a = true /\ 1 <= Json.toZ a
      /\ Json.lookup "endLine" f = Some (Json.JNum b)
      /\ Json.isInteger b = true /\ 1 <= Json.toZ b
      /\ data = Json.JObj [("path", Json.JStr p); ("startLine", Json.JNum a);
                           ("endLine", Json.JNum b)].
Proof.
  intros args data H. unfold Zod.GetExcerptArgsSchema in H.
  destruct (safeParse_object _ _ _ H) as (f & out & -> & Hf & ->).
  destruct (parseFields_cons _ _ _ _ _ _ Hf) as (v1 & o1 & P1 & Hf1 & ->).
  destruct (parseFields_cons _ _ _ _ _ _ Hf1) as (v2 & o2 & P2 & Hf2 & ->).
  destruct (parseFields_cons _ _ _ _ _ _ Hf2) as (v3 & o3 & P3 & Hf3 & ->).
  cbn in Hf3. injection Hf3 as <-.
  destruct (parse_string_ok _ _ _ _ _ P1) as (p & Hp & Lp & ->).
  destruct (parse_integer_ok _ _ _ _ _ _ P2) as (a & Ha & Ia & La & _ & ->).
  destruct (parse_integer_ok _ _ _ _ _ _ P3) as (b & Hb & Ib & Lb & _ & ->).
  exists f, p, a, b. repeat split; assumption.
Qed.

Lemma getExcerpt_success :
  forall os args ctx,
    success (getExcerpt os args ctx) = true ->
    exists content,
      startsWith
        (NodePath.resolve (Fs.cwd os) [NodePath.join [repoPath ctx; GetExcerptArgs.path args]])
        (NodePath.resolve (Fs.cwd os) [repoPath ctx]) = true
      /\ Fs.stat os (NodePath.join [repoPath ctx; GetExcerptArgs.path args])
         = Some (Fs.File content).
Proof.
  intros os args ctx. unfold getExcerpt, Fs.existsSync, Fs.readFileSync.
  destruct (startsWith _ _); cbn [negb]; [|discriminate].
  destruct (Fs.stat os _) as [[content|]|]; cbn [negb]; try discriminate.
  intros _. exists content. split; reflexivity.
Qed.

(** X18.  A call of [get_excerpt] through the registry succeeds only on
    validated arguments and a file of the repository: the path is a string
    that is not empty, both line numbers are integers of at least 1, the
    resolved path begins with the resolved root, and the path names a
    regular file; the result is then that of [getExcerpt] on those
    arguments. *)
Theorem get_excerpt_succeeds_only_on_valid_calls :
  forall (w : World) (repoPath : string) (ix : option Indexer.t) (args : Json.t)
         (r : ToolResult),
    executeToolCall w (createToolRegistry w repoPath ix) "get_excerpt" (ArgObject args) = inr r ->
    success r = true ->
    exists f p a b content,
      args = Json.JObj f
      /\ Json.lookup "path" f = Some (Json.JStr p) /\ p <> ""
      /\ Json.lookup "startLine" f = Some (Json.JNum a)
      /\ Json.isInteger a = true /\ 1 <= Json.toZ a
      /\ Json.lookup "endLine" f = Some (Json.JNum b)
      /\ Json.isInteger b = true /\ 1 <= Json.toZ b
      /\ r = getExcerpt (os w) (GetExcerptArgs.mk p (Json.toZ a) (Json.toZ b))
               (mkToolContext repoPath ix)
      /\ startsWith
           (NodePath.resolve (Fs.cwd (os w)) [NodePath.join [repoPath; p]])
           (NodePath.resolve (Fs.cwd (os w)) [repoPath]) = true
      /\ Fs.stat (os w) (NodePath.join [repoPath; p]) = Some (Fs.File content).
Proof.
  intros w root ix args r. unfold executeToolCall, createToolRegistry, newToolRegistry.
  cbn [tools context fold_left TOOL_DEFINITIONS name mapSet mapGet String.eqb Ascii.eqb Bool.eqb
       parseArgs schema handler Zod.safeParse Zod.ofSchema].
  destruct (Zod.safeParseSchema Zod.GetExcerptArgsSchema args) as [issues|data] eqn:Hv.
  { intros H. injection H as <-. discriminate. }
  destruct (getExcerptArgs_accepted args data Hv)
    as (f & p & a & b & -> & Hp & Lp & Ha & Ia & La & Hb & Ib & Lb & ->).
  unfold getExcerptHandler, asGetExcerptArgs.
  cbn [Json.lookup String.eqb Ascii.eqb Bool.eqb].
  intros H Hs. injection H as <-.
  destruct (getExcerpt_success _ _ _ Hs) as (content & Hin & Hst).
  exists f, p, a, b, content. repeat split; try assumption.
  intros ->. cbn in Lp. lia.
Qed.

Lemma get_excerpt_succeeds_only_on_valid_calls_witness :
  exists f p a b content,
    Examples.excerptArgs = Json.JObj f
    /\ Json.lookup "path" f = Some (Json.JStr p) /\ p <> ""
    /\ Json.lookup "startLine" f = Some (Json.JNum a)
    /\ Json.isInteger a = true /\ 1 <= Json.toZ a
    /\ Json.lookup "endLine" f = Some (Json.JNum b)
    /\ Json.isInteger b = true /\ 1 <= Json.toZ b
    /\ getExcerpt Examples.os (GetExcerptArgs.mk "foo.ts" 1 5) (mkToolContext "/tmp/repo" None)
       = getExcerpt (os Examples.world) (GetExcerptArgs.mk p (Json.toZ a) (Json.toZ b))
           (mkToolContext "/tmp/repo" None)
    /\ startsWith
         (NodePath.resolve (Fs.cwd (os Examples.world)) [NodePath.join ["/tmp/repo"; p]])
         (NodePath.resolve (Fs.cwd (os Examples.world)) ["/tmp/repo"]) = true
    /\ Fs.stat (os Examples.world) (NodePath.join ["/tmp/repo"; p]) = Some (Fs.File content).
Proof.
  apply (get_excerpt_succeeds_only_on_valid_calls Examples.world "/tmp/repo" None
           Examples.excerptArgs).
  - vm_compute. reflexivity.
  - vm_compute. reflexivity.
Defined.

End ToolCallFacts.

Module SchemaFacts.
Import Js Tools RegistryDefs ToolCallFacts.

Lemma isInteger_ofZ : forall k, Json.isInteger (inject_Z k) = true.
Proof.
  intros k. unfold Json.isInteger, Qred, inject_Z.
  pose proof (Z.ggcd_gcd k 1) as Hg. pose proof (Z.ggcd_correct_divisors k 1) as Hd.
  destruct (Z.ggcd k 1) as [g [aa bb]]. cbn [fst snd] in *.
  rewrite Z.gcd_1_r in Hg. subst g. destruct Hd as [_ Hd].
  assert (bb = 1) by lia. subst bb. reflexivity.
Qed.

Lemma Qle_bool_inject : forall a b, Qle_bool (inject_Z a) (inject_Z b) = (a <=? b).
Proof.
  intros a b. destruct (a <=? b) eqn:E.
  - apply Qle_bool_iff. rewrite <- Zle_Qle. now apply Z.leb_le.
  - destruct (Qle_bool (inject_Z a) (inject_Z b)) eqn:F; [|reflexivity].
    apply Qle_bool_iff in F. rewrite <- Zle_Qle in F. apply Z.leb_le in F. congruence.
Qed.

Lemma toZ_ofZ : forall k, Json.toZ (inject_Z k) = k.
Proof. intros. apply Qfloor_Z. Qed.

Lemma lookup_string_field :
  forall f key s d path minLen,
    Json.lookup key f = Some (Json.JStr s) -> minLen <= strlen s ->
    Zod.parse (Zod.ZString minLen d) path (Json.lookup key f) = ([], Some (Json.JStr s)).
Proof.
  intros f key s d path minLen -> H. cbn [Zod.parse].
  replace (strlen s <? minLen) with false by (symmetry; apply Z.ltb_ge; lia). reflexivity.
Qed.

Lemma strlen_pos : forall s, s <> "" -> 1 <= strlen s.
Proof. intros [|c r] H; [now elim H|]. unfold strlen. cbn [String.length]. lia. Qed.

(** X19.  A call of [search_chunks] through the registry with a query that is
    not empty.  Without [topK] the handler is called with the default 10;
    an integer [topK] from 1 to 50 is handed on; a [topK] above 50 or below 1
    is refused by the validation, and the handler is not called. *)
Theorem search_chunks_call_applies_the_default :
  forall (w : World) (repoPath : string) (ix : option Indexer.t)
         (f : list (string * Json.t)) (q : string),
    Json.lookup "query" f = Some (Json.JStr q) ->
    q <> "" ->
    let call := executeToolCall w (createToolRegistry w repoPath ix) "search_chunks"
                  (ArgObject (Json.JObj f)) in
    let ctx := mkToolContext repoPath ix in
    (Json.lookup "topK" f = None ->
     call = inr (searchChunks (SearchChunksArgs.mk q (Some 10)) ctx))
    /\ (forall k, Json.lookup "topK" f = Some (Json.ofZ k) ->
          (1 <= k <= 50 -> call = inr (searchChunks (SearchChunksArgs.mk q (Some k)) ctx))
          /\ (50 < k ->
              call
              = inr (mkToolResult false DNull
                       ("Invalid arguments for " ++ dquote ++ "search_chunks" ++ dquote
                          ++ ": topK: Number must be less than or equal to 50")
                       (Some "Validation failed: topK: Number must be less than or equal to 50")))
          /\ (k < 1 ->
              call
              = inr (mkToolResult false DNull
                       ("Invalid arguments for " ++ dquote ++ "search_chunks" ++ dquote
                          ++ ": topK: Number must be greater than or equal to 1")
                       (Some "Validation failed: topK: Number must be greater than or equal to 1")))).
Proof.
  intros w root ix f q Hq Hne call ctx. subst call ctx.
  pose proof (strlen_pos q Hne) as Lq.
  unfold executeToolCall, createToolRegistry, newToolRegistry.
  cbn [tools context fold_left TOOL_DEFINITIONS name mapSet mapGet String.eqb Ascii.eqb Bool.eqb
       parseArgs schema handler Zod.safeParse Zod.ofSchema].
  unfold Zod.safeParseSchema, Zod.SearchChunksArgsSchema.
  rewrite parse_object. cbn [parseFields app].
  rewrite (lookup_string_field f "query" q _ _ 1 Hq Lq).
  split.
  - intros Hk. rewrite Hk. cbn [Zod.parse].
    change (Zod.numberIssues ["topK"] true (Some 1) (Some 50) (inject_Z 10)) with (@nil Zod.Issue).
    cbv iota beta. cbn [app].
    unfold searchChunksHandler, asSearchChunksArgs.
    cbn [Json.lookup String.eqb Ascii.eqb Bool.eqb Json.ofZ]. reflexivity.
  - intros k Hk. rewrite Hk. cbn [Zod.parse Json.ofZ].
    unfold Zod.numberIssues. rewrite isInteger_ofZ, !Qle_bool_inject. cbn [andb negb app].
    split; [|split]; intros Hr.
    + replace (1 <=? k) with true by (symmetry; apply Z.leb_le; lia).
      replace (k <=? 50) with true by (symmetry; apply Z.leb_le; lia).
      cbv iota beta. cbn [app].
      unfold searchChunksHandler, asSearchChunksArgs.
      cbn [Json.lookup String.eqb Ascii.eqb Bool.eqb]. now rewrite toZ_ofZ.
    + replace (1 <=? k) with true by (symmetry; apply Z.leb_le; lia).
      replace (k <=? 50) with false by (symmetry; apply Z.leb_gt; lia).
      reflexivity.
    + replace (1 <=? k) with false by (symmetry; apply Z.leb_gt; lia).
      replace (k <=? 50) with true by (symmetry; apply Z.leb_le; lia).
      reflexivity.
Qed.

Lemma search_chunks_call_applies_the_default_witness :
  executeToolCall Examples.world (createToolRegistry Examples.world "/tmp/repo" None)
    "search_chunks" (ArgObject (Json.JObj [("query", Json.JStr "agent loop")]))
  = inr (searchChunks (SearchChunksArgs.mk "agent loop" (Some 10))
           (mkToolContext "/tmp/repo" None)).
Proof.
  destruct (search_chunks_call_applies_the_default Examples.world "/tmp/repo" None
              [("query", Json.JStr "agent loop")] "agent loop" eq_refl) as [H _].
  - discriminate.
  - apply H. reflexivity.
Defined.

Lemma missing_field_is_required :
  forall f pth shape key s,
    In (key, s) shape -> Zod.isDefault s = false -> Json.lookup key f = None ->
    In (Zod.mkIssue (pth ++ [key]) "Required") (fst (parseFields f pth shape)).
Proof.
  intros f pth.
  induction shape as [|[k0 s0] rest IH]; intros key s Hin Hd Hl; [contradiction|].
  cbn [parseFields].
  destruct (Zod.parse s0 (pth ++ [k0])%list (Json.lookup k0 f)) as [is1 v] eqn:E1.
  destruct (parseFields f pth rest) as [is2 out] eqn:E2. cbn [fst].
  apply in_or_app. destruct Hin as [Heq|Hin].
  - left. injection Heq as -> ->. rewrite Hl in E1.
    destruct s; cbn in E1, Hd; try discriminate; injection E1 as <- _; now left.
  - right. exact (IH key s Hin Hd Hl).
Qed.

Lemma missing_field_refused :
  forall f shape key s,
    In (key, s) shape -> Zod.isDefault s = false -> Json.lookup key f = None ->
    exists issues,
      Zod.safeParseSchema (Zod.ZObject shape) (Json.JObj f) = inl issues
      /\ In (key ++ ": Required") (map issueText issues).
Proof.
  intros f shape key s Hin Hd Hl.
  pose proof (missing_field_is_required f [] shape key s Hin Hd Hl) as H.
  unfold Zod.safeParseSchema. rewrite parse_object.
  destruct (parseFields f [] shape) as [issues out]. cbn [fst] in H.
  destruct issues as [|i l]; [contradiction|].
  exists (i :: l). split; [reflexivity|].
  change (key ++ ": Required") with (issueText (Zod.mkIssue ([] ++ [key]) "Required")).
  now apply in_map.
Qed.

(** X20.  The schema that a built-in tool shows to the model is the one its
    validation enforces: a call whose arguments lack a key that the JSON
    schema lists as required is refused, the handler is not called, and the
    error names the key: "<key>: Required". *)
Theorem required_keys_are_enforced :
  forall (w : World) (repoPath : string) (ix : option Indexer.t) (t : ToolSchema.t)
         (key : string) (f : list (string * Json.t)),
    In t (getToolSchemas (createToolRegistry w repoPath ix)) ->
    In key (match Zod.JsonSchema.required (ToolSchema.parameters t) with
            | Some keys => keys
            | None => []
            end) ->
    Json.lookup key f = None ->
    exists msg,
      executeToolCall w (createToolRegistry w repoPath ix) (ToolSchema.name t)
        (ArgObject (Json.JObj f))
      = inr (mkToolResult false DNull
               ("Invalid arguments for " ++ dquote ++ ToolSchema.name t ++ dquote ++ ": " ++ msg)
               (Some ("Validation failed: " ++ msg)))
      /\ includes msg (key ++ ": Required") = true.
Proof.
  intros w root ix t key f Ht Hk Hl.
  unfold getToolSchemas, createToolRegistry, newToolRegistry in Ht.
  cbn [tools fold_left TOOL_DEFINITIONS name mapSet String.eqb Ascii.eqb Bool.eqb map snd
       description schema Zod.ofSchema Zod.jsonSchema] in Ht.
  unfold executeToolCall, createToolRegistry, newToolRegistry.
  repeat (destruct Ht as [<-|Ht]);
    try contradiction;
    cbn [ToolSchema.parameters ToolSchema.name Zod.zodToJsonSchema Zod.JsonSchema.required
         Zod.SearchChunksArgsSchema Zod.GetExcerptArgsSchema Zod.GraphNeighborsArgsSchema
         Zod.ListFilesArgsSchema Zod.GetRepoSummaryArgsSchema Zod.requiredKeys filter map
         Zod.isDefault negb snd fst] in Hk;
    cbn [tools context fold_left TOOL_DEFINITIONS name mapSet mapGet String.eqb Ascii.eqb
         Bool.eqb parseArgs schema handler Zod.safeParse Zod.ofSchema ToolSchema.name];
    repeat (destruct Hk as [<-|Hk]); try contradiction;
    unfold Zod.SearchChunksArgsSchema, Zod.GetExcerptArgsSchema, Zod.GraphNeighborsArgsSchema,
      Zod.ListFilesArgsSchema;
    match goal with
    | Hl : Json.lookup ?k f = None
      |- context [Zod.safeParseSchema (Zod.ZObject ?shape) (Json.JObj f)] =>
        edestruct (missing_field_refused f shape k) as (issues & E & Hin);
        [ first [ left; reflexivity | right; left; reflexivity
                | right; right; left; reflexivity ]
        | reflexivity | exact Hl | ]
    end;
    rewrite E; eexists; (split; [reflexivity|]);
    apply StringFacts.includes_join; exact Hin.
Qed.

Lemma required_keys_are_enforced_witness :
  exists msg,
    executeToolCall Examples.world (createToolRegistry Examples.world "/tmp/repo" None)
      "get_excerpt" (ArgObject (Json.JObj [("path", Json.JStr "foo.ts")]))
    = inr (mkToolResult false DNull
             ("Invalid arguments for " ++ dquote ++ "get_excerpt" ++ dquote ++ ": " ++ msg)
             (Some ("Validation failed: " ++ msg)))
    /\ includes msg "endLine: Required" = true.
Proof.
  apply (required_keys_are_enforced Examples.world "/tmp/repo" None
           (ToolSchema.mk "get_excerpt"
              "Get a specific excerpt from a file by line range. Returns the content with line numbers."
              (Zod.zodToJsonSchema Zod.GetExcerptArgsSchema))
           "endLine" [("path", Json.JStr "foo.ts")]).
  - right. left. reflexivity.
  - right. right. left. reflexivity.
  - reflexivity.
Defined.

End SchemaFacts.

(* ------------------------------------------------------------------ *)
(** ** The full-text query *)
(* ------------------------------------------------------------------ *)

Module QueryFacts.
Import Js Indexer QueryDefs.

Lemma splitSpaces_cons :
  forall s, exists h t, splitSpaces s = h :: t.
Proof.
  induction s as [|a r IH]; cbn [splitSpaces]; [eexists _, _; reflexivity|].
  destruct (isSpace a).
  - destruct r as [|b r']; [eexists _, _; reflexivity|].
    destruct (isSpace b); [exact IH | eexists _, _; reflexivity].
  - destruct IH as (h & t & ->). eexists _, _; reflexivity.
Qed.

Lemma splitSpaces_every :
  forall p s,
    everyChar p s = true -> Forall (fun t => everyChar p t = true) (splitSpaces s).
Proof.
  induction s as [|a r IH]; intros H; cbn [splitSpaces].
  - repeat constructor.
  - cbn in H. apply andb_true_iff in H as [Ha Hr]. specialize (IH Hr).
    destruct (isSpace a).
    + destruct r as [|b r']; [repeat constructor|].
      destruct (isSpace b); [exact IH | constructor; [reflexivity | exact IH]].
    + destruct (splitSpaces r) as [|h t]; [repeat constructor; cbn; now rewrite Ha|].
      inversion IH; subst. constructor; [cbn; now rewrite Ha | assumption].
Qed.

Lemma splitSpaces_no_space :
  forall s, Forall (fun t => everyChar (fun c => negb (isSpace c)) t = true) (splitSpaces s).
Proof.
  induction s as [|a r IH]; cbn [splitSpaces].
  - repeat constructor.
  - destruct (isSpace a) eqn:Ea.
    + destruct r as [|b r']; [repeat constructor|].
      destruct (isSpace b); [exact IH | constructor; [reflexivity | exact IH]].
    + destruct (splitSpaces r) as [|h t]; [repeat constructor; cbn; now rewrite Ea|].
      inversion IH; subst. constructor; [cbn; now rewrite Ea | assumption].
Qed.

Lemma splitSpaces_blank :
  forall s, everyChar isSpace s = true -> Forall (fun t => t = "") (splitSpaces s).
Proof.
  induction s as [|a r IH]; intros H; cbn [splitSpaces].
  - repeat constructor.
  - cbn in H. apply andb_true_iff in H as [Ha Hr]. rewrite Ha. specialize (IH Hr).
    destruct r as [|b r']; [repeat constructor|].
    destruct (isSpace b); [exact IH | constructor; [reflexivity | exact IH]].
Qed.

Lemma splitSpaces_not_blank :
  forall s, everyChar isSpace s = false -> Exists (fun t => t <> "") (splitSpaces s).
Proof.
  induction s as [|a r IH]; intros H; cbn [splitSpaces]; [discriminate|].
  cbn in H. destruct (isSpace a) eqn:Ea; cbn in H.
  - specialize (IH H). destruct r as [|b r']; [discriminate|].
    destruct (isSpace b); [exact IH | now apply Exists_cons_tl].
  - destruct (splitSpaces r) as [|h t]; apply Exists_cons_hd; discriminate.
Qed.

Lemma removeChars_every :
  forall p s, everyChar (fun c => negb (p c)) (removeChars p s) = true.
Proof.
  induction s as [|c r IH]; cbn; [reflexivity|].
  destruct (p c) eqn:E; [exact IH | cbn; now rewrite E].
Qed.

Lemma removeChars_blank :
  forall s, everyChar isSpace (removeChars isQuote s) = everyChar blankChar s.
Proof.
  induction s as [|c r IH]; cbn; [reflexivity|]. unfold blankChar at 1.
  destruct (isQuote c) eqn:Q; cbn.
  - rewrite orb_true_r. exact IH.
  - rewrite orb_false_r, IH. reflexivity.
Qed.

Lemma join_nonempty :
  forall sep h t, h <> "" -> join sep (h :: t) <> "".
Proof.
  intros sep h t H. unfold join. destruct h; [now elim H|].
  destruct t; cbn; discriminate.
Qed.

Lemma sanitizedQuery_terms :
  forall query,
    sanitizedQuery query
    = join " OR " (map (fun term => dquote ++ term ++ dquote) (terms query)).
Proof. reflexivity. Qed.

(** X21.  The full-text query that [search] builds is a list of quoted terms
    joined by " OR "; no term is empty, and no term holds white space or a
    quote, so the text of the user cannot close a quoted term. *)
Theorem sanitizedQuery_quotes_every_term :
  forall query : string,
    sanitizedQuery query
    = join " OR " (map (fun term => dquote ++ term ++ dquote) (terms query))
    /\ Forall (fun term => term <> "" /\ everyChar termChar term = true) (terms query).
Proof.
  intros query. split; [reflexivity|].
  unfold terms. apply Forall_forall. intros t Hin.
  apply filter_In in Hin as [Hin Hlen].
  split.
  - intros ->. discriminate Hlen.
  - pose proof (splitSpaces_no_space (removeChars isQuote query)) as H1.
    pose proof (splitSpaces_every (fun c => negb (isQuote c)) _
                  (removeChars_every isQuote query)) as H2.
    rewrite Forall_forall in H1, H2. specialize (H1 t Hin). specialize (H2 t Hin).
    clear Hin Hlen. induction t as [|c r IH]; [reflexivity|].
    cbn in H1, H2 |- *. apply andb_true_iff in H1 as [A1 B1]. apply andb_true_iff in H2 as [A2 B2].
    unfold termChar at 1. rewrite A1, A2. cbn. now apply IH.
Qed.

Lemma terms_nil_iff :
  forall query, terms query = [] <-> everyChar blankChar query = true.
Proof.
  intros query. unfold terms. rewrite <- removeChars_blank.
  set (s := removeChars isQuote query). split.
  - intros H. destruct (everyChar isSpace s) eqn:E; [reflexivity|].
    apply splitSpaces_not_blank in E. apply Exists_exists in E as (t & Hin & Hne).
    assert (In t (filter (fun term => 0 <? strlen term) (splitSpaces s))).
    { apply filter_In. split; [exact Hin|]. destruct t; [now elim Hne | reflexivity]. }
    rewrite H in H0. contradiction.
  - intros H. apply splitSpaces_blank in H.
    induction (splitSpaces s) as [|t l IH]; [reflexivity|].
    inversion H; subst. cbn. now apply IH.
Qed.

(** X22.  A query without a term - empty, or made of white space and quotes -
    finds nothing, and the database is not consulted: the result is the
    empty list whatever the database would do.  Every other query goes to
    the database, whose exception [search] does not catch. *)
Theorem search_of_a_blank_query :
  forall (ix : Indexer.t) (query : string) (topK : Z),
    (everyChar blankChar query = true -> search ix query topK = inr [])
    /\ (everyChar blankChar query = false ->
        sanitizedQuery query <> ""
        /\ search ix query topK
           = match ftsAll (db ix) (sanitizedQuery query) topK with
             | inl e => inl e
             | inr rows => inr (map (rowToResult query) rows)
             end).
Proof.
  intros ix query topK.
  split; intros H.
  - apply terms_nil_iff in H. unfold search.
    rewrite (sanitizedQuery_terms query), H. reflexivity.
  - assert (Hne : sanitizedQuery query <> "").
    { rewrite (sanitizedQuery_terms query).
      destruct (terms query) as [|t l] eqn:E.
      - apply terms_nil_iff in E. congruence.
      - cbn [map]. apply join_nonempty. unfold dquote, str1. discriminate. }
    split; [exact Hne|]. unfold search.
    apply String.eqb_neq in Hne. now rewrite Hne.
Qed.

End QueryFacts.

(* ------------------------------------------------------------------ *)
(** ** The glob matcher *)
(* ------------------------------------------------------------------ *)

Module GlobFacts.
Import Js Glob.

Lemma replaceChar_app :
  forall c rep a b, replaceChar c rep (a ++ b) = replaceChar c rep a ++ replaceChar c rep b.
Proof.
  induction a as [|x a IH]; intros b; [reflexivity|].
  cbn [append replaceChar]. rewrite IH. now rewrite StringFacts.append_assoc.
Qed.

Lemma replaceChar_absent :
  forall c rep s,
    everyChar (fun x => negb (Ascii.eqb x c)) s = true -> replaceChar c rep s = s.
Proof.
  induction s as [|x r IH]; intros H; [reflexivity|].
  cbn in H. apply andb_true_iff in H as [Hx Hr]. cbn [replaceChar].
  apply negb_true_iff in Hx. rewrite Hx, (IH Hr). reflexivity.
Qed.

Lemma prefix_head :
  forall p0 pat x r, Ascii.eqb x p0 = false -> String.prefix (String p0 pat) (String x r) = false.
Proof.
  intros p0 pat x r H. cbn [String.prefix].
  destruct (ascii_dec p0 x) as [->|]; [|reflexivity]. now rewrite Ascii.eqb_refl in H.
Qed.

Lemma replaceAll_app_absent :
  forall p0 pat rep a b,
    everyChar (fun x => negb (Ascii.eqb x p0)) a = true ->
    replaceAll (String p0 pat) rep 0 (a ++ b) = a ++ replaceAll (String p0 pat) rep 0 b.
Proof.
  induction a as [|x a IH]; intros b H; [reflexivity|].
  cbn in H. apply andb_true_iff in H as [Hx Ha]. apply negb_true_iff in Hx.
  change (String x a ++ b) with (String x (a ++ b)).
  cbn [replaceAll]. rewrite (prefix_head p0 pat x (a ++ b) Hx). now rewrite IH.
Qed.

Lemma replaceAll_absent :
  forall p0 pat rep s,
    everyChar (fun x => negb (Ascii.eqb x p0)) s = true ->
    replaceAll (String p0 pat) rep 0 s = s.
Proof.
  intros p0 pat rep s H.
  rewrite <- (StringFacts.append_nil_r s) at 1.
  rewrite replaceAll_app_absent by assumption. cbn. apply StringFacts.append_nil_r.
Qed.

Lemma everyChar_replaceChar :
  forall (q : ascii -> bool) c rep s,
    everyChar q rep = true ->
    everyChar (fun x => Ascii.eqb x c || q x) s = true ->
    everyChar q (replaceChar c rep s) = true.
Proof.
  induction s as [|x r IH]; intros Hrep H; [reflexivity|].
  cbn in H. apply andb_true_iff in H as [Hx Hr]. cbn [replaceChar].
  rewrite CitationFacts.everyChar_app, (IH Hrep Hr), andb_true_r.
  destruct (Ascii.eqb x c); [exact Hrep|]. cbn in Hx |- *. now rewrite Hx.
Qed.

(** The escaped form of a text of plain characters holds none of the
    characters that the later replacements look for. *)
Lemma escape_clean :
  forall s c,
    everyChar plainChar s = true -> isSyntax c = true -> c <> "."%char -> c <> "\"%char ->
    everyChar (fun x => negb (Ascii.eqb x c)) (replaceChar "." "\." s) = true.
Proof.
  intros s c Hs Hc Hd Hb. apply everyChar_replaceChar.
  - change (negb (Ascii.eqb "\" c) && (negb (Ascii.eqb "." c) && true) = true).
    apply Ascii.eqb_neq in Hd, Hb. rewrite Ascii.eqb_sym in Hd, Hb.
    now rewrite Hb, Hd.
  - eapply FormatFacts.everyChar_impl; [|exact Hs].
    intros x Hx. unfold plainChar in Hx.
    destruct (Ascii.eqb x ".") eqn:E; [reflexivity|].
    rewrite orb_false_l in Hx |- *.
    destruct (Ascii.eqb x c) eqn:F; [|reflexivity].
    apply Ascii.eqb_eq in F. subst x. rewrite Hc in Hx. discriminate.
Qed.


Lemma regexPattern_plain :
  forall s, everyChar plainChar s = true -> regexPattern s = escape s.
Proof.
  intros s H. unfold regexPattern. fold (escape s).
  rewrite (replaceAll_absent "*" "*" _ (escape s))
    by (apply escape_clean; (assumption || reflexivity || discriminate)).
  rewrite (replaceChar_absent "*" _ (escape s))
    by (apply escape_clean; (assumption || reflexivity || discriminate)).
  rewrite (replaceChar_absent "?" _ (escape s))
    by (apply escape_clean; (assumption || reflexivity || discriminate)).
  apply replaceAll_absent. apply escape_clean; (assumption || reflexivity || discriminate).
Qed.

Lemma regexPattern_one_star :
  forall pre suf,
    everyChar plainChar pre = true -> everyChar plainChar suf = true ->
    regexPattern (pre ++ "*" ++ suf) = escape pre ++ "[^/]*" ++ escape suf.
Proof.
  intros pre suf Hp Hs. unfold regexPattern.
  rewrite !replaceChar_app. fold (escape pre) (escape suf).
  change (replaceChar "." "\." "*") with "*".
  rewrite (replaceAll_app_absent "*" "*" _ (escape pre))
    by (apply escape_clean; (assumption || reflexivity || discriminate)).
  assert (E2 : replaceAll "**" "{{GLOBSTAR}}" 0 ("*" ++ escape suf) = "*" ++ escape suf).
  { change ("*" ++ escape suf) with (String "*" (escape suf)). cbn [replaceAll].
    assert (P : String.prefix "**" (String "*" (escape suf)) = false).
    { pose proof (escape_clean suf "*" Hs eq_refl ltac:(discriminate) ltac:(discriminate)) as Hc.
      fold (escape suf) in Hc.
      destruct (escape suf) as [|x r]; [reflexivity|].
      cbn in Hc. apply andb_true_iff in Hc as [Hx _]. apply negb_true_iff in Hx.
      rewrite FormatFacts.prefix_cons.
      destruct (ascii_dec "*" "*") as [_|N]; [|now elim N].
      now apply prefix_head. }
    rewrite P. f_equal. apply replaceAll_absent.
    apply escape_clean; (assumption || reflexivity || discriminate). }
  rewrite E2. rewrite !replaceChar_app.
  rewrite !(replaceChar_absent "*" _ (escape _))
    by (apply escape_clean; (assumption || reflexivity || discriminate)).
  change (replaceChar "*" "[^/]*" "*") with "[^/]*".
  rewrite !(replaceChar_absent "?" _ (escape _))
    by (apply escape_clean; (assumption || reflexivity || discriminate)).
  change (replaceChar "?" "." "[^/]*") with "[^/]*".
  rewrite (replaceAll_app_absent "{" _ _ (escape pre))
    by (apply escape_clean; (assumption || reflexivity || discriminate)).
  f_equal.
  rewrite (replaceAll_app_absent "{" _ _ "[^/]*") by reflexivity.
  f_equal. apply replaceAll_absent.
  apply escape_clean; (assumption || reflexivity || discriminate).
Qed.



Lemma compile_plain :
  forall c r,
    isSyntax c = false -> compile (String c r) = option_map (cons (Lit c)) (compile r).
Proof.
  intros c r H.
  destruct c as [[] [] [] [] [] [] [] []]; try discriminate H; reflexivity.
Qed.

Lemma compile_escape :
  forall s rest,
    everyChar plainChar s = true ->
    compile (escape s ++ rest) = option_map (@app Atom (literally s)) (compile rest).
Proof.
  induction s as [|c s IH]; intros rest H.
  - cbn. destruct (compile rest); reflexivity.
  - cbn in H. apply andb_true_iff in H as [Hc Hs]. unfold plainChar in Hc.
    unfold escape. cbn [replaceChar]. fold (escape s).
    destruct (Ascii.eqb c ".") eqn:E.
    + apply Ascii.eqb_eq in E. subst c. rewrite StringFacts.append_assoc.
      change ("\." ++ escape s ++ rest) with (String "\" (String "." (escape s ++ rest))).
      cbn [compile]. rewrite IH by assumption.
      destruct (compile rest); reflexivity.
    + cbn in Hc. apply negb_true_iff in Hc.
      change ((String c "" ++ escape s) ++ rest) with (String c (escape s ++ rest)).
      rewrite compile_plain by assumption. rewrite IH by assumption.
      destruct (compile rest); reflexivity.
Qed.

Lemma matchAtoms_literally :
  forall s rest f,
    matchAtoms (literally s ++ rest)%list f = true
    <-> exists f', f = s ++ f' /\ matchAtoms rest f' = true.
Proof.
  induction s as [|c s IH]; intros rest f.
  - cbn. split; [intros H; now exists f | intros (f' & -> & H); exact H].
  - cbn [literally app matchAtoms]. destruct f as [|x f].
    + split; [discriminate | intros (f' & E & _); discriminate E].
    + split.
      * intros H. apply andb_true_iff in H as [Hx Hr]. apply Ascii.eqb_eq in Hx. subst x.
        apply IH in Hr as (f' & -> & Hr). now exists f'.
      * intros (f' & E & Hr). injection E as -> ->. rewrite Ascii.eqb_refl.
        apply IH. now exists f'.
Qed.

Lemma matchAtoms_end : forall f, matchAtoms [] f = true <-> f = "".
Proof. intros [|c r]; cbn; split; (reflexivity || discriminate). Qed.

Lemma star_spec :
  forall p k s,
    star p k s = true
    <-> exists a b, s = a ++ b /\ everyChar p a = true /\ k b = true.
Proof.
  induction s as [|x r IH]; cbn [star].
  - rewrite orb_false_r. split.
    + intros H. exists "", "". repeat split. exact H.
    + intros (a & b & E & _ & Hk). destruct a; [|discriminate E]. cbn in E. now subst b.
  - split.
    + intros H. apply orb_true_iff in H as [H|H].
      * exists "", (String x r). repeat split. exact H.
      * apply andb_true_iff in H as [Hx Hr]. apply IH in Hr as (a & b & -> & Ha & Hb).
        exists (String x a), b. repeat split; [cbn; now rewrite Hx | exact Hb].
    + intros (a & b & E & Ha & Hk). apply orb_true_iff.
      destruct a as [|y a].
      * left. cbn in E. now subst b.
      * right. injection E as -> ->. cbn in Ha. apply andb_true_iff in Ha as [Hy Ha].
        rewrite Hy. apply IH. now exists a, b.
Qed.

(** X23.  Patterns of plain characters (a dot, or a character without a
    meaning in a regular expression) with at most one star.  Without a star
    the pattern matches itself and nothing else: a dot matches only a dot.
    With one star, [pre*suf] matches exactly the paths [pre ++ mid ++ suf]
    where [mid] holds no slash: the star does not reach into a directory.
    Both kinds of pattern are within the regular expressions of the model. *)
Theorem matchGlob_with_one_star :
  forall (filepath pre suf : string),
    everyChar plainChar pre = true ->
    everyChar plainChar suf = true ->
    (matchGlob filepath pre = Some true <-> filepath = pre)
    /\ (exists b, matchGlob filepath pre = Some b)
    /\ (matchGlob filepath (pre ++ "*" ++ suf) = Some true
        <-> exists mid,
              filepath = pre ++ mid ++ suf /\ everyChar notSlash mid = true)
    /\ (exists b, matchGlob filepath (pre ++ "*" ++ suf) = Some b).
Proof.
  intros f pre suf Hp Hs.
  assert (C1 : compile (regexPattern pre) = Some (literally pre ++ [])%list).
  { rewrite regexPattern_plain by assumption.
    rewrite <- (StringFacts.append_nil_r (escape pre)).
    now rewrite compile_escape. }
  assert (C2 : compile (regexPattern (pre ++ "*" ++ suf))
               = Some (literally pre ++ NotSlashStar :: literally suf ++ [])%list).
  { rewrite regexPattern_one_star by assumption.
    rewrite compile_escape by assumption.
    change ("[^/]*" ++ escape suf)
      with (String "[" (String "^" (String "/" (String "]" (String "*" (escape suf)))))).
    cbn [compile].
    rewrite <- (StringFacts.append_nil_r (escape suf)).
    now rewrite compile_escape. }
  unfold matchGlob. rewrite C1, C2. cbn [option_map].
  split; [|split; [eexists; reflexivity | split; [|eexists; reflexivity]]].
  - split.
    + intros H. injection H as H. apply matchAtoms_literally in H as (f' & -> & H).
      apply matchAtoms_end in H. subst. apply StringFacts.append_nil_r.
    + intros ->. f_equal. apply matchAtoms_literally. exists "".
      split; [now rewrite StringFacts.append_nil_r | reflexivity].
  - split.
    + intros H. injection H as H. apply matchAtoms_literally in H as (f' & -> & H).
      cbn [matchAtoms] in H. apply star_spec in H as (mid & b & -> & Hm & Hb).
      apply matchAtoms_literally in Hb as (e & -> & He). apply matchAtoms_end in He. subst e.
      exists mid. split; [|exact Hm]. now rewrite StringFacts.append_nil_r.
    + intros (mid & -> & Hm). f_equal. apply matchAtoms_literally.
      exists (mid ++ suf). split; [reflexivity|]. cbn [matchAtoms].
      apply star_spec. exists mid, suf. repeat split; [exact Hm|].
      apply matchAtoms_literally. exists "".
      split; [now rewrite StringFacts.append_nil_r | reflexivity].
Qed.

Lemma matchGlob_with_one_star_witness :
  matchGlob "index.ts" ("" ++ "*" ++ ".ts") = Some true
  <-> exists mid, "index.ts" = "" ++ mid ++ ".ts" /\ everyChar notSlash mid = true.
Proof.
  apply (matchGlob_with_one_star "index.ts" "" ".ts"); reflexivity.
Defined.


End GlobFacts.

(* ------------------------------------------------------------------ *)
(** ** The file reader of the first agent *)
(* ------------------------------------------------------------------ *)

Module LegacyToolFacts.
Import Js LegacyTools.








End LegacyToolFacts.

(* ------------------------------------------------------------------ *)
(** ** The containment test on plain paths *)
(* ------------------------------------------------------------------ *)

Module PathFacts.
Import Js PathDefs.

Lemma splitChar_segment :
  forall a rest,
    everyChar Glob.notSlash a = true ->
    splitChar "/" (a ++ "/" ++ rest) = a :: splitChar "/" rest.
Proof.
  induction a as [|c a IH]; intros rest H.
  - reflexivity.
  - cbn in H. apply andb_true_iff in H as [Hc Ha].
    unfold Glob.notSlash in Hc. apply negb_true_iff in Hc.
    change (String c a ++ "/" ++ rest) with (String c (a ++ "/" ++ rest)).
    cbn [splitChar]. rewrite Hc, IH by assumption. reflexivity.
Qed.

Lemma splitChar_one :
  forall a, everyChar Glob.notSlash a = true -> splitChar "/" a = [a].
Proof.
  induction a as [|c a IH]; intros H; [reflexivity|].
  cbn in H. apply andb_true_iff in H as [Hc Ha].
  unfold Glob.notSlash in Hc. apply negb_true_iff in Hc.
  cbn [splitChar]. rewrite Hc, IH by assumption. reflexivity.
Qed.

Lemma plain_no_slash : forall s, plainSegment s -> everyChar Glob.notSlash s = true.
Proof. intros s (_ & _ & _ & H). exact H. Qed.

Lemma join_cons :
  forall sep x y l, join sep (x :: y :: l) = x ++ sep ++ join sep (y :: l).
Proof. reflexivity. Qed.

(** The segments of a path that goes on after [segs]. *)
Lemma splitChar_join_app :
  forall segs rest,
    Forall plainSegment segs ->
    splitChar "/" (join "/" segs ++ "/" ++ rest)
    = (match segs with [] => [""] | _ => segs end ++ splitChar "/" rest)%list.
Proof.
  induction segs as [|x l IH]; intros rest H; [reflexivity|].
  inversion H as [|? ? Hx Hl]; subst. destruct l as [|y l].
  - cbn [join String.concat]. rewrite splitChar_segment by now apply plain_no_slash.
    reflexivity.
  - rewrite join_cons, !StringFacts.append_assoc.
    rewrite splitChar_segment by now apply plain_no_slash.
    rewrite (IH rest Hl). reflexivity.
Qed.

Lemma splitChar_join :
  forall segs,
    Forall plainSegment segs ->
    splitChar "/" (join "/" segs) = match segs with [] => [""] | _ => segs end.
Proof.
  induction segs as [|x l IH]; intros H; [reflexivity|].
  inversion H as [|? ? Hx Hl]; subst. destruct l as [|y l].
  - cbn [join String.concat]. now apply splitChar_one, plain_no_slash.
  - rewrite join_cons. rewrite splitChar_segment by now apply plain_no_slash.
    rewrite (IH Hl). reflexivity.
Qed.

Lemma normSegs_blank :
  forall b acc rest, NodePath.normSegs b acc ("" :: rest) = NodePath.normSegs b acc rest.
Proof. reflexivity. Qed.

Lemma normSegs_plain :
  forall b segs acc rest,
    Forall plainSegment segs ->
    NodePath.normSegs b acc (segs ++ rest) = NodePath.normSegs b (rev segs ++ acc) rest.
Proof.
  induction segs as [|s l IH]; intros acc rest H; [reflexivity|].
  inversion H as [|? ? (H1 & H2 & H3 & _) Hl]; subst.
  cbn [app NodePath.normSegs].
  apply String.eqb_neq in H1, H2, H3. rewrite H1, H2, H3. cbn [orb].
  rewrite IH by assumption. cbn [rev]. now rewrite <- app_assoc.
Qed.

Lemma normSegs_some_blank :
  forall b segs acc rest,
    Forall plainSegment segs ->
    NodePath.normSegs b acc (match segs with [] => [""] | _ => segs end ++ rest)
    = NodePath.normSegs b (rev segs ++ acc) rest.
Proof.
  intros b segs acc rest H. destruct segs as [|s l]; [reflexivity|].
  now apply normSegs_plain.
Qed.

Lemma join_app :
  forall sep a b,
    a <> [] -> b <> [] -> join sep (a ++ b) = join sep a ++ sep ++ join sep b.
Proof.
  induction a as [|x a IH]; intros b Ha Hb; [now elim Ha|].
  destruct a as [|y a].
  - destruct b as [|z b]; [now elim Hb|]. reflexivity.
  - change ((x :: y :: a) ++ b)%list with (x :: y :: (a ++ b))%list.
    rewrite !join_cons. change (y :: (a ++ b))%list with ((y :: a) ++ b)%list.
    rewrite IH by (assumption || discriminate).
    now rewrite !StringFacts.append_assoc.
Qed.

Lemma join_plain_nonempty :
  forall segs, Forall plainSegment segs -> segs <> [] -> join "/" segs <> "".
Proof.
  intros segs H Hne. destruct segs as [|x l]; [now elim Hne|].
  inversion H as [|? ? (Hx & _) _]; subst.
  destruct l; cbn; destruct x; try discriminate; now elim Hx.
Qed.

Lemma endsWithChar_app :
  forall a s c, s <> "" -> endsWithChar (a ++ s) c = endsWithChar s c.
Proof.
  intros a s c Hs. unfold endsWithChar.
  assert (E : list_ascii_of_string (a ++ s)
              = (list_ascii_of_string a ++ list_ascii_of_string s)%list).
  { induction a; cbn; [reflexivity | now rewrite IHa]. }
  rewrite E, rev_app_distr.
  destruct s as [|x s]; [now elim Hs|].
  cbn [list_ascii_of_string rev].
  destruct (rev (list_ascii_of_string s)); reflexivity.
Qed.

Lemma endsWithChar_every :
  forall p s c, everyChar p s = true -> p c = false -> endsWithChar s c = false.
Proof.
  intros p s c H Hc. unfold endsWithChar.
  assert (F : Forall (fun x => p x = true) (rev (list_ascii_of_string s))).
  { apply Forall_rev. induction s as [|x s IH]; [constructor|].
    cbn in H. apply andb_true_iff in H as [Hx Hs]. constructor; auto. }
  destruct (rev (list_ascii_of_string s)) as [|x l]; [reflexivity|].
  inversion F; subst. destruct (Ascii.eqb_spec x c); [congruence | reflexivity].
Qed.

Lemma join_no_slash_end :
  forall a segs,
    Forall plainSegment segs -> segs <> [] -> endsWithChar (a ++ join "/" segs) "/" = false.
Proof.
  intros a segs H Hne. revert a. induction H as [|x l Hx Hl IH]; [now elim Hne|].
  intros a. destruct l as [|y l].
  - cbn [join String.concat]. destruct Hx as (Hx & _ & _ & Hs).
    rewrite endsWithChar_app by assumption.
    now apply (endsWithChar_every Glob.notSlash).
  - rewrite join_cons. rewrite <- !StringFacts.append_assoc. apply IH. discriminate.
Qed.

(** The path that [path.join] builds from an absolute root and a relative
    path, both of plain segments. *)
Lemma join_plain :
  forall rsegs psegs,
    Forall plainSegment rsegs -> Forall plainSegment psegs -> psegs <> [] ->
    NodePath.join [absolutePath rsegs; join "/" psegs] = absolutePath (rsegs ++ psegs).
Proof.
  intros rsegs psegs Hr Hp Hne.
  pose proof (join_plain_nonempty psegs Hp Hne) as Hpn.
  unfold NodePath.join, absolutePath. cbn [filter].
  change (("/" ++ join "/" rsegs =? "")%string) with false. cbn [negb].
  apply String.eqb_neq in Hpn. rewrite Hpn. cbn [negb].
  unfold join at 1. cbn [String.concat].
  unfold NodePath.normalize.
  change ((("/" ++ join "/" rsegs) ++ "/" ++ join "/" psegs =? "")%string) with false.
  cbv iota. change (NodePath.isAbsolute (("/" ++ join "/" rsegs) ++ "/" ++ join "/" psegs)) with true.
  rewrite <- !StringFacts.append_assoc.
  rewrite join_no_slash_end by assumption.
  rewrite !StringFacts.append_assoc.
  unfold NodePath.normalizeString. cbn [negb].
  change ("/" ++ join "/" rsegs ++ "/" ++ join "/" psegs)
    with (String "/" (join "/" rsegs ++ "/" ++ join "/" psegs)).
  cbn [splitChar]. change (Ascii.eqb "/" "/") with true. cbv iota.
  rewrite splitChar_join_app, splitChar_join by assumption.
  rewrite normSegs_blank, normSegs_some_blank by assumption.
  assert (E : match psegs with [] => [""] | _ => psegs end = (psegs ++ [])%list).
  { destruct psegs; [now elim Hne | now rewrite app_nil_r]. }
  rewrite E, normSegs_plain by assumption. cbn [NodePath.normSegs].
  rewrite app_nil_r, rev_app_distr, !rev_involutive.
  assert (Hq : join "/" (rsegs ++ psegs) <> "").
  { apply join_plain_nonempty; [now apply Forall_app | destruct rsegs; [assumption | discriminate]]. }
  apply String.eqb_neq in Hq. rewrite Hq. reflexivity.
Qed.

(** [path.resolve] of an absolute path of plain segments is the path. *)
Lemma resolve_plain :
  forall cwd segs,
    Forall plainSegment segs ->
    NodePath.resolve cwd [absolutePath segs] = absolutePath segs.
Proof.
  intros cwd segs H. unfold NodePath.resolve, absolutePath. cbn [rev app NodePath.resolveScan].
  change (("/" ++ join "/" segs =? "")%string) with false. cbv iota.
  change (NodePath.isAbsolute ("/" ++ join "/" segs)) with true. cbv iota.
  unfold NodePath.normalizeString. cbn [negb].
  change (("/" ++ join "/" segs) ++ "/" ++ "")
    with (String "/" (join "/" segs ++ "/" ++ "")).
  cbn [splitChar]. change (Ascii.eqb "/" "/") with true. cbv iota.
  rewrite splitChar_join_app by assumption.
  rewrite normSegs_blank, normSegs_some_blank by assumption.
  cbn [splitChar NodePath.normSegs]. cbn. rewrite app_nil_r, rev_involutive. reflexivity.
Qed.

Lemma prefix_app : forall a b, String.prefix a (a ++ b) = true.
Proof. apply StringFacts.prefix_refl_app. Qed.

Lemma absolutePath_prefix :
  forall rsegs psegs, startsWith (absolutePath (rsegs ++ psegs)) (absolutePath rsegs) = true.
Proof.
  intros rsegs psegs. unfold startsWith, absolutePath.
  destruct rsegs as [|r rs]; [apply (prefix_app "/")|].
  destruct psegs as [|p ps].
  - rewrite app_nil_r. rewrite <- (StringFacts.append_nil_r ("/" ++ join "/" (r :: rs))) at 2.
    apply prefix_app.
  - rewrite join_app by discriminate.
    rewrite <- StringFacts.append_assoc. apply prefix_app.
Qed.

Lemma stat_plain :
  forall os segs,
    Forall plainSegment segs -> segs <> [] ->
    Fs.stat os (absolutePath segs) = Fs.tree os (absolutePath segs).
Proof.
  intros os segs H Hne. unfold Fs.stat. rewrite resolve_plain by assumption.
  unfold absolutePath. rewrite join_no_slash_end by assumption.
  destruct (Fs.tree os ("/" ++ join "/" segs)) as [[c|]|]; reflexivity.
Qed.

(** X27.  No false alarm of the containment test.  For a repository given by
    an absolute path of plain names and a relative path of plain names
    (no empty name, no [.], no [..]), the path resolves to the root
    followed by the names, the test [startsWith] passes, and [get_excerpt]
    succeeds exactly when the file system holds a regular file there. *)
Theorem plain_paths_are_never_refused :
  forall (os : Fs.Os) (rsegs psegs : list string) (ix : option Indexer.t)
         (startLine endLine : Z),
    Forall plainSegment rsegs -> Forall plainSegment psegs -> psegs <> [] ->
    let root := absolutePath rsegs in
    let p := join "/" psegs in
    NodePath.resolve (Fs.cwd os) [NodePath.join [root; p]] = absolutePath (rsegs ++ psegs)
    /\ startsWith (NodePath.resolve (Fs.cwd os) [NodePath.join [root; p]])
         (NodePath.resolve (Fs.cwd os) [root]) = true
    /\ (Tools.success
          (Tools.getExcerpt os (Tools.GetExcerptArgs.mk p startLine endLine)
             (Tools.mkToolContext root ix)) = true
        <-> exists content, Fs.tree os (absolutePath (rsegs ++ psegs)) = Some (Fs.File content)).
Proof.
  intros os rsegs psegs ix startLine endLine Hr Hp Hne root p.
  assert (Hall : Forall plainSegment (rsegs ++ psegs)) by now apply Forall_app.
  assert (Hne' : (rsegs ++ psegs)%list <> []) by (destruct rsegs; [assumption | discriminate]).
  assert (J : NodePath.join [root; p] = absolutePath (rsegs ++ psegs)) by now apply join_plain.
  assert (R : NodePath.resolve (Fs.cwd os) [NodePath.join [root; p]]
              = absolutePath (rsegs ++ psegs)) by (rewrite J; now apply resolve_plain).
  assert (C : startsWith (NodePath.resolve (Fs.cwd os) [NodePath.join [root; p]])
                (NodePath.resolve (Fs.cwd os) [root]) = true).
  { rewrite R. unfold root. rewrite resolve_plain by assumption. apply absolutePath_prefix. }
  split; [exact R|]. split; [exact C|].
  unfold Tools.getExcerpt.
  cbn [Tools.GetExcerptArgs.path Tools.GetExcerptArgs.startLine Tools.GetExcerptArgs.endLine
       Tools.repoPath].
  fold root. rewrite C. cbn [negb].
  unfold Fs.existsSync, Fs.readFileSync. rewrite J, stat_plain by assumption.
  destruct (Fs.tree os (absolutePath (rsegs ++ psegs))) as [[content|]|]; cbn.
  - split; [intros _; now exists content | reflexivity].
  - split; [discriminate | intros (c & Hc); discriminate Hc].
  - split; [discriminate | intros (c & Hc); discriminate Hc].
Qed.

Lemma plain_paths_are_never_refused_witness :
  Tools.success
    (Tools.getExcerpt Examples.os (Tools.GetExcerptArgs.mk (join "/" ["foo.ts"]) 1 5)
       (Tools.mkToolContext (absolutePath ["tmp"; "repo"]) None)) = true.
Proof.
  destruct (plain_paths_are_never_refused Examples.os ["tmp"; "repo"] ["foo.ts"] None 1 5)
    as (_ & _ & H).
  - repeat constructor; discriminate.
  - repeat constructor; discriminate.
  - discriminate.
  - apply H. eexists. reflexivity.
Defined.

End PathFacts.

(* ------------------------------------------------------------------ *)
(** ** The transcript sent to the provider *)
(* ------------------------------------------------------------------ *)

Module TranscriptFacts.
Import Js Loop StepDefs RunDefs LoopCases TranscriptDefs.

Section Runs.
Context {S : Type}.
Variable w : Tools.World.
Variable config : AgentLoopConfig.t S.

Lemma runToolCall_message :
  forall (st : State.t S) c,
  exists st' toolResult,
    runToolCall w config st c = inr st'
    /\ Tools.executeToolCall w (toolRegistry w config) (ToolCallResult.name c)
         (Tools.ArgString (ToolCallResult.argumentsJson c)) = inr toolResult
    /\ State.messages st'
       = (State.messages st
            ++ [ContextMessage.mk tool
                  (truncateOutput (Tools.outputSummary toolResult) (maxToolOutputChars config))
                  (Some (ToolCallResult.id c)) None])%list
    /\ State.trace st' = (State.trace st ++ [ToolExec (State.currentStep st) c])%list
    /\ State.currentStep st' = State.currentStep st.
Proof.
  intros st c. unfold runToolCall.
  destruct (RegistryFacts.executeToolCall_returns w (toolRegistry w config)
              (ToolCallResult.name c) (Tools.ArgString (ToolCallResult.argumentsJson c)))
    as [r E]. rewrite E.
  destruct (Tools.success r); eexists _, r; repeat split; reflexivity.
Qed.

Lemma runToolCalls_messages :
  forall calls (st : State.t S),
  exists st' answers,
    runToolCalls w config st calls = (st', None)
    /\ Answers w config calls answers
    /\ State.messages st' = (State.messages st ++ answers)%list
    /\ State.trace st' = (State.trace st ++ map (ToolExec (State.currentStep st)) calls)%list.
Proof.
  induction calls as [|c calls IH]; intros st.
  - exists st, []. cbn. rewrite !app_nil_r. repeat split. constructor.
  - cbn [runToolCalls].
    destruct (runToolCall_message st c) as (st1 & r & -> & Hr & Hm1 & Ht1 & Hk).
    destruct (IH st1) as (st2 & answers & -> & Ha & Hm2 & Ht2).
    eexists st2, (_ :: answers). split; [reflexivity|].
    split; [constructor; [exact Hr | exact Ha]|].
    split.
    + rewrite Hm2, Hm1, <- app_assoc. reflexivity.
    + rewrite Ht2, Ht1, Hk, <- app_assoc. reflexivity.
Qed.

Lemma loopRequest_wellFormed :
  forall (st : State.t S) k,
    Transcript w config (opening w config) (State.messages st) ->
    wellFormedRequest w config (LoopChat k (loopRequest w config st)).
Proof. intros st k H. repeat split. exact H. Qed.

Lemma iteration_inProtocol :
  forall st st' : State.t S,
    inProtocol w config st ->
    iteration w config st = Continue st' \/ iteration w config st = Break st' ->
    inProtocol w config st'.
Proof.
  intros st st' [Hm Ht] Hit.
  assert (Hc : forall p', Forall (wellFormedRequest w config)
                            (State.trace (called w config st p'))).
  { intros p'. cbn. apply Forall_app. split; [exact Ht|].
    constructor; [now apply loopRequest_wellFormed | constructor]. }
  destruct (iteration_cases w config st)
    as [(e & p' & _ & E)
       | (resp & p' & _ & [[_ E] | [(c & l & st2 & _ & Hrun & E)
                                    | [(answer & _ & _ & _ & [[Hv E] | [Hv E]])
                                      | (_ & _ & E)]]])];
    rewrite E in Hit; destruct Hit as [Hit|Hit]; try discriminate Hit;
    injection Hit as <-.
  - split; [exact Hm | apply Hc].
  - split; [exact Hm | apply Hc].
  - destruct (runToolCalls_messages (c :: l)
                (pushMessage
                   (ContextMessage.mk assistant (orDefault (ChatResponse.assistantText resp) "")
                      None (Some (c :: l))) (called w config st p')))
      as (st2' & answers & E2 & Ha & Hm2 & Ht2).
    rewrite Hrun in E2. injection E2 as <-. split.
    + rewrite Hm2. cbn [State.messages pushMessage called pushEvent setProvider setStep].
      rewrite <- app_assoc. apply transcript_tools; [exact Hm | discriminate | exact Ha].
    + rewrite Ht2. apply Forall_app. split; [apply Hc|].
      apply Forall_forall. intros ev Hin. apply in_map_iff in Hin as (x & <- & _). exact I.
  - split; [exact Hm | apply Hc].
  - split; [|apply Hc].
    cbn [State.messages pushMessage pushStep called pushEvent setProvider setStep].
    rewrite <- app_assoc. now apply transcript_repair.
  - split; [exact Hm | apply Hc].
Qed.

Lemma forcedRequest_wellFormed :
  forall st : State.t S,
    Transcript w config (opening w config) (State.messages st) ->
    wellFormedRequest w config (ForcedChat (forcedRequest config st)).
Proof.
  intros st H. repeat split. eexists _, _. split; [exact H | reflexivity].
Qed.

(** X28.  Every request that a run sends to the provider is well formed.
    The messages begin with the system prompt and the question; after them
    come only turns of tool calls - the assistant message with the calls,
    followed by one tool message per call, in order, each under the id of
    its call - and refused answers, each followed by the repair prompt.  A
    request of the loop carries the tools of the registry and the choice
    "auto"; the request of the forced termination ends with the termination
    prompt and carries no tool. *)
Theorem every_request_is_a_transcript :
  forall p0 : S,
  exists run,
    runAgent w config p0 = Some run
    /\ Forall (wellFormedRequest w config) (events run).
Proof.
  intros p0. unfold runAgent.
  destruct (LoopFacts.whileLoop_total w config (Z.to_nat (maxSteps config))
              (initialState w config p0)) as [st Hst].
  { cbn. lia. }
  rewrite Hst. eexists. split; [reflexivity|].
  assert (HP : inProtocol w config st).
  { eapply (LoopFacts.whileLoop_invariant w config (inProtocol w config)); [| | exact Hst].
    - intros s s' HP _ Hit. eapply iteration_inProtocol; eassumption.
    - split; [apply transcript_opening | constructor]. }
  destruct HP as [Hm Ht]. cbn [events finish].
  destruct (LoopFacts.afterLoop_trace config st) as [-> | [-> _]]; [exact Ht|].
  apply Forall_app. split; [exact Ht|].
  constructor; [now apply forcedRequest_wellFormed | constructor].
Qed.

End Runs.
End TranscriptFacts.

(* ------------------------------------------------------------------ *)
(** ** A DONE response without an answer *)
(* ------------------------------------------------------------------ *)

Module EmptyAnswerFacts.
Import Js Regex Loop StepDefs RunDefs.

Lemma dropSpaces_blank : forall s, everyChar isSpace s = true -> dropSpaces s = "".
Proof.
  induction s as [|c r IH]; intros H; [reflexivity|].
  cbn in H. apply andb_true_iff in H as [Hc Hr]. cbn [dropSpaces]. rewrite Hc. now apply IH.
Qed.

Lemma trim_blank : forall s, everyChar isSpace s = true -> trim s = "".
Proof. intros s H. unfold trim. rewrite (dropSpaces_blank s H). reflexivity. Qed.

Lemma spacesThenLF_found :
  forall s b, exists r, spacesThenLF s (Some b) = Some r.
Proof.
  induction s as [|c s IH]; intros b; cbn [spacesThenLF]; [now exists b|].
  destruct (isSpace c); [|now exists b].
  destruct (Ascii.eqb c LF); apply IH.
Qed.

(** The DONE marker followed by a line feed and white space only: a DONE
    response whose answer is the empty text. *)
Lemma parseResponse_empty_answer :
  forall blank calls,
    everyChar isSpace blank = true -> (calls = None \/ calls = Some []) ->
    parseResponse (Some ("DONE" ++ nl ++ blank)) calls
    = ParsedLLMResponse.mk ResponseType.done None (Some "")
        (Some ("DONE" ++ nl ++ blank)) None.
Proof.
  intros blank calls Hb Hcalls.
  assert (D : exists body, doneMatch ("DONE" ++ nl ++ blank) = Some body
                           /\ everyChar isSpace body = true).
  { unfold doneMatch.
    change (eatCI "done" ("DONE" ++ nl ++ blank)) with (Some (String LF blank)).
    cbv iota. cbn [spacesThenLF].
    change (isSpace LF) with true. change (Ascii.eqb LF LF) with true. cbv iota.
    destruct (spacesThenLF_found blank blank) as [r Hr]. exists r. split; [exact Hr|].
    eapply CitationFacts.spacesThenLF_every; [exact Hr | exact Hb |].
    intros b E. injection E as <-. exact Hb. }
  destruct D as (body & D & Hbody).
  unfold parseResponse.
  destruct Hcalls as [-> | ->];
    change ("DONE" ++ nl ++ blank) with (String "D" ("ONE" ++ nl ++ blank)) in *;
    cbv iota; rewrite D, (trim_blank body Hbody); reflexivity.
Qed.

Section Runs.
Context {S : Type}.
Variable w : Tools.World.
Variable config : AgentLoopConfig.t S.

(** X29.  A DONE response without an answer wastes its turn.  When the text
    of a response is the DONE marker, a line feed and white space only (and
    there is no tool call), the turn is logged as an unexpected response
    with the first 200 characters of the text, no message is added to the
    transcript and no error is set: the loop goes on, and the request of
    the next turn is the request of this one. *)
Theorem empty_done_answer_repeats_the_request :
  forall (st : State.t S) (blank : string) (calls : option (list ToolCallResult.t)) (p' : S),
    everyChar isSpace blank = true ->
    calls = None \/ calls = Some [] ->
    chat (AgentLoopConfig.llmProvider config) (State.provider st) (loopRequest w config st)
    = (inr (ChatResponse.mk (Some ("DONE" ++ nl ++ blank)) calls), p') ->
    exists st',
      iteration w config st = Continue st'
      /\ loopRequest w config st' = loopRequest w config st
      /\ State.steps st'
         = (State.steps st
              ++ [StepLog.mk (State.currentStep st + 1) None None None
                    (sliceStr ("DONE" ++ nl ++ blank) 0 200) false None None])%list
      /\ State.currentStep st' = State.currentStep st + 1
      /\ State.provider st' = p'
      /\ State.error st' = State.error st
      /\ State.finalAnswer st' = State.finalAnswer st
      /\ State.verified st' = State.verified st.
Proof.
  intros st blank calls p' Hb Hcalls Hchat.
  pose proof (parseResponse_empty_answer blank calls Hb Hcalls) as Hparse.
  unfold iteration.
  change (loopRequest w config (setStep (State.currentStep st + 1) st))
    with (loopRequest w config st).
  cbn [State.provider setStep]. rewrite Hchat.
  cbn [ChatResponse.assistantText ChatResponse.toolCalls]. rewrite Hparse.
  cbn [ParsedLLMResponse.type ParsedLLMResponse.toolCalls ParsedLLMResponse.answerMd
       ParsedLLMResponse.rawContent].
  eexists. split; [reflexivity|]. repeat split.
Qed.

End Runs.

Lemma empty_done_answer_repeats_the_request_witness :
  exists st',
    iteration Examples.world (Examples.configOf 8)
      (initialState Examples.world (Examples.configOf 8) [Examples.says ("DONE" ++ nl ++ nl)])
    = Continue st'
    /\ loopRequest Examples.world (Examples.configOf 8) st'
       = loopRequest Examples.world (Examples.configOf 8)
           (initialState Examples.world (Examples.configOf 8)
              [Examples.says ("DONE" ++ nl ++ nl)]).
Proof.
  destruct (empty_done_answer_repeats_the_request Examples.world (Examples.configOf 8)
              (initialState Examples.world (Examples.configOf 8)
                 [Examples.says ("DONE" ++ nl ++ nl)])
              nl None [])
    as (st' & Hit & Hreq & _).
  - reflexivity.
  - now left.
  - reflexivity.
  - exists st'. split; [exact Hit | exact Hreq].
Defined.

End EmptyAnswerFacts.
